(** * Apple Pay / Bancontact report refresher: numeric normaliser and
      label-anchored cell updater

    A shallow embedding of the core routines of [refresh_applepay_belfius.py],
    [refresh_bancontact.py] and [refresh_applepay_belfius_v2.py]:

    - [to_num], the numeric normaliser (identical in the Belfius and the
      Bancontact script);
    - [_anchor_cell], [upsert_reporting_month] and the legacy
      [set_reporting_month], the merge-aware "Reporting Month" stamp;
    - [write_dataframe_to_sheet], which refills a hidden [Data_*] sheet;
    - the control flow of the three [main] functions, with CSV parsing, the
      formula wiring and the values-only rewrite as parameters.

    The functions that assign cells come twice: [ReportingMonth] and
    [DataSheet] give the sheet a call leaves when openpyxl accepts every
    assignment; [Stamp] and [Refill] give the same calls with the exceptions
    that openpyxl raises (assignment to a [MergedCell], a control character
    in a text, a sheet title that is refused) and with the cut of long texts.

    Python values are modelled as follows.  A [str] is the list of its code
    points ([N]); a [float] is a primitive binary64 float; an [int] is a [Z];
    a worksheet is the finite map of its cells, keyed by 1-based (row, column),
    together with the list of its merged ranges. *)

From Stdlib Require Import ZArith NArith List Bool Lia Floats.
From Stdlib Require Import Strings.Ascii Strings.String.
From stdpp Require Import base option list gmap.

#[local] Set Warnings "-inexact-float".
#[local] Open Scope Z_scope.

(* ===================================================================== *)
(** * Python text *)
(* ===================================================================== *)

Module PyStr.

(** A Python [str]: a sequence of Unicode code points. *)
Abbreviation str := (list N).

(** [u "..."] is the [str] of an ASCII literal. *)
Definition u (s : string) : str :=
  List.map N_of_ascii (list_ascii_of_string s).

Definition EURO : N := 8364%N.     (* U+20AC *)
Definition NBSP : N := 160%N.      (* U+00A0 *)
Definition PERCENT : N := 37%N.
Definition SPACE : N := 32%N.
Definition COMMA : N := 44%N.
Definition DOT : N := 46%N.
Definition COLON : N := 58%N.
Definition LPAREN : N := 40%N.
Definition RPAREN : N := 41%N.

Definition in_range (lo hi c : N) : bool := ((lo <=? c) && (c <=? hi))%N.

(** [str.isspace] on one code point: the characters [str.strip()] removes. *)
Definition isspace (c : N) : bool :=
  in_range 9 13 c || in_range 28 32 c || (c =? 133)%N || (c =? 160)%N
  || (c =? 5760)%N || in_range 8192 8202 c || (c =? 8232)%N || (c =? 8233)%N
  || (c =? 8239)%N || (c =? 8287)%N || (c =? 12288)%N.

(** [s.lstrip()], [s.rstrip()], [s.strip()]. *)
Fixpoint lstrip (s : str) : str :=
  match s with
  | [] => []
  | c :: t => if isspace c then lstrip t else s
  end.

Fixpoint rstrip (s : str) : str :=
  match s with
  | [] => []
  | c :: t =>
      match rstrip t with
      | [] => if isspace c then [] else [c]
      | t' => c :: t'
      end
  end.

Definition strip (s : str) : str := lstrip (rstrip s).

(** [s.startswith(c)] and [s.endswith(c)] for a one-character [c]. *)
Definition startswith (c : N) (s : str) : bool :=
  match s with
  | [] => false
  | x :: _ => (x =? c)%N
  end.

Definition endswith (c : N) (s : str) : bool :=
  match List.rev s with
  | [] => false
  | x :: _ => (x =? c)%N
  end.

(** The slice [s[1:-1]]. *)
Definition slice_1_m1 (s : str) : str := List.removelast (List.tl s).

(** [c in s] for a one-character [c]. *)
Definition mem (c : N) (s : str) : bool := List.existsb (N.eqb c) s.

(** [s.replace(old, new)] for a one-character [old]. *)
Definition replace (old : N) (new : str) (s : str) : str :=
  List.flat_map (fun x => if (x =? old)%N then new else [x]) s.

(** [s.count(c)] for a one-character [c]. *)
Definition count (c : N) (s : str) : nat :=
  List.length (List.filter (N.eqb c) s).

(** [s.lower()].  Exact on Basic Latin and Latin-1; code points above
    U+00FF are kept as they are (their case mapping depends on the
    interpreter's Unicode tables, and none of them lower-cases to a sequence
    that completes the ASCII needle searched by the updater). *)
Definition lower_char (c : N) : N :=
  if in_range 65 90 c || in_range 192 214 c || in_range 216 222 c
  then (c + 32)%N else c.

Definition lower (s : str) : str := List.map lower_char s.

(** [needle in hay] for strings. *)
Fixpoint is_prefix (p s : str) : bool :=
  match p, s with
  | [], _ => true
  | _ :: _, [] => false
  | a :: p', b :: s' => (a =? b)%N && is_prefix p' s'
  end.

Fixpoint contains (needle hay : str) : bool :=
  is_prefix needle hay ||
  match hay with
  | [] => false
  | _ :: t => contains needle t
  end.

End PyStr.

(* ===================================================================== *)
(** * Python floats *)
(* ===================================================================== *)

Module PyFloat.
Import PyStr.

(** Exceptions that the modelled code can raise, and results. *)
Inductive exn := OverflowError | ValueError | NameError.

Inductive result (A : Type) :=
| Ok (a : A)
| Raise (e : exn).
Arguments Ok {A} a.
Arguments Raise {A} e.

(** ** Correctly rounded conversions to binary64 *)

(** [m] rounded to nearest-even, as a [spec_float]. *)
Definition round_int (neg : bool) (m : positive) : spec_float :=
  binary_round prec emax neg m 0.

(** [m / d] rounded to nearest-even. *)
Definition round_quot (neg : bool) (m d : positive) : spec_float :=
  let '(q, e, l) := SFdiv_core_binary prec emax (Zpos m) 0 (Zpos d) 0 in
  binary_round_aux prec emax neg q e l.

(** The double nearest to [(-1)^neg * m * 10^e10]: what CPython's [strtod]
    returns for a decimal string (infinity on overflow, zero on underflow). *)
Definition dec_to_float (neg : bool) (m : Z) (e10 : Z) : float :=
  match m with
  | Zpos p =>
      SF2Prim (if 0 <=? e10 then round_int neg (p * Z.to_pos (10 ^ e10))
               else round_quot neg p (Z.to_pos (10 ^ (- e10))))
  | _ => if neg then PrimFloat.neg_zero else PrimFloat.zero
  end.

(** [float(n)] for an [int]: correctly rounded; [OverflowError] ("int too
    large to convert to float") when the rounded value is out of range. *)
Definition float_of_int (n : Z) : result float :=
  match binary_normalize prec emax n 0 false with
  | S754_infinity _ => Raise OverflowError
  | sf => Ok (SF2Prim sf)
  end.

(** ** [float(s)] for a [str] *)

Definition is_digit (c : N) : bool := in_range 48 57 c.

(** [Py_ISSPACE]: the ASCII white space [float] strips. *)
Definition is_c_space (c : N) : bool := in_range 9 13 c || (c =? 32)%N.

(** [_PyUnicode_TransformDecimalAndSpaceToASCII]: ASCII is kept, other white
    space becomes a blank, anything else becomes ['?'] (which no number
    contains).  Decimal digits outside ASCII, which CPython maps to ASCII
    digits by its Unicode database, are not modelled and are rejected. *)
Definition to_ascii_space (c : N) : N :=
  if (c <? 128)%N then c else if isspace c then 32%N else 63%N.

Fixpoint lstrip_c (s : str) : str :=
  match s with
  | [] => []
  | c :: t => if is_c_space c then lstrip_c t else s
  end.

Fixpoint rstrip_c (s : str) : str :=
  match s with
  | [] => []
  | c :: t =>
      match rstrip_c t with
      | [] => if is_c_space c then [] else [c]
      | t' => c :: t'
      end
  end.

(** [_Py_string_to_number_with_underscores]: an underscore is accepted only
    between two digits, and is dropped.  [prev] is the previous character. *)
Fixpoint drop_underscores (prev : N) (s : str) : option str :=
  match s with
  | [] => if (prev =? 95)%N then None else Some []
  | c :: t =>
      if (c =? 95)%N then
        if is_digit prev then drop_underscores c t else None
      else if (prev =? 95)%N && negb (is_digit c) then None
      else option_map (cons c) (drop_underscores c t)
  end.

(** An optional sign. *)
Definition parse_sign (s : str) : bool * str :=
  match s with
  | 45%N :: t => (true, t)
  | 43%N :: t => (false, t)
  | _ => (false, s)
  end.

(** The longest prefix of digits, and the rest. *)
Fixpoint span_digits (s : str) : str * str :=
  match s with
  | [] => ([], [])
  | c :: t =>
      if is_digit c then let '(d, r) := span_digits t in (c :: d, r)
      else ([], s)
  end.

Definition digits_value (d : str) : Z :=
  List.fold_left (fun acc c => 10 * acc + (Z.of_N c - 48)) d 0.

(** The exponent part: empty, or [e]/[E], an optional sign and at least one
    digit, up to the end of the string. *)
Definition parse_exponent (s : str) : option Z :=
  match s with
  | [] => Some 0
  | c :: t =>
      if (c =? 101)%N || (c =? 69)%N then
        let '(eneg, t1) := parse_sign t in
        match span_digits t1 with
        | ((_ :: _) as d, []) =>
            Some (if eneg then - digits_value d else digits_value d)
        | _ => None
        end
      else None
  end.

(** [_Py_parse_inf_or_nan]: [inf], [infinity], [nan] in any letter case,
    with an optional sign. *)
Definition ascii_lower (c : N) : N :=
  if in_range 65 90 c then (c + 32)%N else c.

Definition str_eqb (a b : str) : bool := bool_decide (a = b).

Definition parse_inf_nan (s : str) : option float :=
  let '(neg, t) := parse_sign s in
  let w := List.map ascii_lower t in
  if str_eqb w (u "inf") || str_eqb w (u "infinity")
  then Some (if neg then PrimFloat.neg_infinity else PrimFloat.infinity)
  else if str_eqb w (u "nan") then Some PrimFloat.nan
  else None.

(** The decimal grammar of [_Py_dg_strtod]: an optional sign, digits with an
    optional point (at least one digit in all), an optional exponent; the
    whole string has to be consumed.  Without any digit the string may
    still be an infinity or a NaN. *)
Definition parse_number (s : str) : option float :=
  let '(neg, r) := parse_sign s in
  let '(ip, r1) := span_digits r in
  let '(fp, r2) :=
    match r1 with
    | c :: t => if (c =? DOT)%N then span_digits t else ([], r1)
    | [] => ([], r1)
    end in
  match ip ++ fp with
  | [] => parse_inf_nan s
  | d =>
      match parse_exponent r2 with
      | Some e => Some (dec_to_float neg (digits_value d) (e - Z.of_nat (List.length fp)))
      | None => None
      end
  end.

(** [float_from_string_inner]: white space is stripped from both ends, and an
    empty rest is an error. *)
Definition float_from_string_inner (s : str) : option float :=
  parse_number (rstrip_c (lstrip_c s)).

(** [float(s)]: [None] stands for the [ValueError] of a string that is not a
    number.  Underscores are dealt with first, on the whole string. *)
Definition py_float (s : str) : option float :=
  let s := List.map to_ascii_space s in
  if mem 95 s then
    match drop_underscores 0 s with
    | Some s' => float_from_string_inner s'
    | None => None
    end
  else float_from_string_inner s.

Definition isnan (x : float) : bool := PrimFloat.is_nan x.
Definition isinf (x : float) : bool := PrimFloat.is_infinity x.

End PyFloat.

(* ===================================================================== *)
(** * The numeric normaliser *)
(* ===================================================================== *)

Module ToNum.
Import PyStr PyFloat.

(** The Python values that reach [to_num] and that a cell can hold. *)
Inductive pyval :=
| VNone
| VBool (b : bool)
| VInt (n : Z)
| VFloat (x : float)
| VStr (s : str).

(** Steps of [to_num] on the stripped, non-empty text. *)

(** [s.replace("%", "").replace(EURO, "").replace(NBSP, " ").replace(" ", "")] *)
Definition clean (s : str) : str :=
  replace SPACE [] (replace NBSP [SPACE] (replace EURO [] (replace PERCENT [] s))).

(** The decimal-separator rule. *)
Definition fix_separators (s : str) : str :=
  if (0 <? count COMMA s)%nat && (count DOT s =? 0)%nat
  then replace COMMA [DOT] s
  else replace COMMA [] s.

(** The body of the [try] block; [None] is the [except Exception] branch. *)
Definition finish (neg pct : bool) (s : str) : float :=
  match py_float s with
  | Some x =>
      let x := if neg then (- x)%float else x in
      let x := if pct then (x / 100)%float else x in
      if isnan x || isinf x then 0%float else x
  | None => 0%float
  end.

Definition to_num_str (v : str) : float :=
  let s := strip v in
  match s with
  | [] => 0%float
  | _ =>
      let neg := startswith LPAREN s && endswith RPAREN s in
      let s := if neg then slice_1_m1 s else s in
      let pct := mem PERCENT s in
      let s := clean s in
      let s := fix_separators s in
      finish neg pct s
  end.

(** [to_num(v)].  [bool] is a subclass of [int]; [float(v)] of an [int] is the
    only call outside the [try] block that can raise. *)
Definition to_num (v : pyval) : result float :=
  match v with
  | VNone => Ok 0%float
  | VBool b => Ok (if b then 1%float else 0%float)
  | VInt n => float_of_int n
  | VFloat x => if isnan x || isinf x then Ok 0%float else Ok x
  | VStr s => Ok (to_num_str s)
  end.

End ToNum.

(* ===================================================================== *)
(** * Worksheets *)
(* ===================================================================== *)

Module Sheet.
Import PyStr PyFloat ToNum.

(** A cell address: 1-based (row, column). *)
Abbreviation coord := (positive * positive)%type.

(** A merged range, as [ws.merged_cells.ranges] lists them. *)
Record CellRange := {
  min_row : positive;
  min_col : positive;
  max_row : positive;
  max_col : positive
}.

(** [cell.coordinate in mr] *)
Definition in_cell_range (p : coord) (mr : CellRange) : bool :=
  ((min_row mr <=? p.1) && (p.1 <=? max_row mr) &&
   (min_col mr <=? p.2) && (p.2 <=? max_col mr))%positive.

Inductive visibility := Visible | Hidden | VeryHidden.

(** A worksheet: [cells] is openpyxl's [_cells] dictionary, which holds the
    cells that have been created so far (a created cell may still be
    empty, i.e. hold [None]). *)
Record Worksheet := {
  title : str;
  cells : gmap coord pyval;
  merged_cells : list CellRange;
  sheet_state : visibility
}.

Definition with_cells (m : gmap coord pyval) (ws : Worksheet) : Worksheet :=
  {| title := title ws; cells := m;
     merged_cells := merged_cells ws; sheet_state := sheet_state ws |}.

Definition with_state (st : visibility) (ws : Worksheet) : Worksheet :=
  {| title := title ws; cells := cells ws;
     merged_cells := merged_cells ws; sheet_state := st |}.

(** [ws.cell(row, column).value] of an existing or absent cell. *)
Definition cell_value (ws : Worksheet) (p : coord) : pyval :=
  default VNone (cells ws !! p).

(** [ws.cell(row=r, column=c)]: the cell is created, empty, when the sheet
    does not have it yet. *)
Definition cell (p : coord) (ws : Worksheet) : Worksheet :=
  match cells ws !! p with
  | Some _ => ws
  | None => with_cells (<[p := VNone]> (cells ws)) ws
  end.

(** [c.value = v] for the cell at [p]. *)
Definition set_value (p : coord) (v : pyval) (ws : Worksheet) : Worksheet :=
  with_cells (<[p := v]> (cells ws)) ws.

(** [ws.max_row] and [ws.max_column]: the largest row and column that has a
    cell, 1 on an empty sheet. *)
Definition ws_max_row (ws : Worksheet) : positive :=
  foldr Pos.max 1%positive ((fun kv => kv.1.1) <$> map_to_list (cells ws)).

Definition ws_max_column (ws : Worksheet) : positive :=
  foldr Pos.max 1%positive ((fun kv => kv.1.2) <$> map_to_list (cells ws)).

(** [range(1, n + 1)] *)
Definition pos_range (n : positive) : list positive :=
  Pos.of_nat <$> seq 1 (Pos.to_nat n).

(** [_anchor_cell(ws, cell)]: the top-left cell of the first merged range
    that contains [cell], else [cell] itself. *)
Definition anchor_coord (ws : Worksheet) (p : coord) : coord :=
  match List.find (in_cell_range p) (merged_cells ws) with
  | Some mr => (min_row mr, min_col mr)
  | None => p
  end.

Definition _anchor_cell (ws : Worksheet) (p : coord) : Worksheet * coord :=
  match List.find (in_cell_range p) (merged_cells ws) with
  | Some mr => (cell (min_row mr, min_col mr) ws, (min_row mr, min_col mr))
  | None => (ws, p)
  end.

End Sheet.

(* ===================================================================== *)
(** * The Reporting Month stamp *)
(* ===================================================================== *)

(** The stamp as a function of the sheet: what the call leaves when its one
    assignment is accepted.  The failures of the assignment are in [Stamp]. *)

Module ReportingMonth.
Import PyStr PyFloat ToNum Sheet.

Definition NEEDLE : str := u "reporting month".

(** [f"Reporting Month: {month_label}"] *)
Definition full_label (month_label : str) : str :=
  u "Reporting Month: " ++ month_label.

(** [isinstance(val, str) and "reporting month" in val.lower()] *)
Definition is_label (v : pyval) : bool :=
  match v with
  | VStr val => contains NEEDLE (lower val)
  | _ => false
  end.

(** The body of the inner loop of [upsert_reporting_month] at row [r],
    column [c]; the flag tells whether the function returned there. *)
Definition visit (month_label : str) (ws : Worksheet) (r c : positive)
  : Worksheet * bool :=
  let ws := cell (r, c) ws in
  match cell_value ws (r, c) with
  | VStr val =>
      if contains NEEDLE (lower val) then
        let '(ws, anchor) := _anchor_cell ws (r, c) in
        let text := strip val in
        if mem COLON text then
          (set_value anchor (VStr (full_label month_label)) ws, true)
        else
          let ws := cell (r, (c + 1)%positive) ws in
          let '(ws, target) := _anchor_cell ws (r, (c + 1)%positive) in
          (set_value target (VStr month_label) ws, true)
      else (ws, false)
  | _ => (ws, false)
  end.

Fixpoint scan_cols (month_label : str) (ws : Worksheet) (r : positive)
  (cs : list positive) : Worksheet * bool :=
  match cs with
  | [] => (ws, false)
  | c :: cs' =>
      let '(ws', returned) := visit month_label ws r c in
      if returned then (ws', true) else scan_cols month_label ws' r cs'
  end.

Fixpoint scan_rows (month_label : str) (ws : Worksheet)
  (rs cs : list positive) : Worksheet * bool :=
  match rs with
  | [] => (ws, false)
  | r :: rs' =>
      let '(ws', returned) := scan_cols month_label ws r cs in
      if returned then (ws', true) else scan_rows month_label ws' rs' cs
  end.

(** [upsert_reporting_month(ws, month_label)] *)
Definition upsert_reporting_month (ws : Worksheet) (month_label : str)
  : Worksheet :=
  let max_r := Pos.min (ws_max_row ws) 10 in
  let max_c := Pos.min (ws_max_column ws) 30 in
  let '(ws', returned) :=
    scan_rows month_label ws (pos_range max_r) (pos_range max_c) in
  if returned then ws'
  else
    let ws' := cell (2, 1)%positive ws' in
    let '(ws', a2) := _anchor_cell ws' (2, 1)%positive in
    set_value a2 (VStr (full_label month_label)) ws'.

End ReportingMonth.

(** ** The legacy stamp of [refresh_applepay_belfius_v2.py] *)

Module LegacyV2.
Import PyStr PyFloat ToNum Sheet ReportingMonth.

Section V2.
(** [str(v)] for the values that are not text (numbers, booleans): their
    rendering is the interpreter's and is left open. *)
Variable py_str : pyval -> str.

(** [prev_month_label()] of the v2 script.  The module imports neither [date]
    nor [timedelta], so evaluating [date.today()] raises [NameError]. *)
Definition prev_month_label : result str := Raise NameError.

(** [str(cell.value).strip() if cell.value is not None else ""] *)
Definition cell_text (ws : Worksheet) (p : coord) : str :=
  match cell_value ws p with
  | VNone => []
  | VStr s => strip s
  | v => strip (py_str v)
  end.

(** The loop body of [set_reporting_month] at column [col] of row 2. *)
Definition visit_row2 (label : str) (ws : Worksheet) (col : positive)
  : Worksheet * bool :=
  let ws := cell (2%positive, col) ws in
  let text := cell_text ws (2%positive, col) in
  let low := lower text in
  if contains NEEDLE low then
    if mem COLON text || (col =? 1)%positive then
      let '(ws, a) := _anchor_cell ws (2%positive, col) in
      (set_value a (VStr (full_label label)) ws, true)
    else
      let ws := cell (2%positive, (col + 1)%positive) ws in
      let '(ws, a) := _anchor_cell ws (2%positive, (col + 1)%positive) in
      (set_value a (VStr label) ws, true)
  else (ws, false).

Fixpoint scan_row2 (label : str) (ws : Worksheet) (cols : list positive)
  : Worksheet * bool :=
  match cols with
  | [] => (ws, false)
  | col :: cols' =>
      let '(ws', wrote) := visit_row2 label ws col in
      if wrote then (ws', true) else scan_row2 label ws' cols'
  end.

Definition stamp_sheet (label : str) (ws : Worksheet) : Worksheet :=
  let '(ws', wrote) := scan_row2 label ws (pos_range 30) in
  if wrote then ws'
  else
    let ws' := cell (2, 1)%positive ws' in
    let '(ws', a2) := _anchor_cell ws' (2, 1)%positive in
    set_value a2 (VStr (full_label label)) ws'.

(** [set_reporting_month(wb)]: the label is computed before the loop over the
    sheets starts. *)
Definition set_reporting_month (wb : list Worksheet) : result (list Worksheet) :=
  match prev_month_label with
  | Raise e => Raise e
  | Ok label => Ok (stamp_sheet label <$> wb)
  end.

End V2.
End LegacyV2.

(* ===================================================================== *)
(** * Refilling a data sheet *)
(* ===================================================================== *)

(** The refill as a function of the workbook: what the call leaves when
    every value is kept as it is and a new sheet gets the name asked for.
    The failures, the cut of long texts and the title of a new sheet are in
    [Refill]. *)

Module DataSheet.
Import PyStr PyFloat ToNum Sheet.

(** A workbook: its worksheets in tab order. *)
Abbreviation Workbook := (list Worksheet).

(** A pandas data frame as [write_dataframe_to_sheet] reads it: the column
    labels and the rows of [df.itertuples(index=False, name=None)].
    [read_csv] yields text labels, for which [str(col)] is the label. *)
Record DataFrame := {
  columns : list str;
  rows : list (list pyval)
}.

Definition sheetnames (wb : Workbook) : list str := title <$> wb.

(** [sheet_name in wb.sheetnames] *)
Definition has_sheet (name : str) (wb : Workbook) : bool :=
  bool_decide (name ∈ sheetnames wb).

(** [wb[sheet_name]] *)
Definition get_sheet (name : str) (wb : Workbook) : option Worksheet :=
  List.find (fun ws => bool_decide (title ws = name)) wb.

(** In-place mutation of [wb[sheet_name]]. *)
Fixpoint update_sheet (name : str) (f : Worksheet -> Worksheet)
  (wb : Workbook) : Workbook :=
  match wb with
  | [] => []
  | ws :: rest =>
      if bool_decide (title ws = name) then f ws :: rest
      else ws :: update_sheet name f rest
  end.

(** The sheet [wb.create_sheet(title=...)] appends, when it keeps the
    title. *)
Definition new_sheet (name : str) : Worksheet :=
  {| title := name; cells := ∅; merged_cells := []; sheet_state := Visible |}.

(** [ws.delete_rows(idx, amount)]: the cells of rows [idx .. idx+amount-1]
    are dropped and the cells below move up by [amount]. *)
Definition shift_row (idx amount : positive) (kv : coord * pyval)
  : option (coord * pyval) :=
  let '((r, c), v) := kv in
  if (r <? idx)%positive then Some kv
  else if (r <? idx + amount)%positive then None
  else Some ((r - amount)%positive, c, v).

Definition delete_rows (idx amount : positive) (ws : Worksheet) : Worksheet :=
  with_cells (list_to_map (omap (shift_row idx amount) (map_to_list (cells ws)))) ws.

(** [ws.cell(row=r, column=c, value=v)]: the cell is created; [None] is not
    assigned. *)
Definition cell_with_value (p : coord) (v : pyval) (ws : Worksheet) : Worksheet :=
  let ws := cell p ws in
  match v with
  | VNone => ws
  | _ => set_value p v ws
  end.

(** [for j, val in enumerate(row, start=c): ws.cell(row=r, column=j, value=val)] *)
Fixpoint write_row (r c : positive) (vals : list pyval) (ws : Worksheet)
  : Worksheet :=
  match vals with
  | [] => ws
  | v :: t => write_row r (c + 1)%positive t (cell_with_value (r, c) v ws)
  end.

(** [for i, row in enumerate(rows, start=i): ...] *)
Fixpoint write_rows (i : positive) (rs : list (list pyval)) (ws : Worksheet)
  : Worksheet :=
  match rs with
  | [] => ws
  | row :: t => write_rows (i + 1)%positive t (write_row i 1 row ws)
  end.

Definition fill_sheet (df : DataFrame) (ws : Worksheet) : Worksheet :=
  let ws := write_row 1 1 (VStr <$> columns df) ws in
  let ws := write_rows 2 (rows df) ws in
  with_state Hidden ws.

Definition clear_sheet (ws : Worksheet) : Worksheet :=
  if (0 <? Z.pos (ws_max_row ws)) then delete_rows 1 (ws_max_row ws) ws else ws.

(** [write_dataframe_to_sheet(wb, sheet_name, df)] *)
Definition write_dataframe_to_sheet (wb : Workbook) (sheet_name : str)
  (df : DataFrame) : Workbook :=
  if has_sheet sheet_name wb then
    update_sheet sheet_name (fun ws => fill_sheet df (clear_sheet ws)) wb
  else
    wb ++ [fill_sheet df (new_sheet sheet_name)].

End DataSheet.

(* ===================================================================== *)
(** * The three entry points *)
(* ===================================================================== *)

Module Main.
Import PyStr PyFloat ToNum Sheet ReportingMonth DataSheet.

Section Orchestration.

(** What lies outside the core: paths, CSV parsing, the fixed-address formula
    wiring, the values-only rewrite and the system date. *)
Variable Path : Type.
Variable read_csv_robust : Path -> DataFrame.
Variable wire_visible_sheets : Workbook -> Workbook.
Variable ensure_report_formulas_and_cosmetics : Workbook -> Workbook.
Variable ready_values_only : Workbook -> Workbook.
Variable prev_month_label : str.

(** The files a run sees. *)
Record World := {
  glob : string -> list Path;        (* [dir.glob(pattern)] *)
  is_file : Path -> bool;
  exists_csv : string -> option Path; (* [(HERE / name).exists()] *)
  workbook : option Workbook;        (* the WIRED file; [None] when absent *)
  loadable : bool;                   (* [load_workbook] succeeds *)
  writable : bool;                   (* no [PermissionError] on save *)
  ready : option Workbook            (* the READY file *)
}.

Definition save_workbook (wb : Workbook) (w : World) : World :=
  {| glob := glob w; is_file := is_file w; exists_csv := exists_csv w;
     workbook := Some wb; loadable := loadable w; writable := writable w;
     ready := ready w |}.

Definition save_ready (wb : Workbook) (w : World) : World :=
  {| glob := glob w; is_file := is_file w; exists_csv := exists_csv w;
     workbook := workbook w; loadable := loadable w; writable := writable w;
     ready := Some wb |}.

(** What a run does to the outside, in order; a load or a save is recorded
    when it is attempted. *)
Inductive event :=
| LogError (msg : string)
| LoadWorkbook
| ReadCsv (sheet : string)
| SaveWorkbook
| SaveReady.

(** How [main] ends.  Falling off the end of [main] is [Returned 0]. *)
Inductive outcome :=
| Returned (code : Z)   (* [return code] *)
| SysExit (code : Z)    (* [sys.exit(code)] *)
| Uncaught.             (* an exception leaves [main] *)

(** [resolve_csv(patterns)]: the first file of the first pattern that has
    one. *)
Definition resolve_csv (w : World) (patterns : list string) : option Path :=
  List.find (is_file w) (List.flat_map (glob w) patterns).

Definition CSV_PATTERNS : list (string * list string) :=
  [ ("Data_Metrics", ["Metrics.csv"; "*metrics*.csv"]);
    ("Data_Declines", ["Decline.csv"; "*decline*.csv"]);
    ("Data_Fraud", ["Fraud.csv"; "*fraud*.csv"]);
    ("Data_Usage", ["Usage.csv"; "*usage*.csv"]);
    ("Data_Merchant", ["Merchant.csv"; "*merchant*.csv"]) ]%string.

Definition CSV_CANDIDATES : list (string * list string) :=
  [ ("Data_Metrics", ["Metrics.csv"; "BANCONTACT_metrics*.csv"; "*metrics*.csv"]);
    ("Data_Declines", ["Decline.csv"; "BANCONTACT_DECLINE*.csv"; "*decline*.csv"]);
    ("Data_Usage", ["Usage.csv"; "BANCONTACT_USAGE*.csv"; "*usage*.csv"]);
    ("Data_Merchant", ["Merchant.csv"; "BANCONTACT_merchant*.csv"; "*merchant*.csv"]) ]%string.

Definition CSV_MAP : list (string * string) :=
  [ ("Data_Metrics", "Metrics.csv"); ("Data_Declines", "Decline.csv");
    ("Data_Fraud", "Fraud.csv"); ("Data_Usage", "Usage.csv");
    ("Data_Merchant", "Merchant.csv") ]%string.

(** The sheets with a CSV, and the sheets without. *)
Definition resolved (w : World) (table : list (string * list string))
  : list (string * Path) :=
  omap (fun kp => match resolve_csv w kp.2 with
                  | Some p => Some (kp.1, p)
                  | None => None
                  end) table.

Definition missing (w : World) (table : list (string * list string))
  : list string :=
  omap (fun kp => match resolve_csv w kp.2 with
                  | Some _ => None
                  | None => Some kp.1
                  end) table.

(** [set_reporting_month_on_workbook(wb)]: every sheet but the [Data_*] and
    the glossary sheets is stamped. *)
Definition stamped (ws : Worksheet) : bool :=
  let lname := lower (title ws) in
  negb (is_prefix (u "data_") lname) && negb (contains (u "glossary") lname).

Definition set_reporting_month_on_workbook (wb : Workbook) : Workbook :=
  (fun ws => if stamped ws then upsert_reporting_month ws prev_month_label else ws) <$> wb.

(** The [Data_*] refresh loop. *)
Definition refresh_data (files : list (string * Path)) (wb : Workbook) : Workbook :=
  foldl (fun wb kp => write_dataframe_to_sheet wb (u kp.1) (read_csv_robust kp.2)) wb files.

Definition read_events (files : list (string * Path)) : list event :=
  (fun kp => ReadCsv kp.1) <$> files.

(** [main()] of [refresh_applepay_belfius.py]. *)
Definition main_belfius (no_ready : bool) (w : World)
  : World * list event * outcome :=
  let found := resolved w CSV_PATTERNS in
  let log1 := (fun k => LogError k) <$> missing w CSV_PATTERNS in
  match missing w CSV_PATTERNS with
  | _ :: _ => (w, log1 ++ [LogError "Aborting: missing CSVs"%string], Returned 1)
  | [] =>
      match workbook w with
      | None => (w, log1 ++ [LogError "Workbook not found"%string], Returned 1)
      | Some file =>
          if negb (loadable w) then
            (w, log1 ++ [LoadWorkbook; LogError "Failed to open workbook"%string], Returned 2)
          else
            let wb := refresh_data found file in
            let wb := wire_visible_sheets wb in
            let wb := set_reporting_month_on_workbook wb in
            let ev := log1 ++ [LoadWorkbook] ++ read_events found in
            if negb (writable w) then
              (w, ev ++ [SaveWorkbook; LogError "Close the workbook in Excel and run again."%string], Returned 2)
            else
              let w1 := save_workbook wb w in
              if no_ready then (w1, ev ++ [SaveWorkbook], Returned 0)
              else
                (save_ready (ready_values_only wb) w1,
                 ev ++ [SaveWorkbook; LoadWorkbook; SaveReady], Returned 0)
      end
  end.

(** [main()] of [refresh_bancontact.py]. *)
Definition main_bancontact (w : World) : World * list event * outcome :=
  let found := resolved w CSV_CANDIDATES in
  match missing w CSV_CANDIDATES with
  | _ :: _ => (w, [LogError "ERROR: Missing CSVs"%string], SysExit 1)
  | [] =>
      match workbook w with
      | None => (w, [LogError "ERROR: Excel file not found"%string], SysExit 1)
      | Some file =>
          if negb (loadable w) then
            (w, [LoadWorkbook; LogError "ERROR: Failed to open workbook"%string], SysExit 1)
          else
            let wb := refresh_data found file in
            let wb := ensure_report_formulas_and_cosmetics wb in
            let ev := [LoadWorkbook] ++ read_events found in
            if negb (writable w) then
              (w, ev ++ [SaveWorkbook; LogError "ERROR: Close the workbook in Excel and run again."%string], SysExit 1)
            else
              (save_ready (ready_values_only wb) (save_workbook wb w),
               ev ++ [SaveWorkbook; LoadWorkbook; SaveReady], Returned 0)
      end
  end.

(** [main()] of [refresh_applepay_belfius_v2.py]: the CSVs are looked up by
    their exact names. *)
Definition found_v2 (w : World) : list (string * Path) :=
  omap (fun kn => match exists_csv w kn.2 with
                  | Some p => Some (kn.1, p)
                  | None => None
                  end) CSV_MAP.

Definition missing_v2 (w : World) : list string :=
  omap (fun kn => match exists_csv w kn.2 with
                  | Some _ => None
                  | None => Some kn.2
                  end) CSV_MAP.

Definition main_v2 (w : World) : World * list event * outcome :=
  match missing_v2 w with
  | _ :: _ => (w, [LogError "ERROR: Missing CSV files"%string], SysExit 1)
  | [] =>
      match workbook w with
      | None => (w, [LogError "ERROR: Excel file not found"%string], SysExit 1)
      | Some file =>
          if negb (loadable w) then (w, [LoadWorkbook], Uncaught)
          else
            let wb := refresh_data (found_v2 w) file in
            let wb := ensure_report_formulas_and_cosmetics wb in
            let ev := [LoadWorkbook] ++ read_events (found_v2 w) in
            if negb (writable w) then
              (w, ev ++ [SaveWorkbook; LogError "ERROR: Close the workbook in Excel and run again."%string], SysExit 1)
            else
              (save_ready (ready_values_only wb) (save_workbook wb w),
               ev ++ [SaveWorkbook; LoadWorkbook; SaveReady], Returned 0)
      end
  end.

(** The events that touch a workbook or a sheet. *)
Definition touches_workbook (e : event) : bool :=
  match e with
  | LoadWorkbook | ReadCsv _ | SaveWorkbook | SaveReady => true
  | LogError _ => false
  end.

End Orchestration.
End Main.

(* ===================================================================== *)
(** * Properties of the numeric normaliser *)
(* ===================================================================== *)

Module ToNumFacts.
Import PyStr PyFloat ToNum.

Definition finite (x : float) : bool := PrimFloat.is_finite x.

(** ** Text helpers *)

Lemma rstrip_cons_nonspace c s :
  isspace c = false -> rstrip (c :: s) = c :: rstrip s.
Proof.
  intros Hc. simpl. destruct (rstrip s); [now rewrite Hc | reflexivity].
Qed.

Lemma lstrip_cons_nonspace c s :
  isspace c = false -> lstrip (c :: s) = c :: s.
Proof. intros Hc. simpl. now rewrite Hc. Qed.

Lemma strip_cons_nonspace c s :
  isspace c = false -> strip (c :: s) = c :: rstrip s.
Proof.
  intros Hc. unfold strip. rewrite rstrip_cons_nonspace by assumption.
  now apply lstrip_cons_nonspace.
Qed.

Lemma in_replace c old new s :
  In c (replace old new s) <->
  exists x, In x s /\ In c (if (x =? old)%N then new else [x]).
Proof. unfold replace. apply in_flat_map. Qed.

Lemma count_pos_in c s : (0 < count c s)%nat <-> In c s.
Proof.
  unfold count. induction s as [|x t IH]; simpl.
  - split; [lia | tauto].
  - destruct (N.eqb_spec c x) as [->|Hne]; simpl.
    + split; [auto | lia].
    + rewrite IH. split; [auto | intros [H|H]; congruence].
Qed.

Lemma count_zero_not_in c s : count c s = 0%nat <-> ~ In c s.
Proof. rewrite <- count_pos_in. lia. Qed.

(** ** Totality on everything but huge integers *)

Lemma finish_finite neg pct s : finite (finish neg pct s) = true.
Proof.
  unfold finish. destruct (py_float s) as [x|]; [|reflexivity].
  set (y := if pct then _ else _).
  destruct (isnan y || isinf y) eqn:E; [reflexivity|].
  unfold finite, PrimFloat.is_finite. unfold isnan, isinf in E. now rewrite E.
Qed.

Lemma to_num_str_finite s : finite (to_num_str s) = true.
Proof.
  unfold to_num_str. destruct (strip s); [reflexivity | apply finish_finite].
Qed.

Lemma to_num_str_blank s : strip s = [] -> to_num_str s = 0%float.
Proof. unfold to_num_str. now intros ->. Qed.

(** Every input that is not an [int] is normalised to a finite float. *)
Lemma to_num_total_but_int v :
  (forall n, v <> VInt n) ->
  exists x, to_num v = Ok x /\ finite x = true.
Proof.
  intros Hv. destruct v as [|b|n|x|s]; simpl.
  - now exists 0%float.
  - destruct b; eexists; split; reflexivity.
  - now destruct (Hv n).
  - destruct (isnan x || isinf x) eqn:E.
    + now exists 0%float.
    + exists x. split; [reflexivity|].
      unfold finite, PrimFloat.is_finite. unfold isnan, isinf in E. now rewrite E.
  - eexists. split; [reflexivity | apply to_num_str_finite].
Qed.

(** C1.  [to_num] is not total on [int]: the conversion [float(v)] of the
    numeric branch sits outside the [try] block, and for an integer beyond the
    binary64 range, such as [10**400], it raises [OverflowError] instead of
    returning a float. *)
Theorem to_num_huge_int_raises :
  to_num (VInt (10 ^ 400)) = Raise OverflowError.
Proof. vm_compute. reflexivity. Qed.

Example to_num_small_int : to_num (VInt (-7)) = Ok (-7)%float.
Proof. vm_compute. reflexivity. Qed.

Example to_num_largest_int :
  to_num (VInt (2 ^ 1024 - 2 ^ 970 - 1)) = Ok 0x1.fffffffffffffp+1023%float.
Proof. vm_compute. reflexivity. Qed.

Example to_num_text_samples :
  List.map (fun s => to_num (VStr (u s)))
    ["1e5"; "1_000"; "1__0"; " 7 "; "1."; ".5"; "."; "1e"; "inf"; "nan";
     "1e400"; "1.234,56"; "1,2,3"; "(5"; "()"; "abc"]%string
  = List.map Ok
    [100000; 1000; 0; 7; 1; 0.5; 0; 0; 0; 0;
     0; 1.23456; 0; 0; 0; 0]%float.
Proof. vm_compute. reflexivity. Qed.

(** The rest of C1 holds: [None], empty and blank text give [0.0], NaN and
    infinite floats give [0.0], and text that does not parse gives [0.0]. *)
Lemma to_num_zero_cases :
  to_num VNone = Ok 0%float /\
  (forall s, strip s = [] -> to_num (VStr s) = Ok 0%float) /\
  (forall x, isnan x || isinf x = true -> to_num (VFloat x) = Ok 0%float) /\
  (forall s neg pct, py_float s = None -> finish neg pct s = 0%float).
Proof.
  repeat split.
  - intros s Hs. simpl. now rewrite to_num_str_blank.
  - intros x Hx. simpl. now rewrite Hx.
  - intros s neg pct Hs. unfold finish. now rewrite Hs.
Qed.

(** ** The decimal separator *)

(** C2.  After cleaning, a text with a comma and no dot has its commas turned
    into dots, any other text has its commas removed; and the five sample
    inputs of the specification normalise to the stated values. *)
Theorem to_num_decimal_separator :
  (forall s, In COMMA s -> ~ In DOT s ->
             fix_separators s = replace COMMA [DOT] s) /\
  (forall s, ~ In COMMA s \/ In DOT s ->
             fix_separators s = replace COMMA [] s) /\
  (forall v, strip v <> [] ->
     let s := strip v in
     let neg := startswith LPAREN s && endswith RPAREN s in
     let body := if neg then slice_1_m1 s else s in
     to_num (VStr v) =
       Ok (finish neg (mem PERCENT body) (fix_separators (clean body)))) /\
  to_num (VStr (u "1 234,56")) = Ok 1234.56%float /\
  to_num (VStr (u "1,234.56")) = Ok 1234.56%float /\
  to_num (VStr (u "(123)")) = Ok (-123.0)%float /\
  to_num (VStr (u "12%")) = Ok 0.12%float /\
  to_num (VStr (EURO :: u "1,234.56")) = Ok 1234.56%float.
Proof.
  split; [|split; [|split]].
  - intros s Hc Hd. unfold fix_separators.
    apply count_pos_in in Hc. apply count_zero_not_in in Hd.
    apply Nat.ltb_lt in Hc. rewrite Hc, Hd. reflexivity.
  - intros s H. unfold fix_separators.
    destruct H as [H|H].
    + apply count_zero_not_in in H. rewrite H. reflexivity.
    + apply count_pos_in in H.
      destruct (count DOT s) as [|k] eqn:E; [lia|].
      now rewrite andb_false_r.
  - intros v Hv s neg body. simpl. f_equal. unfold to_num_str.
    fold s. destruct s as [|c t] eqn:Es; [contradiction|]. reflexivity.
  - repeat split; vm_compute; reflexivity.
Qed.

Lemma to_num_decimal_separator_witness :
  In COMMA (u "1234,56") /\ ~ In DOT (u "1234,56") /\
  fix_separators (u "1234,56") = replace COMMA [DOT] (u "1234,56").
Proof.
  assert (Hc : In COMMA (u "1234,56")) by (vm_compute; tauto).
  assert (Hd : ~ In DOT (u "1234,56")).
  { vm_compute. intros H. repeat (destruct H as [H|H]; [discriminate|]). exact H. }
  split; [exact Hc | split; [exact Hd |]].
  exact (proj1 to_num_decimal_separator _ Hc Hd).
Defined.

(** ** Currency symbols and blanks *)

Lemma clean_euro s : clean (EURO :: s) = clean s.
Proof. reflexivity. Qed.

Lemma clean_free s c :
  In c (clean s) ->
  c <> PERCENT /\ c <> EURO /\ c <> NBSP /\ c <> SPACE.
Proof.
  unfold clean. intros H.
  apply in_replace in H as (x1 & H1 & Hc1).
  apply in_replace in H1 as (x2 & H2 & Hc2).
  apply in_replace in H2 as (x3 & H3 & Hc3).
  apply in_replace in H3 as (x4 & _ & Hc4).
  destruct (N.eqb_spec x1 SPACE) as [|n1]; [destruct Hc1|].
  destruct Hc1 as [<-|[]].
  destruct (N.eqb_spec x2 NBSP) as [|n2].
  - destruct Hc2 as [<-|[]]. now destruct n1.
  - destruct Hc2 as [<-|[]].
    destruct (N.eqb_spec x3 EURO) as [|n3]; [destruct Hc3|].
    destruct Hc3 as [<-|[]].
    destruct (N.eqb_spec x4 PERCENT) as [|n4]; [destruct Hc4|].
    destruct Hc4 as [<-|[]]. auto.
Qed.

(** C3, as the code has it.  The only currency symbol that is removed is the
    euro sign: cleaning leaves no percent sign, euro sign, non-breaking space
    or blank, and a token that starts neither with white space nor with an
    opening parenthesis normalises to the same value with and without a
    leading euro sign. *)
Theorem to_num_euro_prefix :
  (forall s c, In c (clean s) ->
     c <> PERCENT /\ c <> EURO /\ c <> NBSP /\ c <> SPACE) /\
  (forall s,
     (forall c, head s = Some c -> isspace c = false) ->
     startswith LPAREN s = false ->
     to_num (VStr (EURO :: s)) = to_num (VStr s)).
Proof.
  split; [exact clean_free|].
  intros s Hsp Hpar. destruct s as [|c t].
  - vm_compute. reflexivity.
  - specialize (Hsp c eq_refl). simpl in Hpar. simpl. f_equal.
    unfold to_num_str.
    rewrite (strip_cons_nonspace EURO) by reflexivity.
    rewrite (rstrip_cons_nonspace c) by assumption.
    rewrite (strip_cons_nonspace c) by assumption.
    cbn [startswith]. rewrite Hpar.
    change ((EURO =? LPAREN)%N) with false. cbn [andb].
    change (mem PERCENT (EURO :: c :: rstrip t)) with (mem PERCENT (c :: rstrip t)).
    rewrite clean_euro. reflexivity.
Qed.

Lemma to_num_euro_prefix_witness :
  to_num (VStr (EURO :: u "1,234.56")) = to_num (VStr (u "1,234.56")).
Proof.
  apply (proj2 to_num_euro_prefix (u "1,234.56")).
  - intros c Hc. vm_compute in Hc. injection Hc as <-. reflexivity.
  - reflexivity.
Defined.

(** Counterexample to C3 as the specification words it ("any currency
    symbol"): a dollar sign is not removed, so a dollar-prefixed amount does
    not parse and normalises to [0.0]. *)
Lemma to_num_dollar_prefix_differs :
  to_num (VStr (u "$5")) = Ok 0%float /\
  to_num (VStr (u "5")) = Ok 5%float /\
  to_num (VStr (u "$5")) <> to_num (VStr (u "5")).
Proof.
  assert (H1 : to_num (VStr (u "$5")) = Ok 0%float) by (vm_compute; reflexivity).
  assert (H2 : to_num (VStr (u "5")) = Ok 5%float) by (vm_compute; reflexivity).
  split; [exact H1 | split; [exact H2 |]].
  rewrite H1, H2. intros H.
  apply (f_equal (fun r => match r with
                           | Ok x => PrimFloat.is_zero x
                           | Raise _ => false
                           end)) in H.
  vm_compute in H. discriminate.
Qed.

End ToNumFacts.

(* ===================================================================== *)
(** * Properties of worksheets *)
(* ===================================================================== *)

Module SheetFacts.
Import PyStr PyFloat ToNum Sheet.

(** Two sheets are the same to a reader when they agree on the title, the
    merged ranges, the visibility and the value of every cell.  (Cells that
    [ws.cell] created and left empty make no difference.) *)
Definition same_sheet (a b : Worksheet) : Prop :=
  title a = title b /\ merged_cells a = merged_cells b /\
  sheet_state a = sheet_state b /\ forall p, cell_value a p = cell_value b p.

(** No two merged ranges of the list share a cell. *)
Definition overlap (a b : CellRange) : bool :=
  ((min_row a <=? max_row b) && (min_row b <=? max_row a) &&
   (min_col a <=? max_col b) && (min_col b <=? max_col a))%positive.

Fixpoint ranges_disjoint (l : list CellRange) : bool :=
  match l with
  | [] => true
  | mr :: rest => forallb (fun mr' => negb (overlap mr mr')) rest && ranges_disjoint rest
  end.

Lemma same_sheet_refl ws : same_sheet ws ws.
Proof. repeat split. Qed.

Lemma same_sheet_sym a b : same_sheet a b -> same_sheet b a.
Proof. intros (?&?&?&?). repeat split; congruence. Qed.

Lemma same_sheet_trans a b c : same_sheet a b -> same_sheet b c -> same_sheet a c.
Proof.
  intros (?&?&?&Hab) (?&?&?&Hbc).
  split; [congruence|]. split; [congruence|]. split; [congruence|].
  intros p. now rewrite Hab, Hbc.
Qed.

Lemma cell_value_cell p q ws : cell_value (cell p ws) q = cell_value ws q.
Proof.
  unfold cell, cell_value. destruct (cells ws !! p) eqn:E; [reflexivity|].
  simpl. destruct (decide (p = q)) as [->|Hne].
  - now rewrite lookup_insert_eq, E.
  - now rewrite lookup_insert_ne.
Qed.

Lemma same_sheet_cell p ws : same_sheet (cell p ws) ws.
Proof.
  repeat split; try (unfold cell; destruct (cells ws !! p); reflexivity).
  intros q. apply cell_value_cell.
Qed.

Lemma cell_value_set_value p v q ws :
  cell_value (set_value p v ws) q = if decide (p = q) then v else cell_value ws q.
Proof.
  unfold set_value, cell_value. simpl. destruct (decide (p = q)) as [->|Hne].
  - now rewrite lookup_insert_eq.
  - now rewrite lookup_insert_ne.
Qed.

Lemma same_sheet_set_value p v a b :
  same_sheet a b -> same_sheet (set_value p v a) (set_value p v b).
Proof.
  intros (?&?&?&H). repeat split; try assumption.
  intros q. rewrite !cell_value_set_value. now rewrite H.
Qed.

Lemma same_sheet_set_value_twice p v ws :
  same_sheet (set_value p v (set_value p v ws)) (set_value p v ws).
Proof.
  repeat split. intros q. rewrite !cell_value_set_value.
  now destruct (decide (p = q)).
Qed.

Lemma anchor_coord_same a b p :
  merged_cells a = merged_cells b -> anchor_coord a p = anchor_coord b p.
Proof. unfold anchor_coord. now intros ->. Qed.

Lemma anchor_coord_set_value a v ws p :
  anchor_coord (set_value a v ws) p = anchor_coord ws p.
Proof. reflexivity. Qed.

Lemma anchor_cell_coord ws p : (_anchor_cell ws p).2 = anchor_coord ws p.
Proof.
  unfold _anchor_cell, anchor_coord.
  now destruct (List.find (in_cell_range p) (merged_cells ws)).
Qed.

Lemma anchor_cell_same ws p : same_sheet (_anchor_cell ws p).1 ws.
Proof.
  unfold _anchor_cell.
  destruct (List.find (in_cell_range p) (merged_cells ws)); simpl.
  - apply same_sheet_cell.
  - apply same_sheet_refl.
Qed.

(** The anchor of a cell is the top-left corner of the first range that holds
    it, and lies in that range. *)
Lemma in_cell_range_spec p mr :
  in_cell_range p mr = true <->
  (min_row mr <= p.1 /\ p.1 <= max_row mr /\
   min_col mr <= p.2 /\ p.2 <= max_col mr)%positive.
Proof.
  unfold in_cell_range. rewrite !andb_true_iff, !Pos.leb_le. tauto.
Qed.

Lemma anchor_in_range p mr :
  in_cell_range p mr = true ->
  in_cell_range (min_row mr, min_col mr) mr = true.
Proof. rewrite !in_cell_range_spec. simpl. lia. Qed.

Lemma overlap_of_common p a b :
  in_cell_range p a = true -> in_cell_range p b = true -> overlap a b = true.
Proof.
  rewrite !in_cell_range_spec. unfold overlap.
  rewrite !andb_true_iff, !Pos.leb_le. lia.
Qed.

Lemma find_range_anchor l p mr :
  ranges_disjoint l = true ->
  List.find (in_cell_range p) l = Some mr ->
  List.find (in_cell_range (min_row mr, min_col mr)) l = Some mr.
Proof.
  induction l as [|x l IH]; simpl; [discriminate|].
  intros [Hx Hl]%andb_true_iff Hf.
  destruct (in_cell_range p x) eqn:Epx.
  - injection Hf as <-. now rewrite (anchor_in_range p x Epx).
  - destruct (in_cell_range (min_row mr, min_col mr) x) eqn:Eax.
    + exfalso. apply find_some in Hf as [Hin Hp].
      rewrite forallb_forall in Hx. specialize (Hx mr Hin).
      rewrite (overlap_of_common _ x mr Eax (anchor_in_range p mr Hp)) in Hx.
      discriminate.
    + now apply IH.
Qed.

(** On a sheet without overlapping merges an anchor is its own anchor. *)
Lemma anchor_coord_stable ws p :
  ranges_disjoint (merged_cells ws) = true ->
  anchor_coord ws (anchor_coord ws p) = anchor_coord ws p.
Proof.
  intros Hd.
  destruct (List.find (in_cell_range p) (merged_cells ws)) as [mr|] eqn:E.
  - assert (anchor_coord ws p = (min_row mr, min_col mr)) as ->
      by (unfold anchor_coord; now rewrite E).
    unfold anchor_coord. now rewrite (find_range_anchor _ _ _ Hd E).
  - assert (anchor_coord ws p = p) as ->
      by (unfold anchor_coord; now rewrite E).
    unfold anchor_coord. now rewrite E.
Qed.

(** The anchor never lies below or to the right of the cell. *)
Lemma anchor_coord_le ws p :
  ((anchor_coord ws p).1 <= p.1 /\ (anchor_coord ws p).2 <= p.2)%positive.
Proof.
  unfold anchor_coord.
  destruct (List.find (in_cell_range p) (merged_cells ws)) as [mr|] eqn:E.
  - apply find_some in E as [_ E]. apply in_cell_range_spec in E. simpl. lia.
  - lia.
Qed.

(** ** The used range *)

Lemma foldr_max_ge (l : list positive) x :
  In x l -> (x <= foldr Pos.max 1 l)%positive.
Proof.
  induction l as [|y l IH]; simpl; [tauto|].
  intros [->|H]; [lia | specialize (IH H); lia].
Qed.

Lemma cell_within_max ws p v :
  cells ws !! p = Some v ->
  (p.1 <= ws_max_row ws /\ p.2 <= ws_max_column ws)%positive.
Proof.
  intros H. apply elem_of_map_to_list in H.
  split; apply foldr_max_ge; apply list_elem_of_In.
  - apply (list_elem_of_fmap_2 (fun kv : coord * pyval => kv.1.1) _ (p, v) H).
  - apply (list_elem_of_fmap_2 (fun kv : coord * pyval => kv.1.2) _ (p, v) H).
Qed.

Lemma cell_value_outside ws p :
  (ws_max_row ws < p.1 \/ ws_max_column ws < p.2)%positive ->
  cell_value ws p = VNone.
Proof.
  intros H. unfold cell_value.
  destruct (cells ws !! p) as [v|] eqn:E; [|reflexivity].
  apply cell_within_max in E. lia.
Qed.

End SheetFacts.

(* ===================================================================== *)
(** * Properties of the Reporting Month stamp *)
(* ===================================================================== *)

Module ReportingMonthFacts.
Import PyStr PyFloat ToNum Sheet ReportingMonth SheetFacts.

(** ** What the scan looks at, and what the update writes *)

(** The cells of rows [rs] and columns [cs] in scan order: row by row, each
    row from left to right. *)
Definition row_cells (r : positive) (cs : list positive) : list coord :=
  pair r <$> cs.

Definition grid (rs cs : list positive) : list coord :=
  List.flat_map (fun r => row_cells r cs) rs.

(** The search window: rows 1..10, columns 1..30. *)
Definition window : list coord := grid (pos_range 10) (pos_range 30).

Definition labelled (ws : Worksheet) (p : coord) : bool :=
  is_label (cell_value ws p).

(** The first cell of the window, in scan order, that holds the label. *)
Definition first_label (ws : Worksheet) : option coord :=
  List.find (labelled ws) window.

Definition has_colon (v : pyval) : bool :=
  match v with
  | VStr val => mem COLON val
  | _ => false
  end.

(** The cell that is written, before merge resolution, and the text. *)
Definition target_at (ws : Worksheet) (p : coord) : coord :=
  if has_colon (cell_value ws p) then p else (p.1, (p.2 + 1)%positive).

Definition text_at (ws : Worksheet) (month_label : str) (p : coord) : pyval :=
  if has_colon (cell_value ws p) then VStr (full_label month_label)
  else VStr month_label.

Definition target_cell (ws : Worksheet) : coord :=
  match first_label ws with
  | Some p => target_at ws p
  | None => (2, 1)%positive
  end.

Definition written_text (ws : Worksheet) (month_label : str) : pyval :=
  match first_label ws with
  | Some p => text_at ws month_label p
  | None => VStr (full_label month_label)
  end.

(** The one assignment a matched cell [p] leads to. *)
Definition write_at (ws : Worksheet) (month_label : str) (p : coord) : Worksheet :=
  set_value (anchor_coord ws (target_at ws p)) (text_at ws month_label p) ws.

(** The one assignment of a call. *)
Definition stamp (ws : Worksheet) (month_label : str) : Worksheet :=
  set_value (anchor_coord ws (target_cell ws)) (written_text ws month_label) ws.

(** Scan order on cell addresses. *)
Definition before (q p : coord) : Prop :=
  (q.1 < p.1 \/ (q.1 = p.1 /\ q.2 < p.2))%positive.

Definition in_window (p : coord) : Prop :=
  (p.1 <= 10 /\ p.2 <= 30)%positive.

(** ** Text lemmas *)

Lemma mem_cons c x s : mem c (x :: s) = (c =? x)%N || mem c s.
Proof. reflexivity. Qed.

Lemma mem_app c s t : mem c (s ++ t) = mem c s || mem c t.
Proof. unfold mem. apply existsb_app. Qed.

Lemma neq_of_isspace c x :
  isspace c = false -> isspace x = true -> (c =? x)%N = false.
Proof. intros Hc Hx. apply N.eqb_neq. intros ->. congruence. Qed.

Lemma mem_lstrip c s : isspace c = false -> mem c (lstrip s) = mem c s.
Proof.
  intros Hc. induction s as [|x t IH]; [reflexivity|].
  simpl lstrip. destruct (isspace x) eqn:Ex; [|reflexivity].
  rewrite mem_cons, IH, (neq_of_isspace c x Hc Ex). reflexivity.
Qed.

Lemma mem_rstrip c s : isspace c = false -> mem c (rstrip s) = mem c s.
Proof.
  intros Hc. induction s as [|x t IH]; [reflexivity|].
  simpl rstrip. rewrite mem_cons, <- IH.
  destruct (rstrip t) as [|y t'].
  - destruct (isspace x) eqn:Ex.
    + now rewrite (neq_of_isspace c x Hc Ex).
    + reflexivity.
  - reflexivity.
Qed.

Lemma mem_strip c s : isspace c = false -> mem c (strip s) = mem c s.
Proof.
  intros Hc. unfold strip. now rewrite mem_lstrip, mem_rstrip.
Qed.

Lemma is_prefix_app p s : is_prefix p (p ++ s) = true.
Proof.
  induction p as [|a p IH]; [reflexivity|]. simpl.
  now rewrite N.eqb_refl, IH.
Qed.

Lemma contains_prefix p s : contains p (p ++ s) = true.
Proof.
  destruct (p ++ s) eqn:E; simpl; rewrite <- E, is_prefix_app; reflexivity.
Qed.

Lemma full_label_is_label ml : is_label (VStr (full_label ml)) = true.
Proof.
  unfold is_label, full_label, lower. rewrite List.map_app.
  change (List.map lower_char (u "Reporting Month: ")) with (NEEDLE ++ u ": ").
  rewrite <- List.app_assoc. apply contains_prefix.
Qed.

Lemma full_label_has_colon ml : has_colon (VStr (full_label ml)) = true.
Proof. unfold has_colon, full_label. rewrite mem_app. reflexivity. Qed.

(** ** [find] on the scanned lists *)

Lemma find_ext {A} (f g : A -> bool) l :
  (forall x, In x l -> f x = g x) -> List.find f l = List.find g l.
Proof.
  induction l as [|x l IH]; [reflexivity|]. intros H. simpl.
  rewrite <- (H x (or_introl eq_refl)).
  destruct (f x); [reflexivity|]. apply IH. intros y Hy. apply H. now right.
Qed.

Lemma find_app {A} (f : A -> bool) l1 l2 :
  List.find f (l1 ++ l2) =
  match List.find f l1 with
  | Some x => Some x
  | None => List.find f l2
  end.
Proof.
  induction l1 as [|x l IH]; [reflexivity|]. simpl.
  destruct (f x); [reflexivity | exact IH].
Qed.

Lemma find_all_false {A} (f : A -> bool) l :
  (forall x, In x l -> f x = false) -> List.find f l = None.
Proof.
  induction l as [|x l IH]; [reflexivity|]. intros H. simpl.
  rewrite (H x (or_introl eq_refl)). apply IH. intros y Hy. apply H. now right.
Qed.

Lemma labelled_same a b p : same_sheet a b -> labelled a p = labelled b p.
Proof. intros (_&_&_&H). unfold labelled. now rewrite H. Qed.

Lemma write_at_same a b ml p :
  same_sheet a b -> same_sheet (write_at a ml p) (write_at b ml p).
Proof.
  intros Hab. pose proof Hab as (_&Hm&_&Hv). unfold write_at, target_at, text_at.
  rewrite Hv, (anchor_coord_same a b _ Hm). now apply same_sheet_set_value.
Qed.

(** ** One visit, one row, all rows *)

Lemma visit_spec ml ws r c :
  if labelled ws (r, c)
  then (visit ml ws r c).2 = true /\
       same_sheet (visit ml ws r c).1 (write_at ws ml (r, c))
  else (visit ml ws r c).2 = false /\ same_sheet (visit ml ws r c).1 ws.
Proof.
  unfold labelled, visit, write_at, target_at, text_at.
  rewrite cell_value_cell.
  pose proof (same_sheet_cell (r, c) ws) as H0.
  destruct (cell_value ws (r, c)) as [| | | |val]; simpl; try (split; [reflexivity | exact H0]).
  destruct (contains NEEDLE (lower val)); [|split; [reflexivity | exact H0]].
  pose proof (anchor_cell_coord (cell (r, c) ws) (r, c)) as Ha.
  pose proof (anchor_cell_same (cell (r, c) ws) (r, c)) as Hs.
  destruct (_anchor_cell (cell (r, c) ws) (r, c)) as [ws1 a]. simpl in Ha, Hs.
  assert (H1 : same_sheet ws1 ws) by (eapply same_sheet_trans; eassumption).
  rewrite (mem_strip COLON val eq_refl).
  destruct (mem COLON val).
  - split; [reflexivity|]. subst a.
    rewrite (anchor_coord_same _ ws _ (proj1 (proj2 H0))).
    now apply same_sheet_set_value.
  - pose proof (same_sheet_cell (r, (c + 1)%positive) ws1) as H2.
    pose proof (anchor_cell_coord (cell (r, (c + 1)%positive) ws1) (r, (c + 1)%positive)) as Hb.
    pose proof (anchor_cell_same (cell (r, (c + 1)%positive) ws1) (r, (c + 1)%positive)) as Ht.
    destruct (_anchor_cell (cell (r, (c + 1)%positive) ws1) (r, (c + 1)%positive)) as [ws2 b].
    simpl in Hb, Ht. split; [reflexivity|]. subst b.
    assert (H3 : same_sheet ws2 ws).
    { eapply same_sheet_trans; [exact Ht|]. eapply same_sheet_trans; eassumption. }
    assert (Hm : merged_cells (cell (r, (c + 1)%positive) ws1) = merged_cells ws).
    { transitivity (merged_cells ws1); [apply H2 | apply H1]. }
    rewrite (anchor_coord_same _ ws _ Hm).
    now apply same_sheet_set_value.
Qed.

Lemma scan_cols_spec ml r cs : forall ws,
  match List.find (labelled ws) (row_cells r cs) with
  | Some p => (scan_cols ml ws r cs).2 = true /\
              same_sheet (scan_cols ml ws r cs).1 (write_at ws ml p)
  | None => (scan_cols ml ws r cs).2 = false /\
            same_sheet (scan_cols ml ws r cs).1 ws
  end.
Proof.
  induction cs as [|c cs IH]; intros ws; simpl.
  - split; [reflexivity | apply same_sheet_refl].
  - pose proof (visit_spec ml ws r c) as Hv.
    destruct (visit ml ws r c) as [ws1 ret]. simpl in Hv.
    destruct (labelled ws (r, c)).
    + destruct Hv as [-> Hs]. simpl. now split.
    + destruct Hv as [-> Hs]. specialize (IH ws1).
      rewrite (find_ext (labelled ws1) (labelled ws)) in IH
        by (intros; now apply labelled_same).
      fold (row_cells r cs).
      destruct (List.find (labelled ws) (row_cells r cs)) as [p|].
      * destruct IH as [E H]. split; [exact E|].
        eapply same_sheet_trans; [exact H | now apply write_at_same].
      * destruct IH as [E H]. split; [exact E|].
        eapply same_sheet_trans; eassumption.
Qed.

Lemma scan_rows_spec ml cs rs : forall ws,
  match List.find (labelled ws) (grid rs cs) with
  | Some p => (scan_rows ml ws rs cs).2 = true /\
              same_sheet (scan_rows ml ws rs cs).1 (write_at ws ml p)
  | None => (scan_rows ml ws rs cs).2 = false /\
            same_sheet (scan_rows ml ws rs cs).1 ws
  end.
Proof.
  induction rs as [|r rs IH]; intros ws; simpl.
  - split; [reflexivity | apply same_sheet_refl].
  - rewrite find_app.
    pose proof (scan_cols_spec ml r cs ws) as Hc.
    destruct (scan_cols ml ws r cs) as [ws1 ret]. simpl in Hc.
    destruct (List.find (labelled ws) (row_cells r cs)) as [p|].
    + destruct Hc as [-> Hs]. simpl. now split.
    + destruct Hc as [-> Hs]. specialize (IH ws1).
      rewrite (find_ext (labelled ws1) (labelled ws)) in IH
        by (intros; now apply labelled_same).
      fold (grid rs cs).
      destruct (List.find (labelled ws) (grid rs cs)) as [p|].
      * destruct IH as [E H]. split; [exact E|].
        eapply same_sheet_trans; [exact H | now apply write_at_same].
      * destruct IH as [E H]. split; [exact E|].
        eapply same_sheet_trans; eassumption.
Qed.

(** ** The scan order of the window *)

Lemma in_pos_range x n : In x (pos_range n) <-> (x <= n)%positive.
Proof.
  unfold pos_range. rewrite <- list_elem_of_In, list_elem_of_fmap. split.
  - intros (k & -> & Hk). apply list_elem_of_In, in_seq in Hk. lia.
  - intros H. exists (Pos.to_nat x). split; [now rewrite Pos2Nat.id|].
    apply list_elem_of_In, in_seq. lia.
Qed.

Lemma in_grid q n m :
  In q (grid (pos_range n) (pos_range m)) <-> (q.1 <= n /\ q.2 <= m)%positive.
Proof.
  unfold grid, row_cells. rewrite in_flat_map. split.
  - intros (r & Hr & Hq). apply list_elem_of_In, list_elem_of_fmap in Hq as (c & -> & Hc).
    apply list_elem_of_In in Hc. apply in_pos_range in Hr, Hc. now simpl.
  - intros [H1 H2]. exists q.1. split; [now apply in_pos_range|].
    apply list_elem_of_In, list_elem_of_fmap. exists q.2.
    split; [now destruct q | now apply list_elem_of_In, in_pos_range].
Qed.

Section Least.
Variable P : coord -> bool.

Lemma find_row_least r k : forall a, (1 <= a)%nat ->
  match List.find P (row_cells r (Pos.of_nat <$> seq a k)) with
  | Some p => p.1 = r /\ (a <= Pos.to_nat p.2 < a + k)%nat /\ P p = true /\
              forall c, (a <= Pos.to_nat c < Pos.to_nat p.2)%nat -> P (r, c) = false
  | None => forall c, (a <= Pos.to_nat c < a + k)%nat -> P (r, c) = false
  end.
Proof.
  induction k as [|k IH]; intros a Ha.
  - simpl. intros c Hc. lia.
  - change (row_cells r (Pos.of_nat <$> seq a (S k)))
      with ((r, Pos.of_nat a) :: row_cells r (Pos.of_nat <$> seq (S a) k)).
    cbn [List.find]. destruct (P (r, Pos.of_nat a)) eqn:E.
    + simpl. repeat split; try lia; assumption.
    + specialize (IH (S a) ltac:(lia)).
      destruct (List.find P (row_cells r (Pos.of_nat <$> seq (S a) k))) as [p|].
      * destruct IH as (H1 & H2 & H3 & H4). repeat split; try lia; try assumption.
        intros c Hc. destruct (Nat.eq_dec (Pos.to_nat c) a) as [Hca|Hca].
        -- rewrite <- Hca, Pos2Nat.id in E. exact E.
        -- apply H4. lia.
      * intros c Hc. destruct (Nat.eq_dec (Pos.to_nat c) a) as [Hca|Hca].
        -- rewrite <- Hca, Pos2Nat.id in E. exact E.
        -- apply IH. lia.
Qed.

Lemma find_rows_least m k : forall a, (1 <= a)%nat ->
  match List.find P (grid (Pos.of_nat <$> seq a k) (pos_range m)) with
  | Some p => (a <= Pos.to_nat p.1 < a + k)%nat /\ (p.2 <= m)%positive /\ P p = true /\
              forall q, (a <= Pos.to_nat q.1)%nat -> (q.2 <= m)%positive ->
                        before q p -> P q = false
  | None => forall q, (a <= Pos.to_nat q.1 < a + k)%nat -> (q.2 <= m)%positive ->
                      P q = false
  end.
Proof.
  induction k as [|k IH]; intros a Ha.
  - simpl. intros q Hq. lia.
  - change (grid (Pos.of_nat <$> seq a (S k)) (pos_range m))
      with (row_cells (Pos.of_nat a) (pos_range m)
            ++ grid (Pos.of_nat <$> seq (S a) k) (pos_range m)).
    rewrite find_app.
    pose proof (find_row_least (Pos.of_nat a) (Pos.to_nat m) 1 (le_n 1)) as Hr.
    fold (pos_range m) in Hr.
    destruct (List.find P (row_cells (Pos.of_nat a) (pos_range m))) as [p|].
    + destruct Hr as (H1 & H2 & H3 & H4). rewrite H1, Nat2Pos.id by lia.
      repeat split; try lia; try assumption.
      intros [q1 q2] Hq1 Hq2 [Hb|[Hb1 Hb2]]; simpl in *.
      * rewrite H1 in Hb. lia.
      * rewrite Hb1, H1. apply H4. lia.
    + specialize (IH (S a) ltac:(lia)).
      assert (Hrow : forall q, Pos.to_nat q.1 = a -> (q.2 <= m)%positive -> P q = false).
      { intros [q1 q2] Hq1 Hq2. simpl in *.
        replace q1 with (Pos.of_nat a) by (rewrite <- Hq1; apply Pos2Nat.id).
        apply Hr. lia. }
      destruct (List.find P (grid (Pos.of_nat <$> seq (S a) k) (pos_range m))) as [p|].
      * destruct IH as (H1 & H2 & H3 & H4). repeat split; try lia; try assumption.
        intros q Hq1 Hq2 Hb. destruct (Nat.eq_dec (Pos.to_nat q.1) a) as [Hqa|Hqa].
        -- now apply Hrow.
        -- apply H4; [lia | assumption | assumption].
      * intros q Hq1 Hq2. destruct (Nat.eq_dec (Pos.to_nat q.1) a) as [Hqa|Hqa].
        -- now apply Hrow.
        -- apply IH; [lia | assumption].
Qed.

(** [find] on a window returns its first cell, in scan order, that satisfies
    the test. *)
Lemma find_grid_least n m :
  match List.find P (grid (pos_range n) (pos_range m)) with
  | Some p => (p.1 <= n /\ p.2 <= m)%positive /\ P p = true /\
              forall q, (q.1 <= n /\ q.2 <= m)%positive -> before q p -> P q = false
  | None => forall q, (q.1 <= n /\ q.2 <= m)%positive -> P q = false
  end.
Proof.
  pose proof (find_rows_least m (Pos.to_nat n) 1 (le_n 1)) as H.
  fold (pos_range n) in H.
  destruct (List.find P (grid (pos_range n) (pos_range m))) as [p|].
  - destruct H as (H1 & H2 & H3 & H4). repeat split; try lia; try assumption.
    intros q [Hq1 Hq2] Hb. apply H4; [lia | assumption | assumption].
  - intros q [Hq1 Hq2]. apply H; [lia | assumption].
Qed.

Lemma find_grid_unique n m p :
  (p.1 <= n /\ p.2 <= m)%positive -> P p = true ->
  (forall q, (q.1 <= n /\ q.2 <= m)%positive -> before q p -> P q = false) ->
  List.find P (grid (pos_range n) (pos_range m)) = Some p.
Proof.
  intros Hp HP Hmin. pose proof (find_grid_least n m) as H.
  destruct (List.find P (grid (pos_range n) (pos_range m))) as [p'|].
  - destruct H as (Hp' & HP' & Hmin'). f_equal.
    destruct p as [r c], p' as [r' c']. simpl in *.
    destruct (Pos.compare_spec r' r) as [Er|Er|Er].
    + subst r'. destruct (Pos.compare_spec c' c) as [Ec|Ec|Ec].
      * now subst.
      * specialize (Hmin (r, c') ltac:(simpl; lia) ltac:(right; simpl; lia)). congruence.
      * specialize (Hmin' (r, c) ltac:(simpl; lia) ltac:(right; simpl; lia)). congruence.
    + specialize (Hmin (r', c') ltac:(simpl; lia) ltac:(left; simpl; lia)). congruence.
    + specialize (Hmin' (r, c) ltac:(simpl; lia) ltac:(left; simpl; lia)). congruence.
  - rewrite (H p Hp) in HP. discriminate.
Qed.

End Least.

(** The scan, cut at the used range, finds what a scan of the whole window
    finds: beyond the used range every cell is empty. *)
Lemma find_used_window ws :
  List.find (labelled ws)
    (grid (pos_range (Pos.min (ws_max_row ws) 10))
          (pos_range (Pos.min (ws_max_column ws) 30))) = first_label ws.
Proof.
  assert (Hout : forall q,
    ~ (q.1 <= Pos.min (ws_max_row ws) 10 /\ q.2 <= Pos.min (ws_max_column ws) 30)%positive ->
    in_window q -> labelled ws q = false).
  { intros q Hq [H1 H2]. unfold labelled. rewrite cell_value_outside; [reflexivity | lia]. }
  pose proof (find_grid_least (labelled ws)
                (Pos.min (ws_max_row ws) 10) (Pos.min (ws_max_column ws) 30)) as H.
  destruct (List.find _ _) as [p|]; symmetry.
  - destruct H as (Hp & HP & Hmin). apply find_grid_unique; [lia | assumption |].
    intros q Hq Hb.
    destruct (decide ((q.1 <= Pos.min (ws_max_row ws) 10 /\
                       q.2 <= Pos.min (ws_max_column ws) 30)%positive)) as [Hin|Hn].
    + now apply Hmin.
    + now apply Hout.
  - apply find_all_false. intros q Hq. apply in_grid in Hq.
    destruct (decide ((q.1 <= Pos.min (ws_max_row ws) 10 /\
                       q.2 <= Pos.min (ws_max_column ws) 30)%positive)) as [Hin|Hn].
    + now apply H.
    + now apply Hout.
Qed.

(** ** The update is one assignment *)

Lemma upsert_spec ws ml :
  same_sheet (upsert_reporting_month ws ml) (stamp ws ml).
Proof.
  unfold upsert_reporting_month, stamp, target_cell, written_text.
  pose proof (scan_rows_spec ml (pos_range (Pos.min (ws_max_column ws) 30))
                (pos_range (Pos.min (ws_max_row ws) 10)) ws) as H.
  rewrite find_used_window in H.
  destruct (scan_rows ml ws _ _) as [ws1 ret]. simpl in H.
  destruct (first_label ws) as [p|].
  - destruct H as [-> H]. exact H.
  - destruct H as [-> H].
    pose proof (same_sheet_cell (2, 1)%positive ws1) as H2.
    pose proof (anchor_cell_coord (cell (2, 1)%positive ws1) (2, 1)%positive) as Ha.
    pose proof (anchor_cell_same (cell (2, 1)%positive ws1) (2, 1)%positive) as Hs.
    destruct (_anchor_cell (cell (2, 1)%positive ws1) (2, 1)%positive) as [ws2 a].
    simpl in Ha, Hs. subst a.
    assert (H3 : same_sheet ws2 ws).
    { eapply same_sheet_trans; [exact Hs|]. eapply same_sheet_trans; eassumption. }
    assert (Hm : merged_cells (cell (2, 1)%positive ws1) = merged_cells ws).
    { transitivity (merged_cells ws1); [apply H2 | apply H]. }
    rewrite (anchor_coord_same _ ws _ Hm).
    now apply same_sheet_set_value.
Qed.

Lemma first_label_spec ws :
  match first_label ws with
  | Some p => in_window p /\ labelled ws p = true /\
              forall q, in_window q -> before q p -> labelled ws q = false
  | None => forall q, in_window q -> labelled ws q = false
  end.
Proof. apply (find_grid_least (labelled ws) 10 30). Qed.

Lemma first_label_unique ws p :
  in_window p -> labelled ws p = true ->
  (forall q, in_window q -> before q p -> labelled ws q = false) ->
  first_label ws = Some p.
Proof. apply (find_grid_unique (labelled ws) 10 30). Qed.

Lemma first_label_none ws :
  (forall q, in_window q -> labelled ws q = false) -> first_label ws = None.
Proof.
  intros H. apply find_all_false. intros q Hq. apply H. now apply in_grid in Hq.
Qed.

Lemma stamp_at ws ml p :
  first_label ws = Some p -> stamp ws ml = write_at ws ml p.
Proof.
  intros E. unfold stamp, write_at, target_cell, written_text. now rewrite E.
Qed.

Lemma stamp_none ws ml :
  first_label ws = None ->
  stamp ws ml = set_value (anchor_coord ws (2, 1)%positive) (VStr (full_label ml)) ws.
Proof.
  intros E. unfold stamp, target_cell, written_text. now rewrite E.
Qed.

Lemma cell_value_upsert ws ml q :
  cell_value (upsert_reporting_month ws ml) q =
  if decide (anchor_coord ws (target_cell ws) = q)
  then written_text ws ml else cell_value ws q.
Proof.
  destruct (upsert_spec ws ml) as (_&_&_&H). rewrite H.
  unfold stamp. apply cell_value_set_value.
Qed.

Lemma merged_cells_upsert ws ml :
  merged_cells (upsert_reporting_month ws ml) = merged_cells ws.
Proof. destruct (upsert_spec ws ml) as (_&H&_). exact H. Qed.

(** ** Sample sheets *)

Definition sheet_of (l : list (coord * pyval)) (merges : list CellRange) : Worksheet :=
  {| title := u "Metrics"; cells := list_to_map l;
     merged_cells := merges; sheet_state := Visible |}.

Definition SEPTEMBER : str := u "September 2025".

(** A2 holds label and month in one cell. *)
Definition same_cell_sheet : Worksheet :=
  sheet_of [((2, 1)%positive, VStr (u "Reporting Month: August 2025"))] [].

(** A2 holds the label, B2 the month. *)
Definition two_cell_sheet : Worksheet :=
  sheet_of [((2, 1)%positive, VStr (u "Reporting Month"));
            ((2, 2)%positive, VStr (u "August 2025"))] [].

(** A2 holds the label, without a colon, and is merged with B2. *)
Definition merged_label_sheet : Worksheet :=
  sheet_of [((2, 1)%positive, VStr (u "Reporting Month"))]
           [ {| min_row := 2; min_col := 1; max_row := 2; max_col := 2 |} ].

(** A2 holds the label; B1:B2 is merged, so the cell to the right of the
    label is anchored one row up. *)
Definition upward_merge_sheet : Worksheet :=
  sheet_of [((2, 1)%positive, VStr (u "Reporting Month"))]
           [ {| min_row := 1; min_col := 2; max_row := 2; max_col := 2 |} ].

(** Two merged ranges that share B1. *)
Definition overlapping_sheet : Worksheet :=
  sheet_of [((2, 2)%positive, VStr (u "Reporting Month: August 2025"))]
           [ {| min_row := 1; min_col := 1; max_row := 1; max_col := 2 |};
             {| min_row := 1; min_col := 2; max_row := 2; max_col := 2 |} ].

(** ** C8: running the update twice *)

Lemma before_irrefl p : ~ before p p.
Proof. unfold before. lia. Qed.

Lemma before_le_trans q a p :
  before q a -> (a.1 <= p.1 /\ a.2 <= p.2)%positive -> before q p.
Proof. unfold before. lia. Qed.

Lemma first_label_same a b : same_sheet a b -> first_label a = first_label b.
Proof.
  intros H. unfold first_label. apply find_ext. intros; now apply labelled_same.
Qed.

Lemma stamp_same a b ml : same_sheet a b -> same_sheet (stamp a ml) (stamp b ml).
Proof.
  intros H. pose proof (first_label_same a b H) as E.
  destruct (first_label b) as [p|] eqn:Eb.
  - rewrite (stamp_at a ml p E), (stamp_at b ml p Eb). now apply write_at_same.
  - rewrite (stamp_none a ml E), (stamp_none b ml Eb).
    rewrite (anchor_coord_same a b _ (proj1 (proj2 H))).
    now apply same_sheet_set_value.
Qed.

(** After the assignment of [v] at [a], a second call finds the same place
    and the same text. *)
Lemma restamp ws ml a v :
  let ws' := set_value a v ws in
  anchor_coord ws' (target_cell ws') = a ->
  written_text ws' ml = v ->
  same_sheet (stamp ws' ml) ws'.
Proof.
  intros ws' Ha Hv. unfold stamp. rewrite Ha, Hv.
  apply same_sheet_set_value_twice.
Qed.

Lemma stamp_twice ws ml :
  ranges_disjoint (merged_cells ws) = true ->
  (forall p, first_label ws = Some p -> has_colon (cell_value ws p) = false ->
             (anchor_coord ws (p.1, (p.2 + 1)%positive) <> p) /\
             is_label (VStr ml) = false) ->
  same_sheet (stamp (stamp ws ml) ml) (stamp ws ml).
Proof.
  intros Hd Hsep.
  pose proof (first_label_spec ws) as Hfirst.
  destruct (first_label ws) as [p|] eqn:E.
  - destruct Hfirst as (Hw & Hl & Hmin).
    rewrite (stamp_at ws ml p E). unfold write_at, target_at, text_at.
    destruct (has_colon (cell_value ws p)) eqn:Ec.
    + (* label and month in one cell *)
      set (a := anchor_coord ws p). set (v := VStr (full_label ml)).
      pose proof (anchor_coord_le ws p) as Hle. fold a in Hle.
      assert (Ef : first_label (set_value a v ws) = Some a).
      { apply first_label_unique.
        - unfold in_window in *. lia.
        - unfold labelled. rewrite cell_value_set_value.
          destruct (decide (a = a)); [apply full_label_is_label | congruence].
        - intros q Hq Hb. unfold labelled. rewrite cell_value_set_value.
          destruct (decide (a = q)) as [->|_]; [now apply before_irrefl in Hb|].
          apply Hmin; [assumption | now apply (before_le_trans q a p)]. }
      apply restamp.
      * unfold target_cell, target_at. rewrite Ef, cell_value_set_value.
        destruct (decide (a = a)); [|congruence].
        unfold v. rewrite full_label_has_colon.
        rewrite anchor_coord_set_value. now apply anchor_coord_stable.
      * unfold written_text, text_at. rewrite Ef, cell_value_set_value.
        destruct (decide (a = a)); [|congruence].
        unfold v. now rewrite full_label_has_colon.
    + (* label alone: the month goes to the right *)
      set (a := anchor_coord ws (p.1, (p.2 + 1)%positive)). set (v := VStr ml).
      destruct (Hsep p eq_refl Ec) as [Hne Hml]. fold a in Hne.
      assert (Ef : first_label (set_value a v ws) = Some p).
      { apply first_label_unique.
        - assumption.
        - unfold labelled. rewrite cell_value_set_value.
          destruct (decide (a = p)); [contradiction | exact Hl].
        - intros q Hq Hb. unfold labelled. rewrite cell_value_set_value.
          destruct (decide (a = q)) as [_|_]; [exact Hml | now apply Hmin]. }
      apply restamp.
      * unfold target_cell, target_at. rewrite Ef, cell_value_set_value.
        destruct (decide (a = p)); [contradiction|]. rewrite Ec. reflexivity.
      * unfold written_text, text_at. rewrite Ef, cell_value_set_value.
        destruct (decide (a = p)); [contradiction|]. now rewrite Ec.
  - (* no label: A2 *)
    rewrite (stamp_none ws ml E).
    set (a := anchor_coord ws (2, 1)%positive). set (v := VStr (full_label ml)).
    pose proof (anchor_coord_le ws (2, 1)%positive) as Hle. fold a in Hle. simpl in Hle.
    assert (Ef : first_label (set_value a v ws) = Some a).
    { apply first_label_unique.
      - unfold in_window. lia.
      - unfold labelled. rewrite cell_value_set_value.
        destruct (decide (a = a)); [apply full_label_is_label | congruence].
      - intros q Hq Hb. unfold labelled. rewrite cell_value_set_value.
        destruct (decide (a = q)) as [->|_]; [now apply before_irrefl in Hb|].
        now apply Hfirst. }
    apply restamp.
    * unfold target_cell, target_at. rewrite Ef, cell_value_set_value.
      destruct (decide (a = a)); [|congruence].
      unfold v. rewrite full_label_has_colon.
      rewrite anchor_coord_set_value. now apply anchor_coord_stable.
    * unfold written_text, text_at. rewrite Ef, cell_value_set_value.
      destruct (decide (a = a)); [|congruence].
      unfold v. now rewrite full_label_has_colon.
Qed.

(** C8, as the code has it.  On a sheet whose merged ranges do not overlap, a
    second call with the same month leaves every cell as the first call left
    it: always in the same-cell case and in the fallback to A2, and in the
    separate-cell case provided that the label cell is not the merge anchor
    of the cell to its right and that the month text does not itself contain
    the label. *)
Theorem upsert_idempotent ws ml :
  ranges_disjoint (merged_cells ws) = true ->
  (forall p, first_label ws = Some p -> has_colon (cell_value ws p) = false ->
             (anchor_coord ws (p.1, (p.2 + 1)%positive) <> p) /\
             is_label (VStr ml) = false) ->
  same_sheet
    (upsert_reporting_month (upsert_reporting_month ws ml) ml)
    (upsert_reporting_month ws ml).
Proof.
  intros Hd Hsep.
  pose proof (upsert_spec ws ml) as H1.
  pose proof (upsert_spec (upsert_reporting_month ws ml) ml) as H2.
  eapply same_sheet_trans; [exact H2|].
  eapply same_sheet_trans; [apply stamp_same; exact H1|].
  eapply same_sheet_trans; [now apply stamp_twice|].
  now apply same_sheet_sym.
Qed.

Lemma upsert_idempotent_witness :
  same_sheet
    (upsert_reporting_month (upsert_reporting_month two_cell_sheet SEPTEMBER) SEPTEMBER)
    (upsert_reporting_month two_cell_sheet SEPTEMBER).
Proof.
  apply (upsert_idempotent two_cell_sheet SEPTEMBER).
  - reflexivity.
  - intros p Hp _. vm_compute in Hp. injection Hp as <-.
    split; [vm_compute; discriminate | vm_compute; reflexivity].
Defined.

(** Counterexamples to C8 as the specification words it ("for every grid,
    label, and replacement").  (1) The label cell is merged
    with its right neighbour: the first call overwrites the label with the
    month, the second call no longer finds a label and writes the full text.
    (2) The month text contains the label and the cell to the right is
    anchored above the label: the second call finds the written text first.
    (3) Merged ranges overlap: the anchor of an anchor is another cell. *)
Lemma upsert_not_idempotent :
  ~ same_sheet
      (upsert_reporting_month (upsert_reporting_month merged_label_sheet SEPTEMBER) SEPTEMBER)
      (upsert_reporting_month merged_label_sheet SEPTEMBER) /\
  ~ same_sheet
      (upsert_reporting_month
         (upsert_reporting_month upward_merge_sheet (full_label SEPTEMBER))
         (full_label SEPTEMBER))
      (upsert_reporting_month upward_merge_sheet (full_label SEPTEMBER)) /\
  ~ same_sheet
      (upsert_reporting_month (upsert_reporting_month overlapping_sheet SEPTEMBER) SEPTEMBER)
      (upsert_reporting_month overlapping_sheet SEPTEMBER).
Proof.
  split; [|split].
  - intros (_&_&_&H). specialize (H (2, 1)%positive). vm_compute in H. discriminate.
  - intros (_&_&_&H). specialize (H (1, 2)%positive). vm_compute in H. discriminate.
  - intros (_&_&_&H). specialize (H (1, 1)%positive). vm_compute in H. discriminate.
Qed.

End ReportingMonthFacts.

(* ===================================================================== *)
(** * Properties of the data-sheet refill *)
(* ===================================================================== *)

Module DataSheetFacts.
Import PyStr PyFloat ToNum Sheet DataSheet SheetFacts.

(** ** What the refilled sheet holds *)




(** Assigning [new] over [old], where [None] is not assigned. *)
Definition overlay (old new : pyval) : pyval :=
  match new with
  | VNone => old
  | _ => new
  end.

Lemma overlay_none_r old : overlay old VNone = old.
Proof. reflexivity. Qed.


(** ** Clearing *)





(** ** Writing *)










Lemma title_clear_sheet ws : title (clear_sheet ws) = title ws.
Proof. reflexivity. Qed.

(** ** The workbook *)






End DataSheetFacts.

(* ===================================================================== *)
(** * Properties of the entry points *)
(* ===================================================================== *)

Module MainFacts.
Import PyStr PyFloat ToNum Sheet ReportingMonth DataSheet Main.

Section FailFast.
Context {Path : Type}.
Variable read_csv_robust : Path -> DataFrame.
Variable wire_visible_sheets : Workbook -> Workbook.
Variable ensure_report_formulas_and_cosmetics : Workbook -> Workbook.
Variable ready_values_only : Workbook -> Workbook.
Variable prev_month_label : str.

Lemma missing_nonempty (w : World Path) table kp :
  In kp table -> resolve_csv Path w kp.2 = None -> missing Path w table <> [].
Proof.
  intros Hin Hr. unfold missing.
  assert (H : kp.1 ∈ omap (fun kp : string * list string =>
                 match resolve_csv Path w kp.2 with
                 | Some _ => None
                 | None => Some kp.1
                 end) table).
  { apply list_elem_of_omap. exists kp. rewrite Hr. split; [now apply list_elem_of_In | reflexivity]. }
  intros E. rewrite E in H. now apply elem_of_nil in H.
Qed.

Lemma missing_v2_nonempty (w : World Path) kn :
  In kn CSV_MAP -> exists_csv Path w kn.2 = None -> missing_v2 Path w <> [].
Proof.
  intros Hin Hr. unfold missing_v2.
  assert (H : kn.2 ∈ omap (fun kn : string * string =>
                 match exists_csv Path w kn.2 with
                 | Some _ => None
                 | None => Some kn.2
                 end) CSV_MAP).
  { apply list_elem_of_omap. exists kn. rewrite Hr. split; [now apply list_elem_of_In | reflexivity]. }
  intros E. rewrite E in H. now apply elem_of_nil in H.
Qed.

Lemma log_errors_touch_nothing (l : list string) :
  forallb (fun e => negb (touches_workbook e)) (LogError <$> l) = true.
Proof. induction l as [|x l IH]; [reflexivity | exact IH]. Qed.

(** The Belfius script: a sheet without a CSV ends the run with code 1; the
    files are as they were and the only events are error messages. *)
Lemma belfius_fails_fast no_ready (w : World Path) kp :
  In kp CSV_PATTERNS -> resolve_csv Path w kp.2 = None ->
  exists ev,
    main_belfius Path read_csv_robust wire_visible_sheets ready_values_only
      prev_month_label no_ready w = (w, ev, Returned 1) /\
    forallb (fun e => negb (touches_workbook e)) ev = true.
Proof.
  intros Hin Hr. pose proof (missing_nonempty w _ kp Hin Hr) as Hm.
  unfold main_belfius. destruct (missing Path w CSV_PATTERNS) as [|k l] eqn:E; [contradiction|].
  eexists. split; [reflexivity|].
  rewrite forallb_app, log_errors_touch_nothing. reflexivity.
Qed.

Lemma bancontact_fails_fast (w : World Path) kp :
  In kp CSV_CANDIDATES -> resolve_csv Path w kp.2 = None ->
  exists ev,
    main_bancontact Path read_csv_robust ensure_report_formulas_and_cosmetics
      ready_values_only w = (w, ev, SysExit 1) /\
    forallb (fun e => negb (touches_workbook e)) ev = true.
Proof.
  intros Hin Hr. pose proof (missing_nonempty w _ kp Hin Hr) as Hm.
  unfold main_bancontact. destruct (missing Path w CSV_CANDIDATES) as [|k l] eqn:E; [contradiction|].
  eexists. split; reflexivity.
Qed.

Lemma v2_fails_fast (w : World Path) kn :
  In kn CSV_MAP -> exists_csv Path w kn.2 = None ->
  exists ev,
    main_v2 Path read_csv_robust ensure_report_formulas_and_cosmetics
      ready_values_only w = (w, ev, SysExit 1) /\
    forallb (fun e => negb (touches_workbook e)) ev = true.
Proof.
  intros Hin Hr. pose proof (missing_v2_nonempty w kn Hin Hr) as Hm.
  unfold main_v2. destruct (missing_v2 Path w) as [|k l] eqn:E; [contradiction|].
  eexists. split; reflexivity.
Qed.

(** C9.  In each of the three scripts, when a required CSV is missing the run
    reports it and stops with exit code 1 before the workbook is loaded: the
    files are left as they were, and no event of the run loads a workbook,
    reads a CSV into a sheet or saves. *)
Theorem missing_csv_fails_fast (w : World Path) :
  (forall no_ready kp,
     In kp CSV_PATTERNS -> resolve_csv Path w kp.2 = None ->
     exists ev,
       main_belfius Path read_csv_robust wire_visible_sheets ready_values_only
         prev_month_label no_ready w = (w, ev, Returned 1) /\
       forallb (fun e => negb (touches_workbook e)) ev = true) /\
  (forall kp,
     In kp CSV_CANDIDATES -> resolve_csv Path w kp.2 = None ->
     exists ev,
       main_bancontact Path read_csv_robust ensure_report_formulas_and_cosmetics
         ready_values_only w = (w, ev, SysExit 1) /\
       forallb (fun e => negb (touches_workbook e)) ev = true) /\
  (forall kn,
     In kn CSV_MAP -> exists_csv Path w kn.2 = None ->
     exists ev,
       main_v2 Path read_csv_robust ensure_report_formulas_and_cosmetics
         ready_values_only w = (w, ev, SysExit 1) /\
       forallb (fun e => negb (touches_workbook e)) ev = true).
Proof.
  split; [|split].
  - intros. now apply belfius_fails_fast with kp.
  - intros. now apply bancontact_fails_fast with kp.
  - intros. now apply v2_fails_fast with kn.
Qed.

End FailFast.

(** A folder that lacks [Fraud.csv] (and any [*fraud*.csv]). *)
Definition no_fraud_world : World string :=
  {| glob := fun pat => if String.eqb pat "Fraud.csv" || String.eqb pat "*fraud*.csv"
                        then [] else [pat];
     is_file := fun _ => true;
     exists_csv := fun name => if String.eqb name "Fraud.csv" then None else Some name;
     workbook := Some [];
     loadable := true;
     writable := true;
     ready := None |}.

Lemma missing_csv_fails_fast_witness :
  exists ev,
    main_belfius string (fun _ => {| columns := []; rows := [] |})
      (fun wb => wb) (fun wb => wb) (u "September 2025") false no_fraud_world
    = (no_fraud_world, ev, Returned 1) /\
    forallb (fun e => negb (touches_workbook e)) ev = true.
Proof.
  refine (proj1 (missing_csv_fails_fast (fun _ => {| columns := []; rows := [] |})
            (fun wb => wb) (fun wb => wb) (fun wb => wb) (u "September 2025")
            no_fraud_world) false
            ("Data_Fraud", ["Fraud.csv"; "*fraud*.csv"])%string _ _).
  - vm_compute. tauto.
  - reflexivity.
Defined.

End MainFacts.

(* ===================================================================== *)
(** * The legacy stamp *)
(* ===================================================================== *)

Module LegacyV2Facts.
Import PyStr PyFloat ToNum Sheet ReportingMonth LegacyV2 SheetFacts ReportingMonthFacts.

(** [set_reporting_month] of the v2 script cannot run: its first statement
    calls [prev_month_label()], which refers to the name [date] that the
    module never imports.  (The v2 [main] never calls it.) *)
Lemma set_reporting_month_raises py_str wb :
  set_reporting_month py_str wb = Raise NameError.
Proof. reflexivity. Qed.

(** Its loop body differs from [upsert_reporting_month]: only row 2 is
    scanned, and a label in column A is rewritten in place even without a
    colon. *)
Lemma stamp_sheet_column_A py_str :
  cell_value (stamp_sheet py_str SEPTEMBER two_cell_sheet) (2, 1)%positive
    = VStr (full_label SEPTEMBER) /\
  cell_value (stamp_sheet py_str SEPTEMBER two_cell_sheet) (2, 2)%positive
    = VStr (u "August 2025") /\
  cell_value (upsert_reporting_month two_cell_sheet SEPTEMBER) (2, 1)%positive
    = VStr (u "Reporting Month") /\
  cell_value (upsert_reporting_month two_cell_sheet SEPTEMBER) (2, 2)%positive
    = VStr SEPTEMBER.
Proof. repeat split; vm_compute; reflexivity. Qed.

End LegacyV2Facts.

(* ===================================================================== *)
(** * Further code: the month label *)
(* ===================================================================== *)

Module Calendar.
Import PyStr PyFloat.

(** A [datetime.date]. *)
Record date := {
  year : Z;
  month : Z;
  day : Z
}.

Definition is_leap (y : Z) : bool :=
  (y mod 4 =? 0) && (negb (y mod 100 =? 0) || (y mod 400 =? 0)).

Definition days_in_month (y m : Z) : Z :=
  if m =? 2 then (if is_leap y then 29 else 28)
  else if (m =? 4) || (m =? 6) || (m =? 9) || (m =? 11) then 30
  else 31.

(** The dates [datetime.date] can hold: years 1 to 9999. *)
Definition valid_date (d : date) : bool :=
  (1 <=? year d) && (year d <=? 9999) &&
  (1 <=? month d) && (month d <=? 12) &&
  (1 <=? day d) && (day d <=? days_in_month (year d) (month d)).

(** [d.replace(day=n)] *)
Definition replace_day (d : date) (n : Z) : date :=
  {| year := year d; month := month d; day := n |}.

(** [d - timedelta(days=1)]: the day before; [OverflowError] before
    [date.min]. *)
Definition minus_one_day (d : date) : result date :=
  if 1 <? day d then
    Ok {| year := year d; month := month d; day := day d - 1 |}
  else if 1 <? month d then
    Ok {| year := year d; month := month d - 1;
          day := days_in_month (year d) (month d - 1) |}
  else if 1 <? year d then
    Ok {| year := year d - 1; month := 12; day := 31 |}
  else Raise OverflowError.

(** [%B]: the scripts never call [setlocale], so the names are those of the C
    locale. *)
Definition MONTH_NAMES : list str :=
  List.map u ["January"; "February"; "March"; "April"; "May"; "June"; "July";
              "August"; "September"; "October"; "November"; "December"]%string.

Definition month_name (m : Z) : str :=
  List.nth (Z.to_nat (m - 1)) MONTH_NAMES [].

(** The decimal digits of a number ([str(n)], [%Y] from year 1000 on; how
    [%Y] pads an earlier year depends on the C library). *)
Fixpoint decimal_go (fuel : nat) (n : N) (acc : str) : str :=
  match fuel with
  | O => acc
  | S fuel' =>
      let acc' := (48 + n mod 10)%N :: acc in
      if (n / 10 =? 0)%N then acc' else decimal_go fuel' (n / 10)%N acc'
  end.

Definition decimal (n : N) : str :=
  decimal_go (S (N.to_nat (N.log2 n))) n [].

(** [d.strftime("%B %Y")] *)
Definition strftime_B_Y (d : date) : str :=
  month_name (month d) ++ [SPACE] ++ decimal (Z.to_N (year d)).

(** [prev_month_label()] of the Belfius script, as a function of
    [date.today()]. *)
Definition prev_month_label (today : date) : result str :=
  let first := replace_day today 1 in
  match minus_one_day first with
  | Ok last_prev => Ok (strftime_B_Y last_prev)
  | Raise e => Raise e
  end.

End Calendar.

(* ===================================================================== *)
(** * Further code: reading sheets back *)
(* ===================================================================== *)

Module Readers.
Import PyStr PyFloat ToNum Sheet DataSheet.

(** [value in (None, "")] *)
Definition is_blank (v : pyval) : bool :=
  match v with
  | VNone => true
  | VStr [] => true
  | _ => false
  end.

(** The [while] loop of [data_nrows], from row [r] with [cnt] rows counted.
    Each turn reads [ws.max_row] anew; [fuel] bounds the number of turns. *)
Fixpoint count_rows (fuel : nat) (ws : Worksheet) (first_col r : positive)
  (cnt : nat) : Worksheet * nat :=
  match fuel with
  | O => (ws, cnt)
  | S fuel' =>
      if (r <=? ws_max_row ws)%positive then
        let ws := cell (r, first_col) ws in
        if negb (is_blank (cell_value ws (r, first_col)))
        then count_rows fuel' ws first_col (r + 1)%positive (S cnt)
        else (ws, cnt)
      else (ws, cnt)
  end.

(** [data_nrows(wb, wsname, first_col)]; the loop runs at most
    [ws.max_row] times. *)
Definition data_nrows (wb : Workbook) (wsname : str) (first_col : positive)
  : Workbook * nat :=
  match get_sheet wsname wb with
  | None => (wb, 0%nat)
  | Some ws =>
      let '(ws', cnt) :=
        count_rows (Pos.to_nat (ws_max_row ws)) ws first_col 2 0 in
      (update_sheet wsname (fun _ => ws') wb, cnt)
  end.

(** [get_column_letter(col)] for the columns a sheet can have (1..18278):
    bijective base 26. *)
Fixpoint column_letter_go (fuel : nat) (col : N) (acc : str) : str :=
  match fuel with
  | O => acc
  | S fuel' =>
      if (col =? 0)%N then acc
      else
        let q := (col / 26)%N in
        let rem := (col mod 26)%N in
        if (rem =? 0)%N then column_letter_go fuel' (q - 1)%N ((26 + 64)%N :: acc)
        else column_letter_go fuel' q ((rem + 64)%N :: acc)
  end.

Definition get_column_letter (col : positive) : str :=
  column_letter_go 3 (Npos col) [].

(** [cell.coordinate], such as ["B7"]. *)
Definition coordinate (p : coord) : str :=
  get_column_letter p.2 ++ Calendar.decimal (Npos p.1).

Section Find.
(** [str.lower].  The label and the cell texts are arbitrary, so their
    lower-casing is the interpreter's: full Unicode case mapping, which
    [PyStr.lower] gives on Basic Latin and Latin-1 only. *)
Variable py_lower : str -> str.

(** [isinstance(v, str) and target in v.lower()] *)
Definition text_has (target : str) (v : pyval) : bool :=
  match v with
  | VStr s => contains target (py_lower s)
  | _ => false
  end.

(** The loop body of [find_label_neighbor]. *)
Definition look (target : str) (ws : Worksheet) (r c : positive)
  : Worksheet * option (positive * positive * str) :=
  let ws := cell (r, c) ws in
  if text_has target (cell_value ws (r, c)) then
    let ws := cell (r, (c + 1)%positive) ws in
    (ws, Some (r, (c + 1)%positive, coordinate (r, (c + 1)%positive)))
  else (ws, None).

Fixpoint look_cols (target : str) (ws : Worksheet) (r : positive)
  (cs : list positive) : Worksheet * option (positive * positive * str) :=
  match cs with
  | [] => (ws, None)
  | c :: cs' =>
      match look target ws r c with
      | (ws', Some res) => (ws', Some res)
      | (ws', None) => look_cols target ws' r cs'
      end
  end.

Fixpoint look_rows (target : str) (ws : Worksheet) (rs cs : list positive)
  : Worksheet * option (positive * positive * str) :=
  match rs with
  | [] => (ws, None)
  | r :: rs' =>
      match look_cols target ws r cs with
      | (ws', Some res) => (ws', Some res)
      | (ws', None) => look_rows target ws' rs' cs
      end
  end.

(** [find_label_neighbor(ws, label_text)] *)
Definition find_label_neighbor (ws : Worksheet) (label_text : str)
  : Worksheet * option (positive * positive * str) :=
  let target := py_lower label_text in
  let max_r := Pos.min (ws_max_row ws) 60 in
  let max_c := Pos.min (ws_max_column ws) 30 in
  look_rows target ws (pos_range max_r) (pos_range max_c).

End Find.

Section FromSheet.
(** [str(v)] for a header cell that holds a number or a boolean. *)
Variable py_str : pyval -> str.

(** [str(c.value) if c.value is not None else ""] *)
Definition header_text (v : pyval) : str :=
  match v with
  | VNone => []
  | VStr s => s
  | v => py_str v
  end.

(** [[ws.cell(row=r, column=c).value for c in cs]] *)
Fixpoint read_row (ws : Worksheet) (r : positive) (cs : list positive)
  : Worksheet * list pyval :=
  match cs with
  | [] => (ws, [])
  | c :: cs' =>
      let ws := cell (r, c) ws in
      let v := cell_value ws (r, c) in
      let '(ws', vs) := read_row ws r cs' in
      (ws', v :: vs)
  end.

(** The [while] loop of [df_from_sheet], from row [r]; [ncols] is
    [len(headers)]. *)
Fixpoint read_rows (fuel : nat) (ws : Worksheet) (ncols : nat) (r : positive)
  : Worksheet * list (list pyval) :=
  match fuel with
  | O => (ws, [])
  | S fuel' =>
      if (r <=? ws_max_row ws)%positive then
        let ws := cell (r, 1%positive) ws in
        if negb (is_blank (cell_value ws (r, 1%positive))) then
          let '(ws, row) := read_row ws r (Pos.of_nat <$> seq 1 ncols) in
          let '(ws, rest) := read_rows fuel' ws ncols (r + 1)%positive in
          (ws, row :: rest)
        else (ws, [])
      else (ws, [])
  end.

(** [df_from_sheet(name)] of [create_ready_values_only]: the headers are the
    cells of [ws[1]], i.e. of row 1 up to [ws.max_column].  The result is the
    labels and the rows that are handed to [pd.DataFrame]. *)
Definition df_from_sheet (wb : Workbook) (name : str)
  : Workbook * option DataFrame :=
  match get_sheet name wb with
  | None => (wb, None)
  | Some ws =>
      let '(ws, hs) := read_row ws 1 (pos_range (ws_max_column ws)) in
      let headers := header_text <$> hs in
      let '(ws, rs) :=
        read_rows (Pos.to_nat (ws_max_row ws)) ws (length headers) 2 in
      (update_sheet name (fun _ => ws) wb,
       Some {| columns := headers; rows := rs |})
  end.

End FromSheet.

(** [wb.remove(wb[name])]: the first sheet with that title goes. *)
Fixpoint remove_sheet (name : str) (wb : Workbook) : Workbook :=
  match wb with
  | [] => []
  | ws :: rest =>
      if bool_decide (title ws = name) then rest
      else ws :: remove_sheet name rest
  end.

(** The "Drop Data_* tabs" loop of [create_ready_values_only]:
    [for name in list(wb.sheetnames): if name.startswith("Data_"): ...] *)
Definition drop_data_tabs (wb : Workbook) : Workbook :=
  foldl (fun wb name => if is_prefix (u "Data_") name
                        then remove_sheet name wb else wb)
        wb (sheetnames wb).

End Readers.
(* ===================================================================== *)
(** * Further properties of the numeric normaliser *)
(* ===================================================================== *)

Module ToNumMore.
Import PyStr PyFloat ToNum ToNumFacts.

(** The text without its blanks and non-breaking spaces. *)
Definition is_blank_char (c : N) : bool := (c =? SPACE)%N || (c =? NBSP)%N.

Definition remove_blanks (s : str) : str :=
  List.filter (fun c => negb (is_blank_char c)) s.

Lemma blank_is_space c : is_blank_char c = true -> isspace c = true.
Proof.
  unfold is_blank_char. intros [H|H]%orb_true_iff; apply N.eqb_eq in H; now subst.
Qed.

Lemma remove_blanks_cons c s :
  remove_blanks (c :: s) =
  if is_blank_char c then remove_blanks s else c :: remove_blanks s.
Proof. unfold remove_blanks. simpl. now destruct (is_blank_char c). Qed.

Lemma remove_blanks_app s t :
  remove_blanks (s ++ t) = remove_blanks s ++ remove_blanks t.
Proof. apply List.filter_app. Qed.

Lemma remove_blanks_keep c :
  isspace c = false -> remove_blanks [c] = [c].
Proof.
  intros H. rewrite remove_blanks_cons.
  destruct (is_blank_char c) eqn:E; [|reflexivity].
  apply blank_is_space in E. congruence.
Qed.

Lemma lstrip_remove_blanks s :
  lstrip (remove_blanks s) = remove_blanks (lstrip s).
Proof.
  induction s as [|c s IH]; [reflexivity|].
  rewrite remove_blanks_cons. simpl lstrip at 2.
  destruct (is_blank_char c) eqn:Eb.
  - now rewrite (blank_is_space c Eb).
  - simpl. destruct (isspace c); [exact IH|].
    now rewrite remove_blanks_cons, Eb.
Qed.

(** The shape of a right-stripped and of a stripped text. *)
Lemma rstrip_shape s :
  rstrip s = [] \/ exists m b, rstrip s = m ++ [b] /\ isspace b = false.
Proof.
  induction s as [|c s IH]; [now left|]. simpl.
  destruct IH as [->|(m & b & -> & Hb)].
  - destruct (isspace c) eqn:E; [now left|]. right. now exists [], c.
  - right. exists (c :: m), b. split; [|exact Hb]. now destruct m.
Qed.

Lemma lstrip_last_shape m b :
  isspace b = false ->
  exists a m', lstrip (m ++ [b]) = a :: m' /\ isspace a = false /\
               (m' = [] /\ a = b \/ exists m'', m' = m'' ++ [b]).
Proof.
  intros Hb. induction m as [|x m IH]; simpl.
  - rewrite Hb. exists b, []. auto.
  - destruct (isspace x) eqn:E; [exact IH|].
    exists x, (m ++ [b]). split; [reflexivity|]. split; [exact E|]. right. now exists m.
Qed.

Lemma strip_shape s :
  strip s = [] \/
  (exists a, strip s = [a] /\ isspace a = false) \/
  (exists a m b, strip s = a :: m ++ [b] /\ isspace a = false /\ isspace b = false).
Proof.
  unfold strip. destruct (rstrip_shape s) as [->|(m & b & -> & Hb)]; [now left|].
  destruct (lstrip_last_shape m b Hb) as (a & m' & -> & Ha & [[-> ->]|[m'' ->]]).
  - right. left. now exists b.
  - right. right. now exists a, m'', b.
Qed.

Lemma rstrip_remove_blanks s :
  rstrip (remove_blanks s) = remove_blanks (rstrip s).
Proof.
  induction s as [|c s IH]; [reflexivity|].
  rewrite remove_blanks_cons. simpl rstrip at 2.
  destruct (is_blank_char c) eqn:Eb.
  - rewrite IH. destruct (rstrip s) as [|y t] eqn:Er.
    + now rewrite (blank_is_space c Eb).
    + now rewrite (remove_blanks_cons c), Eb.
  - simpl. rewrite IH. destruct (rstrip_shape s) as [E|(m & b & E & Hb)]; rewrite E.
    + simpl. destruct (isspace c); [reflexivity|].
      now rewrite remove_blanks_cons, Eb.
    + rewrite remove_blanks_app, (remove_blanks_keep b Hb).
      assert (Hm : m ++ [b] = match m with [] => [b] | x :: m' => x :: m' ++ [b] end)
        by now destruct m.
      destruct (remove_blanks m ++ [b]) as [|y t] eqn:Ey.
      * now destruct (remove_blanks m).
      * destruct (m ++ [b]) as [|y' t'] eqn:Ey'; [now destruct m|].
        rewrite <- Ey', remove_blanks_cons, Eb, remove_blanks_app.
        now rewrite (remove_blanks_keep b Hb), Ey.
Qed.

Lemma strip_remove_blanks s : strip (remove_blanks s) = remove_blanks (strip s).
Proof. unfold strip. now rewrite rstrip_remove_blanks, lstrip_remove_blanks. Qed.

Lemma replace_app old new s t :
  replace old new (s ++ t) = replace old new s ++ replace old new t.
Proof. unfold replace. apply List.flat_map_app. Qed.

Lemma clean_app s t : clean (s ++ t) = clean s ++ clean t.
Proof. unfold clean. now rewrite !replace_app. Qed.

Lemma clean_remove_blanks s : clean (remove_blanks s) = clean s.
Proof.
  induction s as [|c s IH]; [reflexivity|].
  rewrite remove_blanks_cons.
  change (c :: s) with ([c] ++ s). rewrite (clean_app [c] s).
  destruct (is_blank_char c) eqn:Eb.
  - rewrite IH. unfold is_blank_char in Eb.
    apply orb_true_iff in Eb as [E|E]; apply N.eqb_eq in E; now subst.
  - change (c :: remove_blanks s) with ([c] ++ remove_blanks s).
    now rewrite clean_app, IH.
Qed.

Lemma mem_percent_remove_blanks s :
  mem PERCENT (remove_blanks s) = mem PERCENT s.
Proof.
  induction s as [|c s IH]; [reflexivity|].
  rewrite remove_blanks_cons. destruct (is_blank_char c) eqn:Eb.
  - rewrite IH. unfold is_blank_char in Eb.
    apply orb_true_iff in Eb as [E|E]; apply N.eqb_eq in E; now subst.
  - simpl. now rewrite <- IH.
Qed.

Lemma endswith_last x a m b : endswith x (a :: m ++ [b]) = (b =? x)%N.
Proof.
  unfold endswith. simpl. rewrite List.rev_app_distr. reflexivity.
Qed.

Lemma slice_middle a m b : slice_1_m1 (a :: m ++ [b]) = m.
Proof. unfold slice_1_m1. simpl. apply List.removelast_last. Qed.

(** The part of [to_num] after stripping, as a function of the stripped
    text. *)
Definition convert (neg : bool) (s : str) : float :=
  finish neg (mem PERCENT s) (fix_separators (clean s)).

Definition after_strip (s : str) : float :=
  match s with
  | [] => 0%float
  | _ =>
      let neg := startswith LPAREN s && endswith RPAREN s in
      convert neg (if neg then slice_1_m1 s else s)
  end.

Lemma to_num_str_after_strip s : to_num_str s = after_strip (strip s).
Proof. reflexivity. Qed.

Lemma after_strip_ends a m b :
  after_strip (a :: m ++ [b]) =
  if (a =? LPAREN)%N && (b =? RPAREN)%N then convert true m
  else convert false (a :: m ++ [b]).
Proof.
  unfold after_strip. cbn [startswith]. rewrite endswith_last, slice_middle.
  now destruct ((a =? LPAREN)%N && (b =? RPAREN)%N).
Qed.

Lemma convert_remove_blanks neg s : convert neg (remove_blanks s) = convert neg s.
Proof. unfold convert. now rewrite mem_percent_remove_blanks, clean_remove_blanks. Qed.

(** X2.  Blanks and non-breaking spaces are ignored wherever they stand: the
    text without them normalises to the same number. *)
Theorem to_num_ignores_blanks s :
  to_num (VStr (remove_blanks s)) = to_num (VStr s).
Proof.
  simpl. f_equal. rewrite !to_num_str_after_strip, strip_remove_blanks.
  destruct (strip_shape s) as [->|[(a & -> & Ha)|(a & m & b & -> & Ha & Hb)]].
  - reflexivity.
  - now rewrite (remove_blanks_keep a Ha).
  - assert (Hrb : remove_blanks (a :: m ++ [b]) = a :: remove_blanks m ++ [b]).
    { change (a :: m ++ [b]) with ([a] ++ m ++ [b]).
      now rewrite !remove_blanks_app, (remove_blanks_keep a Ha), (remove_blanks_keep b Hb). }
    rewrite Hrb, !after_strip_ends.
    destruct ((a =? LPAREN)%N && (b =? RPAREN)%N).
    + apply convert_remove_blanks.
    + rewrite <- Hrb. apply convert_remove_blanks.
Qed.

(** X1.  Every input that is not an [int] gives a finite float, never an error,
    a NaN or an infinity; and a number that [to_num] gave is kept when it is
    normalised again, as the totals over already normalised cells do. *)
Theorem to_num_finite_and_stable v :
  (forall n, v <> VInt n) ->
  exists x, to_num v = Ok x /\ finite x = true /\ to_num (VFloat x) = Ok x.
Proof.
  intros Hv. destruct (to_num_total_but_int v Hv) as (x & Hx & Hf).
  exists x. split; [exact Hx|]. split; [exact Hf|].
  cbn [to_num]. unfold finite, PrimFloat.is_finite in Hf. unfold isnan, isinf.
  apply negb_true_iff in Hf. now rewrite Hf.
Qed.

Lemma to_num_finite_and_stable_witness :
  exists x, to_num (VStr (u "n/a")) = Ok x /\ finite x = true /\
            to_num (VFloat x) = Ok x.
Proof.
  apply (to_num_finite_and_stable (VStr (u "n/a"))). intros n H. discriminate H.
Defined.

End ToNumMore.

(* ===================================================================== *)
(** * Further properties of worksheets and merged ranges *)
(* ===================================================================== *)

Module SheetMore.
Import PyStr PyFloat ToNum Sheet SheetFacts.

Lemma foldr_max_in (l : list positive) :
  foldr Pos.max 1%positive l = 1%positive \/ In (foldr Pos.max 1%positive l) l.
Proof.
  induction l as [|x l IH]; simpl; [now left|]. right.
  destruct (Pos.max_spec x (foldr Pos.max 1%positive l)) as [[Hlt ->]|[_ ->]].
  - destruct IH as [E|IH]; [|now right]. rewrite E in Hlt. lia.
  - now left.
Qed.

Lemma ws_max_row_attained ws :
  ws_max_row ws = 1%positive \/
  exists p v, cells ws !! p = Some v /\ p.1 = ws_max_row ws.
Proof.
  unfold ws_max_row.
  destruct (foldr_max_in ((fun kv : coord * pyval => kv.1.1) <$> map_to_list (cells ws)))
    as [H|H]; [now left|right].
  apply list_elem_of_In, list_elem_of_fmap in H as ([p v] & Hp & Hin).
  apply elem_of_map_to_list in Hin. now exists p, v.
Qed.

Lemma ws_max_column_attained ws :
  ws_max_column ws = 1%positive \/
  exists p v, cells ws !! p = Some v /\ p.2 = ws_max_column ws.
Proof.
  unfold ws_max_column.
  destruct (foldr_max_in ((fun kv : coord * pyval => kv.1.2) <$> map_to_list (cells ws)))
    as [H|H]; [now left|right].
  apply list_elem_of_In, list_elem_of_fmap in H as ([p v] & Hp & Hin).
  apply elem_of_map_to_list in Hin. now exists p, v.
Qed.

(** Creating or writing a cell extends the used area just enough to hold
    it. *)
Lemma ws_max_row_insert ws p v :
  ws_max_row (with_cells (<[p := v]> (cells ws)) ws) = Pos.max (ws_max_row ws) p.1.
Proof.
  set (ws' := with_cells _ ws).
  assert (Hp : (p.1 <= ws_max_row ws')%positive).
  { apply (cell_within_max ws' p v). apply lookup_insert_eq. }
  assert (Hold : forall q w, cells ws !! q = Some w -> (q.1 <= ws_max_row ws')%positive).
  { intros q w Hq. destruct (decide (p = q)) as [->|Hne]; [exact Hp|].
    apply (cell_within_max ws' q w). unfold ws'. simpl. now rewrite lookup_insert_ne. }
  apply Pos.le_antisym.
  - destruct (ws_max_row_attained ws') as [->|(q & w & Hq & <-)]; [lia|].
    unfold ws' in Hq. simpl in Hq. destruct (decide (p = q)) as [->|Hne]; [lia|].
    rewrite lookup_insert_ne in Hq by exact Hne.
    apply cell_within_max in Hq. lia.
  - destruct (ws_max_row_attained ws) as [->|(q & w & Hq & <-)]; [lia|].
    specialize (Hold q w Hq). lia.
Qed.

Lemma ws_max_column_insert ws p v :
  ws_max_column (with_cells (<[p := v]> (cells ws)) ws) = Pos.max (ws_max_column ws) p.2.
Proof.
  set (ws' := with_cells _ ws).
  assert (Hp : (p.2 <= ws_max_column ws')%positive).
  { apply (cell_within_max ws' p v). apply lookup_insert_eq. }
  assert (Hold : forall q w, cells ws !! q = Some w -> (q.2 <= ws_max_column ws')%positive).
  { intros q w Hq. destruct (decide (p = q)) as [->|Hne]; [exact Hp|].
    apply (cell_within_max ws' q w). unfold ws'. simpl. now rewrite lookup_insert_ne. }
  apply Pos.le_antisym.
  - destruct (ws_max_column_attained ws') as [->|(q & w & Hq & <-)]; [lia|].
    unfold ws' in Hq. simpl in Hq. destruct (decide (p = q)) as [->|Hne]; [lia|].
    rewrite lookup_insert_ne in Hq by exact Hne.
    apply cell_within_max in Hq. lia.
  - destruct (ws_max_column_attained ws) as [->|(q & w & Hq & <-)]; [lia|].
    specialize (Hold q w Hq). lia.
Qed.

Lemma ws_max_row_cell ws p :
  ws_max_row (cell p ws) = Pos.max (ws_max_row ws) p.1.
Proof.
  unfold cell. destruct (cells ws !! p) as [v|] eqn:E.
  - apply cell_within_max in E. lia.
  - apply ws_max_row_insert.
Qed.

Lemma ws_max_column_cell ws p :
  ws_max_column (cell p ws) = Pos.max (ws_max_column ws) p.2.
Proof.
  unfold cell. destruct (cells ws !! p) as [v|] eqn:E.
  - apply cell_within_max in E. lia.
  - apply ws_max_column_insert.
Qed.

Lemma ws_max_row_cell_inside ws p :
  (p.1 <= ws_max_row ws)%positive -> ws_max_row (cell p ws) = ws_max_row ws.
Proof. intros H. rewrite ws_max_row_cell. lia. Qed.

Lemma ws_max_column_cell_inside ws p :
  (p.2 <= ws_max_column ws)%positive -> ws_max_column (cell p ws) = ws_max_column ws.
Proof. intros H. rewrite ws_max_column_cell. lia. Qed.

(** [find] returns the first element, in list order, that passes the
    test. *)
Lemma find_first_split {A} (f : A -> bool) l x :
  List.find f l = Some x ->
  exists l1 l2, l = l1 ++ x :: l2 /\ f x = true /\ forall y, In y l1 -> f y = false.
Proof.
  induction l as [|y l IH]; [discriminate|]. cbn [List.find].
  destruct (f y) eqn:E.
  - intros [= ->]. exists [], l. split; [reflexivity|]. split; [exact E|]. intros z [].
  - intros H. destruct (IH H) as (l1 & l2 & -> & Hx & Hl1).
    exists (y :: l1), l2. split; [reflexivity|]. split; [exact Hx|].
    intros z [<-|Hz]; [exact E | now apply Hl1].
Qed.

Lemma find_first_at {A} (f : A -> bool) l1 x l2 :
  f x = true -> (forall y, In y l1 -> f y = false) ->
  List.find f (l1 ++ x :: l2) = Some x.
Proof.
  intros Hx Hl1. induction l1 as [|y l1 IH]; cbn [app List.find].
  - now rewrite Hx.
  - rewrite (Hl1 y (or_introl eq_refl)). apply IH. intros z Hz. apply Hl1. now right.
Qed.

(** X3.  Resolving a cell to its anchor only reads the sheet: every value, the
    merged ranges, the title and the visibility stay, and the used area
    does not grow when the cell lies inside it.  The anchor is never below
    or right of the cell.  It is the cell itself when no range holds it;
    otherwise it is the top-left corner of the first range, in the order in
    which the sheet lists its merged ranges, that holds the cell: the ranges
    listed before that one do not hold the cell, and a range listed after it
    does not matter even when it holds the cell too. *)
Theorem anchor_cell_first_range ws p :
  let r := _anchor_cell ws p in
  same_sheet r.1 ws /\
  (r.2.1 <= p.1 /\ r.2.2 <= p.2)%positive /\
  ((p.1 <= ws_max_row ws)%positive -> ws_max_row r.1 = ws_max_row ws) /\
  ((p.2 <= ws_max_column ws)%positive -> ws_max_column r.1 = ws_max_column ws) /\
  ((forall mr, In mr (merged_cells ws) -> in_cell_range p mr = false) -> r = (ws, p)) /\
  (forall earlier mr later,
     merged_cells ws = earlier ++ mr :: later ->
     in_cell_range p mr = true ->
     (forall mr', In mr' earlier -> in_cell_range p mr' = false) ->
     r.2 = (min_row mr, min_col mr)) /\
  (forall mr0, In mr0 (merged_cells ws) -> in_cell_range p mr0 = true ->
     exists earlier mr later,
       merged_cells ws = earlier ++ mr :: later /\
       in_cell_range p mr = true /\
       (forall mr', In mr' earlier -> in_cell_range p mr' = false) /\
       r.2 = (min_row mr, min_col mr)).
Proof.
  cbv zeta. split; [apply anchor_cell_same|].
  split; [rewrite anchor_cell_coord; apply anchor_coord_le|].
  pose proof (anchor_coord_le ws p) as Hle. rewrite <- anchor_cell_coord in Hle.
  unfold _anchor_cell in *.
  destruct (List.find (in_cell_range p) (merged_cells ws)) as [mr|] eqn:E; simpl in *.
  - pose proof E as Hf. apply find_some in E as [Hin Hr].
    split; [intros H; apply ws_max_row_cell_inside; simpl; lia|].
    split; [intros H; apply ws_max_column_cell_inside; simpl; lia|].
    split; [|split].
    + intros H. rewrite (H mr Hin) in Hr. discriminate.
    + intros earlier mr1 later Hm Hr1 Hearlier.
      rewrite Hm, (find_first_at _ earlier mr1 later Hr1 Hearlier) in Hf.
      now injection Hf as <-.
    + intros _ _ _. destruct (find_first_split _ _ _ Hf) as (l1 & l2 & Hm & _ & Hl1).
      now exists l1, mr, l2.
  - split; [reflexivity|]. split; [reflexivity|]. split; [reflexivity|]. split.
    + intros earlier mr later Hm Hr _.
      pose proof (find_none _ _ E mr) as H. rewrite Hm in H.
      rewrite H in Hr; [discriminate | apply in_elt].
    + intros mr Hin Hr. pose proof (find_none _ _ E mr Hin) as H. simpl in H. congruence.
Qed.

(** Two ranges share B1; the anchor of B1 is taken from the range listed
    first, A1:B1, and is A1; with the ranges listed the other way round it is
    B1 itself. *)
Lemma anchor_cell_first_range_witness :
  let a1b1 := {| min_row := 1; min_col := 1; max_row := 1; max_col := 2 |} in
  let b1b2 := {| min_row := 1; min_col := 2; max_row := 2; max_col := 2 |} in
  (_anchor_cell (ReportingMonthFacts.sheet_of [] [a1b1; b1b2]) (1, 2)%positive).2
    = (1, 1)%positive /\
  (_anchor_cell (ReportingMonthFacts.sheet_of [] [b1b2; a1b1]) (1, 2)%positive).2
    = (1, 2)%positive.
Proof.
  intros a1b1 b1b2. split.
  - refine (proj1 (proj2 (proj2 (proj2 (proj2 (proj2
      (anchor_cell_first_range (ReportingMonthFacts.sheet_of [] [a1b1; b1b2])
         (1, 2)%positive))))))
      [] a1b1 [b1b2] eq_refl eq_refl _).
    intros mr' [].
  - refine (proj1 (proj2 (proj2 (proj2 (proj2 (proj2
      (anchor_cell_first_range (ReportingMonthFacts.sheet_of [] [b1b2; a1b1])
         (1, 2)%positive))))))
      [] b1b2 [a1b1] eq_refl eq_refl _).
    intros mr' [].
Defined.

(** X4.  When no two merged ranges share a cell, an anchor is its own anchor. *)
Theorem anchor_cell_idempotent ws p :
  ranges_disjoint (merged_cells ws) = true ->
  (_anchor_cell (_anchor_cell ws p).1 (_anchor_cell ws p).2).2 = (_anchor_cell ws p).2.
Proof.
  intros Hd. rewrite !anchor_cell_coord.
  destruct (anchor_cell_same ws p) as (_ & Hm & _).
  rewrite (anchor_coord_same _ ws _ Hm). now apply anchor_coord_stable.
Qed.

Lemma anchor_cell_idempotent_witness :
  (_anchor_cell (_anchor_cell ReportingMonthFacts.merged_label_sheet (2, 2)%positive).1
                (_anchor_cell ReportingMonthFacts.merged_label_sheet (2, 2)%positive).2).2
  = (_anchor_cell ReportingMonthFacts.merged_label_sheet (2, 2)%positive).2.
Proof.
  apply (anchor_cell_idempotent ReportingMonthFacts.merged_label_sheet (2, 2)%positive).
  reflexivity.
Defined.

(** [set_val(ws, addr, val)] of the Belfius values-only pass:
    [_anchor_cell(ws, ws[addr]).value = val], with the address given as row
    and column. *)
Definition set_val (ws : Worksheet) (addr : coord) (val : pyval) : Worksheet :=
  let ws := cell addr ws in
  let '(ws, a) := _anchor_cell ws addr in
  set_value a val ws.

Lemma merged_cells_cell p ws : merged_cells (cell p ws) = merged_cells ws.
Proof. unfold cell. now destruct (cells ws !! p). Qed.

End SheetMore.

(* ===================================================================== *)
(** * Properties of the sheet readers *)
(* ===================================================================== *)

Module ReadersFacts.
Import PyStr PyFloat ToNum Sheet DataSheet Readers.
Import SheetFacts SheetMore DataSheetFacts.

(** ** Workbooks *)

Lemma get_sheet_title name wb ws : get_sheet name wb = Some ws -> title ws = name.
Proof.
  intros H. apply find_some in H as [_ H]. now apply bool_decide_eq_true in H.
Qed.

Lemma get_sheet_none name wb : get_sheet name wb = None <-> has_sheet name wb = false.
Proof.
  unfold has_sheet, sheetnames, get_sheet. rewrite bool_decide_eq_false.
  induction wb as [|x wb IH]; simpl.
  - split; [intros _ H; now apply elem_of_nil in H | reflexivity].
  - rewrite elem_of_cons. destruct (decide (title x = name)) as [E|E].
    + rewrite (bool_decide_eq_true_2 _ E). split; [discriminate|]. intros H. destruct H. now left.
    + rewrite (bool_decide_eq_false_2 _ E). rewrite IH. split.
      * intros H [H'|H']; [congruence | exact (H H')].
      * intros H H'. apply H. now right.
Qed.

(** Replacing the sheet [name] by a sheet of the same title. *)
Lemma get_sheet_replace name ws ws' wb :
  get_sheet name wb = Some ws -> title ws' = name ->
  get_sheet name (update_sheet name (fun _ => ws') wb) = Some ws'.
Proof.
  intros Hg Ht. induction wb as [|x wb IH]; [discriminate|]. simpl in *.
  destruct (bool_decide (title x = name)) eqn:E; simpl.
  - now rewrite (bool_decide_eq_true_2 _ Ht).
  - rewrite E. now apply IH.
Qed.

Lemma get_sheet_update_other name other f wb :
  (forall ws, title ws = name -> title (f ws) = name) -> other <> name ->
  get_sheet other (update_sheet name f wb) = get_sheet other wb.
Proof.
  intros Hf Hne. induction wb as [|x wb IH]; [reflexivity|]. simpl.
  destruct (bool_decide (title x = name)) eqn:E; simpl.
  - apply bool_decide_eq_true in E.
    rewrite !bool_decide_eq_false_2; [reflexivity | congruence | rewrite (Hf x E); congruence].
  - now rewrite IH.
Qed.

Lemma sheetnames_update name f wb :
  (forall ws, title ws = name -> title (f ws) = name) ->
  sheetnames (update_sheet name f wb) = sheetnames wb.
Proof.
  intros Hf. unfold sheetnames. induction wb as [|x wb IH]; [reflexivity|].
  cbn [update_sheet]. destruct (bool_decide (title x = name)) eqn:E; rewrite !fmap_cons.
  - apply bool_decide_eq_true in E. now rewrite (Hf x E), E.
  - now rewrite IH.
Qed.



(** A cell that holds a value lies inside the used area. *)
Lemma value_within_max ws p :
  cell_value ws p <> VNone ->
  (p.1 <= ws_max_row ws /\ p.2 <= ws_max_column ws)%positive.
Proof.
  intros H.
  destruct (Pos.leb_spec p.1 (ws_max_row ws)) as [H1|H1];
  destruct (Pos.leb_spec p.2 (ws_max_column ws)) as [H2|H2]; [now split|..];
    destruct H; apply cell_value_outside; auto.
Qed.

Lemma nonblank_not_none v : is_blank v = false -> v <> VNone.
Proof. intros H ->. discriminate. Qed.

(** ** [data_nrows] *)

Lemma count_rows_spec fc fuel : forall ws r cnt,
  let res := count_rows fuel ws fc r cnt in
  same_sheet res.1 ws /\
  ws_max_row res.1 = ws_max_row ws /\
  (cnt <= res.2)%nat /\
  (forall q, (Pos.to_nat r <= Pos.to_nat q < Pos.to_nat r + (res.2 - cnt))%nat ->
     (q <= ws_max_row ws)%positive /\ is_blank (cell_value ws (q, fc)) = false) /\
  ((Pos.to_nat (ws_max_row ws) < fuel + Pos.to_nat r)%nat ->
   forall q, Pos.to_nat q = (Pos.to_nat r + (res.2 - cnt))%nat ->
     (ws_max_row ws < q)%positive \/ is_blank (cell_value ws (q, fc)) = true).
Proof.
  induction fuel as [|fuel IH]; intros ws r cnt; cbv zeta.
  - simpl. split; [apply same_sheet_refl|]. split; [reflexivity|]. split; [lia|].
    split; [intros q Hq; lia|]. intros Hf q Hq. left. lia.
  - simpl. destruct (Pos.leb_spec r (ws_max_row ws)) as [Hr|Hr].
    + rewrite cell_value_cell.
      destruct (is_blank (cell_value ws (r, fc))) eqn:Eb; simpl.
      * split; [apply same_sheet_cell|].
        split; [now apply ws_max_row_cell_inside|]. split; [lia|].
        split; [intros q Hq; lia|]. intros _ q Hq. right.
        assert (q = r) as -> by lia. exact Eb.
      * specialize (IH (cell (r, fc) ws) (r + 1)%positive (S cnt)). cbv zeta in IH.
        destruct IH as (Hs & Hm & Hc & Hrun & Hexit).
        rewrite (ws_max_row_cell_inside ws (r, fc) Hr) in *.
        split; [exact (same_sheet_trans _ _ _ Hs (same_sheet_cell _ _))|].
        split; [exact Hm|]. split; [lia|]. split.
        -- intros q Hq. destruct (decide (q = r)) as [->|Hne]; [now split|].
           destruct (Hrun q) as [H1 H2]; [lia|]. rewrite cell_value_cell in H2. now split.
        -- intros Hf q Hq. destruct (Hexit ltac:(lia) q ltac:(lia)) as [H|H]; [now left|].
           rewrite cell_value_cell in H. now right.
    + simpl. split; [apply same_sheet_refl|]. split; [reflexivity|]. split; [lia|].
      split; [intros q Hq; lia|]. intros _ q Hq. left. lia.
Qed.

Lemma data_nrows_some wb name fc ws :
  get_sheet name wb = Some ws ->
  let n := (data_nrows wb name fc).2 in
  let wb' := (data_nrows wb name fc).1 in
  (forall q, (2 <= Pos.to_nat q < n + 2)%nat ->
     (q <= ws_max_row ws)%positive /\ is_blank (cell_value ws (q, fc)) = false) /\
  (forall q, Pos.to_nat q = (n + 2)%nat ->
     (ws_max_row ws < q)%positive \/ is_blank (cell_value ws (q, fc)) = true) /\
  sheetnames wb' = sheetnames wb /\
  (forall other, other <> name -> get_sheet other wb' = get_sheet other wb) /\
  exists ws', get_sheet name wb' = Some ws' /\ same_sheet ws' ws.
Proof.
  intros Hg. unfold data_nrows. rewrite Hg.
  pose proof (count_rows_spec fc (Pos.to_nat (ws_max_row ws)) ws 2 0) as H.
  cbv zeta in H. destruct (count_rows _ ws fc 2 0) as [ws' n].
  cbn [fst snd] in *. destruct H as (Hs & Hm & _ & Hrun & Hexit).
  assert (Ht : title ws' = name).
  { destruct Hs as (-> & _). now apply get_sheet_title in Hg. }
  split; [intros q Hq; apply Hrun; lia|].
  split; [intros q Hq; apply Hexit; lia|].
  split; [now apply sheetnames_update|].
  split; [intros other Hne; now apply get_sheet_update_other|].
  exists ws'. split; [|exact Hs]. now apply (get_sheet_replace name ws).
Qed.

(** X6.  [data_nrows] counts the rows from row 2 down to the first blank cell
    of the column or the end of the used area: a missing sheet gives 0;
    otherwise the rows 2 .. n+1 are inside the sheet with a value in the
    column, and row n+2 is past the sheet or blank there.  The workbook keeps
    its sheets, and the sheet its values. *)
Theorem data_nrows_counts wb name fc :
  match get_sheet name wb with
  | None => data_nrows wb name fc = (wb, 0%nat)
  | Some ws =>
      let n := (data_nrows wb name fc).2 in
      let wb' := (data_nrows wb name fc).1 in
      (forall q, (2 <= Pos.to_nat q < n + 2)%nat ->
         (q <= ws_max_row ws)%positive /\ is_blank (cell_value ws (q, fc)) = false) /\
      (forall q, Pos.to_nat q = (n + 2)%nat ->
         (ws_max_row ws < q)%positive \/ is_blank (cell_value ws (q, fc)) = true) /\
      sheetnames wb' = sheetnames wb /\
      (forall other, other <> name -> get_sheet other wb' = get_sheet other wb) /\
      exists ws', get_sheet name wb' = Some ws' /\ same_sheet ws' ws
  end.
Proof.
  destruct (get_sheet name wb) as [ws|] eqn:Hg.
  - now apply data_nrows_some.
  - unfold data_nrows. now rewrite Hg.
Qed.


(** ** [find_label_neighbor] *)

Import ReportingMonthFacts.

(** What [find_label_neighbor] returns for a match at [p]. *)
Definition neighbor (p : coord) : positive * positive * str :=
  (p.1, (p.2 + 1)%positive, coordinate (p.1, (p.2 + 1)%positive)).

Section Find.
Variable py_lower : str -> str.

Definition matches (target : str) (ws : Worksheet) (p : coord) : bool :=
  text_has py_lower target (cell_value ws p).

Lemma matches_same target a b p : same_sheet a b -> matches target a p = matches target b p.
Proof. intros (_&_&_&H). unfold matches. now rewrite H. Qed.

Lemma look_spec target ws r c :
  same_sheet (look py_lower target ws r c).1 ws /\
  (look py_lower target ws r c).2 =
    if matches target ws (r, c) then Some (neighbor (r, c)) else None.
Proof.
  unfold look, matches. rewrite cell_value_cell.
  destruct (text_has py_lower target (cell_value ws (r, c))); simpl.
  - split; [|reflexivity].
    exact (same_sheet_trans _ _ _ (same_sheet_cell _ _) (same_sheet_cell _ _)).
  - split; [apply same_sheet_cell | reflexivity].
Qed.

Lemma look_cols_spec target r cs : forall ws,
  same_sheet (look_cols py_lower target ws r cs).1 ws /\
  (look_cols py_lower target ws r cs).2 =
    neighbor <$> List.find (matches target ws) (row_cells r cs).
Proof.
  induction cs as [|c cs IH]; intros ws; [split; [apply same_sheet_refl | reflexivity]|].
  cbn [look_cols]. destruct (look_spec target ws r c) as [Hs Hr].
  destruct (look py_lower target ws r c) as [ws' [res|]]; cbn [fst snd] in *.
  - split; [exact Hs|]. unfold row_cells. rewrite fmap_cons. cbn [List.find].
    destruct (matches target ws (r, c)); [now rewrite Hr | discriminate].
  - destruct (IH ws') as [Hs' Hr']. split; [exact (same_sheet_trans _ _ _ Hs' Hs)|].
    rewrite Hr'. unfold row_cells. rewrite fmap_cons. cbn [List.find].
    destruct (matches target ws (r, c)); [discriminate|].
    f_equal. apply find_ext. intros x _. now apply matches_same.
Qed.

Lemma look_rows_spec target cs rs : forall ws,
  same_sheet (look_rows py_lower target ws rs cs).1 ws /\
  (look_rows py_lower target ws rs cs).2 =
    neighbor <$> List.find (matches target ws) (grid rs cs).
Proof.
  induction rs as [|r rs IH]; intros ws; [split; [apply same_sheet_refl | reflexivity]|].
  cbn [look_rows]. destruct (look_cols_spec target r cs ws) as [Hs Hr].
  change (grid (r :: rs) cs) with (row_cells r cs ++ grid rs cs). rewrite find_app.
  destruct (look_cols py_lower target ws r cs) as [ws' [res|]]; cbn [fst snd] in *.
  - split; [exact Hs|].
    destruct (List.find (matches target ws) (row_cells r cs)); [exact Hr | discriminate].
  - destruct (IH ws') as [Hs' Hr']. split; [exact (same_sheet_trans _ _ _ Hs' Hs)|].
    destruct (List.find (matches target ws) (row_cells r cs)); [discriminate|].
    rewrite Hr'. f_equal. apply find_ext. intros x _. now apply matches_same.
Qed.

(** X8.  [find_label_neighbor] only reads the sheet.  With [low] the
    lower-cased label, its result names the cell right of the first cell,
    row by row within rows 1..60 and columns 1..30, that holds a text whose
    lower-casing contains [low], together with that cell's address; it is
    [None] exactly when no cell of that window holds such a text.  This
    holds whatever [str.lower] does to the label and to the texts. *)
Theorem find_label_neighbor_first ws label_text :
  let low := py_lower label_text in
  let found (q : coord) :=
    match cell_value ws q with
    | VStr s => contains low (py_lower s)
    | _ => false
    end in
  same_sheet (find_label_neighbor py_lower ws label_text).1 ws /\
  match (find_label_neighbor py_lower ws label_text).2 with
  | Some (r, c, addr) =>
      exists c0, c = (c0 + 1)%positive /\
        addr = get_column_letter c ++ Calendar.decimal (Npos r) /\
        (r <= 60 /\ c0 <= 30)%positive /\
        found (r, c0) = true /\
        forall q, (q.1 <= 60 /\ q.2 <= 30)%positive -> before q (r, c0) ->
                  found q = false
  | None =>
      forall q, (q.1 <= 60 /\ q.2 <= 30)%positive -> found q = false
  end.
Proof.
  cbv zeta. unfold find_label_neighbor. cbv zeta.
  change (fun q : coord => match cell_value ws q with
                            | VStr s => contains (py_lower label_text) (py_lower s)
                            | _ => false
                            end)
    with (matches (py_lower label_text) ws).
  destruct (look_rows_spec (py_lower label_text)
              (pos_range (Pos.min (ws_max_column ws) 30))
              (pos_range (Pos.min (ws_max_row ws) 60)) ws) as [Hs Hr].
  split; [exact Hs|]. rewrite Hr. clear Hs Hr.
  assert (Hout : forall q,
    ~ (q.1 <= Pos.min (ws_max_row ws) 60 /\ q.2 <= Pos.min (ws_max_column ws) 30)%positive ->
    (q.1 <= 60 /\ q.2 <= 30)%positive -> matches (py_lower label_text) ws q = false).
  { intros q Hq [H1 H2]. unfold matches. rewrite cell_value_outside; [reflexivity | lia]. }
  pose proof (find_grid_least (matches (py_lower label_text) ws)
                (Pos.min (ws_max_row ws) 60) (Pos.min (ws_max_column ws) 30)) as H.
  destruct (List.find _ _) as [[r c0]|]; cbn [fmap option_fmap option_map neighbor fst snd] in *.
  - destruct H as ([H1 H2] & Hp & Hleast). exists c0.
    split; [reflexivity|]. split; [reflexivity|]. split; [lia|]. split; [exact Hp|].
    intros q Hq Hb.
    destruct (decide (q.1 <= Pos.min (ws_max_row ws) 60 /\
                      q.2 <= Pos.min (ws_max_column ws) 30)%positive) as [Hin|Hnin].
    + now apply Hleast.
    + now apply Hout.
  - intros q Hq.
    destruct (decide (q.1 <= Pos.min (ws_max_row ws) 60 /\
                      q.2 <= Pos.min (ws_max_column ws) 30)%positive) as [Hin|Hnin].
    + now apply H.
    + now apply Hout.
Qed.

End Find.

(** On a sheet of ASCII texts, where [PyStr.lower] is [str.lower]: the label
    "total" stands in B3 and in A5, in other letter cases; the neighbour of
    the first one, C3, is returned. *)
Lemma find_label_neighbor_first_witness :
  let ws := sheet_of [((1, 1)%positive, VStr (u "Metrics"));
                      ((3, 2)%positive, VStr (u "Grand TOTAL"));
                      ((3, 3)%positive, VInt 12);
                      ((5, 1)%positive, VStr (u "Total"))] [] in
  same_sheet (find_label_neighbor lower ws (u "Total")).1 ws /\
  exists c0, (3 = c0 + 1)%positive /\
    u "C3" = get_column_letter 3 ++ Calendar.decimal 3 /\
    (3 <= 60 /\ c0 <= 30)%positive /\
    match cell_value ws (3%positive, c0) with
    | VStr s => contains (u "total") (lower s)
    | _ => false
    end = true /\
    forall q, (q.1 <= 60 /\ q.2 <= 30)%positive -> before q (3%positive, c0) ->
      match cell_value ws q with
      | VStr s => contains (u "total") (lower s)
      | _ => false
      end = false.
Proof.
  intros ws.
  pose proof (find_label_neighbor_first lower ws (u "Total")) as H. cbv zeta in H.
  assert (E : (find_label_neighbor lower ws (u "Total")).2
              = Some (3%positive, 3%positive, u "C3")) by (vm_compute; reflexivity).
  rewrite E in H. exact H.
Defined.

End ReadersFacts.

(* ===================================================================== *)
(** * Reading a data sheet back as a frame *)
(* ===================================================================== *)

Module FromSheetFacts.
Import PyStr PyFloat ToNum Sheet DataSheet Readers.
Import SheetFacts SheetMore DataSheetFacts ReadersFacts.

(** The values of row [r] in the columns [cs]. *)
Definition row_values (ws : Worksheet) (r : positive) (cs : list positive)
  : list pyval :=
  (fun c => cell_value ws (r, c)) <$> cs.

(** The columns [1 .. n], as [range(1, n + 1)]. *)
Definition first_cols (n : nat) : list positive := Pos.of_nat <$> seq 1 n.

Lemma read_row_spec r cs : forall ws,
  same_sheet (read_row ws r cs).1 ws /\
  ((r <= ws_max_row ws)%positive -> ws_max_row (read_row ws r cs).1 = ws_max_row ws) /\
  (read_row ws r cs).2 = row_values ws r cs.
Proof.
  induction cs as [|c cs IH]; intros ws.
  - split; [apply same_sheet_refl|]. now split.
  - cbn [read_row]. destruct (IH (cell (r, c) ws)) as (Hs & Hm & Hv).
    destruct (read_row (cell (r, c) ws) r cs) as [ws' vs]. cbn [fst snd] in *.
    split; [exact (same_sheet_trans _ _ _ Hs (same_sheet_cell _ _))|]. split.
    + intros Hr. rewrite <- (ws_max_row_cell_inside ws (r, c) Hr). apply Hm.
      now rewrite (ws_max_row_cell_inside ws (r, c) Hr).
    + rewrite Hv, cell_value_cell. unfold row_values. rewrite fmap_cons. f_equal.
      apply list_fmap_ext. intros _ x _. apply cell_value_cell.
Qed.

Lemma row_values_same a b r cs : same_sheet a b -> row_values a r cs = row_values b r cs.
Proof.
  intros (_&_&_&H). unfold row_values. apply list_fmap_ext. intros _ x _. apply H.
Qed.

Lemma read_rows_spec ncols fuel : forall ws r,
  let res := read_rows fuel ws ncols r in
  same_sheet res.1 ws /\
  ws_max_row res.1 = ws_max_row ws /\
  res.2 = (fun q => row_values ws q (first_cols ncols))
            <$> (Pos.of_nat <$> seq (Pos.to_nat r) (length res.2)) /\
  (forall q, (Pos.to_nat r <= Pos.to_nat q < Pos.to_nat r + length res.2)%nat ->
     (q <= ws_max_row ws)%positive /\ is_blank (cell_value ws (q, 1%positive)) = false) /\
  ((Pos.to_nat (ws_max_row ws) < fuel + Pos.to_nat r)%nat ->
   forall q, Pos.to_nat q = (Pos.to_nat r + length res.2)%nat ->
     (ws_max_row ws < q)%positive \/ is_blank (cell_value ws (q, 1%positive)) = true).
Proof.
  induction fuel as [|fuel IH]; intros ws r; cbv zeta.
  - simpl. split; [apply same_sheet_refl|]. split; [reflexivity|]. split; [reflexivity|].
    split; [intros q Hq; lia|]. intros Hf q Hq. left. lia.
  - cbn [read_rows]. destruct (Pos.leb_spec r (ws_max_row ws)) as [Hr|Hr].
    + rewrite cell_value_cell.
      destruct (is_blank (cell_value ws (r, 1%positive))) eqn:Eb; cbn [negb].
      * simpl. split; [apply same_sheet_cell|].
        split; [now apply ws_max_row_cell_inside|]. split; [reflexivity|].
        split; [intros q Hq; lia|]. intros _ q Hq. right.
        assert (q = r) as -> by lia. exact Eb.
      * pose proof (ws_max_row_cell_inside ws (r, 1%positive) Hr) as Hm1.
        destruct (read_row_spec r (Pos.of_nat <$> seq 1 ncols) (cell (r, 1%positive) ws))
          as (Hs2 & Hm2 & Hv2).
        destruct (read_row (cell (r, 1%positive) ws) r _) as [ws2 row]. cbn [fst snd] in *.
        specialize (Hm2 ltac:(simpl; lia)).
        assert (Hsw : same_sheet ws2 ws)
          by exact (same_sheet_trans _ _ _ Hs2 (same_sheet_cell _ _)).
        specialize (IH ws2 (r + 1)%positive). cbv zeta in IH.
        destruct (read_rows fuel ws2 ncols (r + 1)) as [ws3 rest]. cbn [fst snd] in *.
        destruct IH as (Hs3 & Hm3 & Hv3 & Hrun & Hexit).
        assert (Hval : forall p, cell_value ws2 p = cell_value ws p) by apply Hsw.
        split; [exact (same_sheet_trans _ _ _ Hs3 Hsw)|].
        split; [congruence|]. split; [|split].
        -- cbn [length seq]. rewrite !fmap_cons, Pos2Nat.id. f_equal.
           ++ rewrite Hv2. now apply row_values_same, same_sheet_cell.
           ++ rewrite Hv3 at 1. replace (Pos.to_nat (r + 1)) with (S (Pos.to_nat r)) by lia.
              apply list_fmap_ext. intros _ q _. now apply row_values_same.
        -- intros q Hq. cbn [length] in Hq.
           destruct (decide (q = r)) as [->|Hne]; [now split|].
           destruct (Hrun q) as [H1 H2]; [lia|]. rewrite Hval in H2. split; [lia|exact H2].
        -- intros Hf q Hq. cbn [length] in Hq.
           destruct (Hexit ltac:(lia) q ltac:(lia)) as [H|H]; [left; lia|].
           rewrite Hval in H. now right.
    + simpl. split; [apply same_sheet_refl|]. split; [reflexivity|]. split; [reflexivity|].
      split; [intros q Hq; lia|]. intros _ q Hq. left. lia.
Qed.

Section FromSheet.
Variable py_str : pyval -> str.

Lemma df_from_sheet_some wb name ws :
  get_sheet name wb = Some ws ->
  exists df wb',
    df_from_sheet py_str wb name = (wb', Some df) /\
    columns df =
      header_text py_str <$> row_values ws 1 (pos_range (ws_max_column ws)) /\
    rows df =
      (fun q => row_values ws q (first_cols (length (columns df))))
        <$> (Pos.of_nat <$> seq 2 (length (rows df))) /\
    (forall q, (2 <= Pos.to_nat q < 2 + length (rows df))%nat ->
       (q <= ws_max_row ws)%positive /\
       is_blank (cell_value ws (q, 1%positive)) = false) /\
    (forall q, Pos.to_nat q = (2 + length (rows df))%nat ->
       (ws_max_row ws < q)%positive \/
       is_blank (cell_value ws (q, 1%positive)) = true) /\
    sheetnames wb' = sheetnames wb /\
    (forall other, other <> name -> get_sheet other wb' = get_sheet other wb) /\
    exists ws', get_sheet name wb' = Some ws' /\ same_sheet ws' ws.
Proof.
  intros Hg. unfold df_from_sheet. rewrite Hg.
  destruct (read_row_spec 1 (pos_range (ws_max_column ws)) ws) as (Hs1 & Hm1 & Hv1).
  destruct (read_row ws 1 (pos_range (ws_max_column ws))) as [ws1 hs]. cbn [fst snd] in *.
  specialize (Hm1 ltac:(lia)).
  pose proof (read_rows_spec (length (header_text py_str <$> hs))
                (Pos.to_nat (ws_max_row ws1)) ws1 2) as H. cbv zeta in H.
  destruct (read_rows _ ws1 _ 2) as [ws2 rs]. cbn [fst snd] in *.
  destruct H as (Hs2 & Hm2 & Hv2 & Hrun & Hexit).
  assert (Hsw : same_sheet ws2 ws) by exact (same_sheet_trans _ _ _ Hs2 Hs1).
  assert (Hval : forall p, cell_value ws1 p = cell_value ws p) by apply Hs1.
  assert (Ht : title ws2 = name).
  { destruct Hsw as (-> & _). now apply get_sheet_title in Hg. }
  eexists _, _. split; [reflexivity|]. cbn [columns rows].
  split; [now rewrite Hv1|]. split; [|split; [|split; [|split; [|split]]]].
  - rewrite Hv2 at 1. apply list_fmap_ext. intros _ q _. now apply row_values_same.
  - intros q Hq. destruct (Hrun q ltac:(lia)) as [H1 H2]. rewrite Hval in H2.
    split; [lia | exact H2].
  - intros q Hq. destruct (Hexit ltac:(lia) q ltac:(lia)) as [H|H]; [left; lia|].
    rewrite Hval in H. now right.
  - now apply sheetnames_update.
  - intros other Hne. now apply get_sheet_update_other.
  - exists ws2. split; [|exact Hsw]. now apply (get_sheet_replace name ws).
Qed.

(** X9.  [df_from_sheet] gives nothing for a missing sheet.  Otherwise the
    labels are the texts of row 1 over the used columns, and the rows are
    those from row 2 down to the first blank cell of column A or the end of
    the used area, each read over as many columns as there are labels.
    The workbook keeps its sheets, and the sheet its values. *)
Theorem df_from_sheet_reads wb name :
  match get_sheet name wb with
  | None => df_from_sheet py_str wb name = (wb, None)
  | Some ws =>
      exists df wb',
        df_from_sheet py_str wb name = (wb', Some df) /\
        columns df =
          header_text py_str <$> row_values ws 1 (pos_range (ws_max_column ws)) /\
        rows df =
          (fun q => row_values ws q (first_cols (length (columns df))))
            <$> (Pos.of_nat <$> seq 2 (length (rows df))) /\
        (forall q, (2 <= Pos.to_nat q < 2 + length (rows df))%nat ->
           (q <= ws_max_row ws)%positive /\
           is_blank (cell_value ws (q, 1%positive)) = false) /\
        (forall q, Pos.to_nat q = (2 + length (rows df))%nat ->
           (ws_max_row ws < q)%positive \/
           is_blank (cell_value ws (q, 1%positive)) = true) /\
        sheetnames wb' = sheetnames wb /\
        (forall other, other <> name -> get_sheet other wb' = get_sheet other wb) /\
        exists ws', get_sheet name wb' = Some ws' /\ same_sheet ws' ws
  end.
Proof.
  destruct (get_sheet name wb) as [ws|] eqn:Hg.
  - now apply df_from_sheet_some.
  - unfold df_from_sheet. now rewrite Hg.
Qed.

(** ** Round trip with [write_dataframe_to_sheet] *)








End FromSheet.

End FromSheetFacts.

(* ===================================================================== *)
(** * The month label *)
(* ===================================================================== *)

Module CalendarFacts.
Import PyStr PyFloat ToNum ReportingMonth Calendar ReportingMonthFacts.

(** ** The month before *)

(** Months counted from year 0. *)
Definition month_index (d : date) : Z := 12 * year d + (month d - 1).

Lemma days_in_month_range y m : 28 <= days_in_month y m <= 31.
Proof.
  unfold days_in_month. destruct (m =? 2); [destruct (is_leap y); lia|].
  destruct ((m =? 4) || (m =? 6) || (m =? 9) || (m =? 11)); lia.
Qed.

(** X11.  The label names the calendar month before today's, whatever the day:
    it is the text of the last day of that month, December of the year
    before when today is in January.  In January of year 1 there is no
    month before, and the call raises [OverflowError]. *)
Theorem prev_month_label_previous today :
  valid_date today = true ->
  if (year today =? 1) && (month today =? 1)
  then prev_month_label today = Raise OverflowError
  else exists d,
    prev_month_label today = Ok (strftime_B_Y d) /\
    valid_date d = true /\
    month_index d = month_index today - 1 /\
    day d = days_in_month (year d) (month d).
Proof.
  unfold valid_date. rewrite !andb_true_iff, !Z.leb_le.
  intros (((((Hy1 & Hy2) & Hm1) & Hm2) & Hd1) & Hd2).
  unfold prev_month_label, minus_one_day, replace_day. cbn [year month day].
  change (1 <? 1) with false. cbv iota.
  destruct (Z.ltb_spec 1 (month today)) as [Hm|Hm].
  - replace (month today =? 1) with false by (symmetry; apply Z.eqb_neq; lia).
    rewrite andb_false_r. eexists. split; [reflexivity|].
    unfold valid_date, month_index. cbn [year month day].
    pose proof (days_in_month_range (year today) (month today - 1)).
    split; [|split; [lia | reflexivity]].
    rewrite !andb_true_iff, !Z.leb_le. lia.
  - assert (month today = 1) as -> by lia. change (1 =? 1) with true.
    rewrite andb_true_r.
    destruct (Z.ltb_spec 1 (year today)) as [Hy|Hy].
    + replace (year today =? 1) with false by (symmetry; apply Z.eqb_neq; lia).
      eexists. split; [reflexivity|].
      unfold valid_date, month_index. cbn [year month day].
      split; [|split; [lia | reflexivity]].
      rewrite !andb_true_iff, !Z.leb_le. change (days_in_month _ 12) with 31. lia.
    + assert (year today = 1) as -> by lia. reflexivity.
Qed.

Lemma prev_month_label_previous_witness :
  exists d,
    prev_month_label {| year := 2025; month := 1; day := 15 |} = Ok (strftime_B_Y d) /\
    valid_date d = true /\
    month_index d = month_index {| year := 2025; month := 1; day := 15 |} - 1 /\
    day d = days_in_month (year d) (month d).
Proof.
  exact (prev_month_label_previous {| year := 2025; month := 1; day := 15 |} eq_refl).
Defined.

(** ** The label is never mistaken for a label cell *)

Definition is_digit_char (c : N) : bool := (48 <=? c)%N && (c <=? 57)%N.

Lemma decimal_go_digits fuel : forall n acc,
  forallb is_digit_char acc = true ->
  forallb is_digit_char (decimal_go fuel n acc) = true.
Proof.
  induction fuel as [|fuel IH]; intros n acc Hacc; [exact Hacc|].
  cbn [decimal_go].
  assert (H : forallb is_digit_char ((48 + n mod 10)%N :: acc) = true).
  { cbn [forallb]. rewrite Hacc, andb_true_r. unfold is_digit_char.
    pose proof (N.mod_upper_bound n 10 ltac:(discriminate)) as Hm.
    revert Hm. generalize (n mod 10)%N. intros k Hk.
    apply andb_true_iff. split; apply N.leb_le; lia. }
  destruct (n / 10 =? 0)%N; [exact H | now apply IH].
Qed.

Lemma decimal_digits n : forallb is_digit_char (decimal n) = true.
Proof. now apply decimal_go_digits. Qed.

Lemma mem_digits x s :
  forallb is_digit_char s = true -> is_digit_char x = false -> mem x s = false.
Proof.
  intros Hs Hx. induction s as [|c s IH]; [reflexivity|].
  cbn [forallb] in Hs. apply andb_true_iff in Hs as [Hc Hs].
  rewrite mem_cons, (IH Hs), orb_false_r. apply N.eqb_neq. intros ->. congruence.
Qed.

Lemma lower_digits s : forallb is_digit_char s = true -> lower s = s.
Proof.
  induction s as [|c s IH]; [reflexivity|]. cbn [forallb]. intros [Hc Hs]%andb_true_iff.
  unfold lower in *. cbn [List.map]. rewrite (IH Hs). f_equal.
  unfold is_digit_char in Hc. apply andb_true_iff in Hc as [H1 H2].
  apply N.leb_le in H1, H2. unfold lower_char, in_range.
  replace (65 <=? c)%N with false by (symmetry; apply N.leb_gt; lia).
  replace (192 <=? c)%N with false by (symmetry; apply N.leb_gt; lia).
  replace (216 <=? c)%N with false by (symmetry; apply N.leb_gt; lia).
  reflexivity.
Qed.

Lemma lower_app s t : lower (s ++ t) = lower s ++ lower t.
Proof. apply List.map_app. Qed.

(** A text that contains [needle] has every character of [needle]. *)
Lemma is_prefix_chars p : forall s c,
  is_prefix p s = true -> In c p -> mem c s = true.
Proof.
  induction p as [|a p IH]; intros s c H Hin; [destruct Hin|].
  destruct s as [|b s]; [discriminate|]. cbn [is_prefix] in H.
  apply andb_true_iff in H as [Hab Hp]. apply N.eqb_eq in Hab. subst b.
  rewrite mem_cons. destruct Hin as [->|Hin].
  - now rewrite N.eqb_refl.
  - rewrite (IH s c Hp Hin). apply orb_true_r.
Qed.

Lemma contains_chars needle hay c :
  contains needle hay = true -> In c needle -> mem c hay = true.
Proof.
  induction hay as [|b hay IH]; cbn [contains]; intros H Hin.
  - rewrite orb_false_r in H. now apply (is_prefix_chars needle).
  - apply orb_true_iff in H as [H|H]; [now apply (is_prefix_chars needle)|].
    rewrite mem_cons, (IH H Hin). apply orb_true_r.
Qed.

Lemma month_name_cases m :
  month_name m = [] \/ In (month_name m) MONTH_NAMES.
Proof.
  unfold month_name.
  destruct (nth_in_or_default (Z.to_nat (m - 1)) MONTH_NAMES []) as [H|H];
    [now right | now left].
Qed.

(** No month name has both a "g" and a "p", and none has a colon. *)
Lemma month_name_letters m :
  mem 103 (lower (month_name m)) && mem 112 (lower (month_name m)) = false /\
  mem COLON (month_name m) = false.
Proof.
  destruct (month_name_cases m) as [->|H]; [now split|].
  revert H. generalize (month_name m). intros name H.
  repeat (destruct H as [<-|H]; [now split|]). destruct H.
Qed.

Lemma mem_strftime x d :
  is_digit_char x = false -> x <> SPACE ->
  mem x (lower (strftime_B_Y d)) = mem x (lower (month_name (month d))) /\
  mem x (strftime_B_Y d) = mem x (month_name (month d)).
Proof.
  intros Hx Hs. unfold strftime_B_Y.
  pose proof (decimal_digits (Z.to_N (year d))) as Hd.
  rewrite !lower_app, !mem_app, (lower_digits _ Hd), (mem_digits _ _ Hd Hx).
  change (lower [SPACE]) with [SPACE]. rewrite mem_cons.
  replace (x =? SPACE)%N with false by (symmetry; now apply N.eqb_neq).
  cbn [mem existsb]. now rewrite !orb_false_r.
Qed.

Lemma strftime_is_no_label d :
  is_label (VStr (strftime_B_Y d)) = false /\ mem COLON (strftime_B_Y d) = false.
Proof.
  destruct (month_name_letters (month d)) as [Hgp Hc]. split.
  - cbn [is_label]. destruct (contains NEEDLE (lower (strftime_B_Y d))) eqn:E; [|reflexivity].
    assert (Hg : mem 103 (lower (strftime_B_Y d)) = true).
    { apply (contains_chars NEEDLE); [exact E | vm_compute; tauto]. }
    assert (Hp : mem 112 (lower (strftime_B_Y d)) = true).
    { apply (contains_chars NEEDLE); [exact E | vm_compute; tauto]. }
    rewrite (proj1 (mem_strftime 103 d eq_refl ltac:(discriminate))) in Hg.
    rewrite (proj1 (mem_strftime 112 d eq_refl ltac:(discriminate))) in Hp.
    rewrite Hg, Hp in Hgp. discriminate.
  - now rewrite (proj2 (mem_strftime COLON d eq_refl ltac:(discriminate))).
Qed.

(** X12.  A label the script computes never contains the words "reporting month"
    and never a colon: written right of a label cell, it is not taken for a
    label cell by a later run. *)
Theorem month_label_is_no_label today ml :
  prev_month_label today = Ok ml ->
  is_label (VStr ml) = false /\ mem COLON ml = false.
Proof.
  unfold prev_month_label. destruct (minus_one_day _) as [d|e]; [|discriminate].
  intros [= <-]. apply strftime_is_no_label.
Qed.

Lemma month_label_is_no_label_witness :
  is_label (VStr (u "August 2025")) = false /\ mem COLON (u "August 2025") = false.
Proof.
  exact (month_label_is_no_label {| year := 2025; month := 9; day := 30 |}
           (u "August 2025") eq_refl).
Defined.

End CalendarFacts.

(* ===================================================================== *)
(** * Properties of the workbook passes *)
(* ===================================================================== *)

Module WorkbookFacts.
Import PyStr PyFloat ToNum Sheet ReportingMonth DataSheet Readers Main.
Import SheetFacts DataSheetFacts ReadersFacts ReportingMonthFacts.

(** ** Refilling data sheets *)

Lemma get_sheet_app_other other ws wb :
  title ws <> other -> get_sheet other (wb ++ [ws]) = get_sheet other wb.
Proof.
  intros H. unfold get_sheet. rewrite find_app.
  destruct (List.find _ wb); [reflexivity|]. simpl.
  now rewrite bool_decide_eq_false_2.
Qed.











Section Refresh.
Variable Path : Type.
Variable read_csv_robust : Path -> DataFrame.



End Refresh.

(** ** Stamping the month *)

Lemma title_upsert ws ml : title (upsert_reporting_month ws ml) = title ws.
Proof. destruct (upsert_spec ws ml) as (H&_). exact H. Qed.

Lemma stamped_same a b : title a = title b -> stamped a = stamped b.
Proof. unfold stamped. now intros ->. Qed.

(** X18.  Stamping a workbook a second time, as the READY pass does after the
    WIRED pass, changes nothing, for a label the script computes: on every
    stamped sheet no two merged ranges overlap and the label cell is not
    merged with its right neighbour. *)
Theorem set_reporting_month_twice today label wb :
  Calendar.prev_month_label today = Ok label ->
  (forall ws, In ws wb -> stamped ws = true ->
     ranges_disjoint (merged_cells ws) = true /\
     forall p, first_label ws = Some p -> has_colon (cell_value ws p) = false ->
               anchor_coord ws (p.1, (p.2 + 1)%positive) <> p) ->
  Forall2 same_sheet
    (set_reporting_month_on_workbook label (set_reporting_month_on_workbook label wb))
    (set_reporting_month_on_workbook label wb).
Proof.
  intros Hl H.
  assert (Hnl : is_label (VStr label) = false).
  { unfold Calendar.prev_month_label in Hl.
    destruct (Calendar.minus_one_day _) as [d|e]; [|discriminate].
    injection Hl as <-. apply CalendarFacts.strftime_is_no_label. }
  unfold set_reporting_month_on_workbook. rewrite <- list_fmap_compose.
  induction wb as [|ws wb IH]; [constructor|]. rewrite !fmap_cons.
  constructor; [|apply IH; intros ws' Hin; apply H; now right].
  cbn [compose]. destruct (stamped ws) eqn:Es.
  - rewrite (stamped_same _ ws (title_upsert ws label)), Es.
    destruct (H ws (or_introl eq_refl) Es) as [Hd Hp].
    eapply same_sheet_trans; [apply upsert_spec|].
    eapply same_sheet_trans; [apply stamp_same, upsert_spec|].
    eapply same_sheet_trans; [|apply same_sheet_sym, upsert_spec].
    apply stamp_twice; [exact Hd|]. intros p Hf Hc. split; [now apply Hp | exact Hnl].
  - rewrite Es. apply same_sheet_refl.
Qed.

Lemma set_reporting_month_twice_witness :
  Forall2 same_sheet
    (set_reporting_month_on_workbook SEPTEMBER
       (set_reporting_month_on_workbook SEPTEMBER [two_cell_sheet; same_cell_sheet]))
    (set_reporting_month_on_workbook SEPTEMBER [two_cell_sheet; same_cell_sheet]).
Proof.
  apply (set_reporting_month_twice
           {| Calendar.year := 2025; Calendar.month := 10; Calendar.day := 3 |}
           SEPTEMBER [two_cell_sheet; same_cell_sheet] eq_refl).
  intros ws [<-|[<-|[]]] _; (split; [reflexivity|]); intros p Hp Hc;
    vm_compute in Hp; injection Hp as <-; vm_compute; discriminate.
Defined.

(** ** Dropping the data tabs *)

Definition is_data_tab (ws : Worksheet) : bool := is_prefix (u "Data_") (title ws).

Lemma remove_sheet_first pre x wb :
  (forall ws, In ws pre -> title ws <> title x) ->
  remove_sheet (title x) (pre ++ x :: wb) = pre ++ wb.
Proof.
  intros H. induction pre as [|y pre IH]; simpl.
  - now rewrite bool_decide_eq_true_2.
  - rewrite bool_decide_eq_false_2 by (apply H; now left).
    f_equal. apply IH. intros ws Hin. apply H. now right.
Qed.

Lemma drop_loop wb : forall pre,
  (forall ws, In ws pre -> is_data_tab ws = false) ->
  foldl (fun wb name => if is_prefix (u "Data_") name
                        then remove_sheet name wb else wb)
        (pre ++ wb) (sheetnames wb)
  = pre ++ List.filter (fun ws => negb (is_data_tab ws)) wb.
Proof.
  induction wb as [|x wb IH]; intros pre Hpre; [reflexivity|].
  unfold sheetnames in *. rewrite fmap_cons. cbn [foldl List.filter].
  fold (is_data_tab x). destruct (is_data_tab x) eqn:Ex; cbn [negb].
  - rewrite remove_sheet_first; [now apply IH|].
    intros ws Hin E. specialize (Hpre ws Hin). unfold is_data_tab in *. congruence.
  - change (pre ++ x :: wb) with (pre ++ [x] ++ wb). rewrite app_assoc, IH.
    + now rewrite <- app_assoc.
    + intros ws [Hin|Hin]%in_app_or; [now apply Hpre|].
      destruct Hin as [<-|[]]. exact Ex.
Qed.

(** X19.  The values-only pass drops exactly the sheets whose title starts with
    "Data_": the other sheets stay, unchanged and in order. *)
Theorem drop_data_tabs_filter wb :
  drop_data_tabs wb = List.filter (fun ws => negb (is_data_tab ws)) wb.
Proof. apply (drop_loop wb []). intros ws []. Qed.

End WorkbookFacts.

(* ===================================================================== *)
(** * Finding the CSVs, and runs that cannot open or save *)
(* ===================================================================== *)

Module MainMore.
Import PyStr PyFloat ToNum Sheet ReportingMonth DataSheet Main.
Import SheetFacts DataSheetFacts ReportingMonthFacts WorkbookFacts.

Section Resolve.
Context {Path : Type}.
Variable w : World Path.

(** X20.  [resolve_csv] returns the first file of the first pattern that matches
    a file: every match of an earlier pattern is not a file; and it returns
    nothing exactly when no match of any pattern is a file. *)
Theorem resolve_csv_first_pattern patterns :
  match resolve_csv Path w patterns with
  | Some p =>
      exists earlier pat later,
        patterns = earlier ++ pat :: later /\
        (forall pat' q, In pat' earlier -> In q (glob Path w pat') ->
                        is_file Path w q = false) /\
        List.find (is_file Path w) (glob Path w pat) = Some p
  | None =>
      forall pat q, In pat patterns -> In q (glob Path w pat) ->
                    is_file Path w q = false
  end.
Proof.
  unfold resolve_csv. induction patterns as [|pat pats IH]; [intros pat q []|].
  cbn [List.flat_map]. rewrite find_app.
  destruct (List.find (is_file Path w) (glob Path w pat)) as [p|] eqn:E.
  - exists [], pat, pats. split; [reflexivity|]. split; [intros pat' q []|exact E].
  - destruct (List.find _ (List.flat_map _ pats)) as [p|].
    + destruct IH as (earlier & pat0 & later & -> & Hno & Hf).
      exists (pat :: earlier), pat0, later. split; [reflexivity|]. split; [|exact Hf].
      intros pat' q [<-|Hin] Hq; [|now apply (Hno pat')].
      exact (find_none _ _ E q Hq).
    + intros pat' q [<-|Hin] Hq; [exact (find_none _ _ E q Hq) | now apply (IH pat')].
Qed.

Lemma in_resolved table k p :
  In (k, p) (resolved Path w table) <->
  exists pats, In (k, pats) table /\ resolve_csv Path w pats = Some p.
Proof.
  unfold resolved. rewrite <- list_elem_of_In, list_elem_of_omap. split.
  - intros ([k' pats] & Hin & H). cbn [fst snd] in H.
    destruct (resolve_csv Path w pats) as [p'|] eqn:E; [|discriminate].
    injection H as <- <-. exists pats. split; [now apply list_elem_of_In | exact E].
  - intros (pats & Hin & E). exists (k, pats). split; [now apply list_elem_of_In|].
    cbn [fst snd]. now rewrite E.
Qed.

Lemma in_missing table k :
  In k (missing Path w table) <->
  exists pats, In (k, pats) table /\ resolve_csv Path w pats = None.
Proof.
  unfold missing. rewrite <- list_elem_of_In, list_elem_of_omap. split.
  - intros ([k' pats] & Hin & H). cbn [fst snd] in H.
    destruct (resolve_csv Path w pats) as [p'|] eqn:E; [discriminate|].
    injection H as <-. exists pats. split; [now apply list_elem_of_In | exact E].
  - intros (pats & Hin & E). exists (k, pats). split; [now apply list_elem_of_In|].
    cbn [fst snd]. now rewrite E.
Qed.

Lemma resolved_keys_sublist table :
  sublist ((resolved Path w table).*1) (table.*1).
Proof.
  unfold resolved. induction table as [|[k pats] table IH]; [constructor|].
  cbn [omap list_omap fst snd]. destruct (resolve_csv Path w pats).
  - rewrite !fmap_cons. now constructor.
  - rewrite fmap_cons. now constructor.
Qed.

(** X21.  The sheets of the table are split between those found and those
    missing: a sheet is found with the file [resolve_csv] gives for its
    patterns and is missing when it gives none; both lists keep the order of
    the table, and nothing is missing exactly when every sheet is found. *)
Theorem resolve_csvs_partition table :
  (forall k p, In (k, p) (resolved Path w table) <->
     exists pats, In (k, pats) table /\ resolve_csv Path w pats = Some p) /\
  (forall k, In k (missing Path w table) <->
     exists pats, In (k, pats) table /\ resolve_csv Path w pats = None) /\
  sublist ((resolved Path w table).*1) (table.*1) /\
  (length (resolved Path w table) + length (missing Path w table))%nat = length table /\
  (missing Path w table = [] <-> (resolved Path w table).*1 = table.*1).
Proof.
  split; [apply in_resolved|]. split; [apply in_missing|].
  split; [apply resolved_keys_sublist|].
  unfold resolved, missing.
  induction table as [|[k pats] table [IH1 IH2]]; [now split|].
  cbn [omap list_omap fst snd length]. destruct (resolve_csv Path w pats).
  - rewrite !fmap_cons. cbn [length fst]. split; [lia|]. rewrite IH2. split.
    + now intros ->.
    + now intros [= ->].
  - cbn [length]. split; [lia|]. split; [discriminate|]. intros H. exfalso.
    pose proof (resolved_keys_sublist table) as Hs. unfold resolved in Hs.
    rewrite H in Hs. apply sublist_length in Hs. rewrite fmap_cons in Hs.
    cbn [length] in Hs. lia.
Qed.

End Resolve.

Section Runs.
Context {Path : Type}.
Variable read_csv_robust : Path -> DataFrame.
Variable wire_visible_sheets : Workbook -> Workbook.
Variable ensure_report_formulas_and_cosmetics : Workbook -> Workbook.
Variable ready_values_only : Workbook -> Workbook.
Variable prev_month_label : str.



End Runs.


End MainMore.

(* ===================================================================== *)
(** * Wiring the report sheets *)
(* ===================================================================== *)

Module Wiring.
Import PyStr PyFloat ToNum Sheet DataSheet Readers.

Definition DQUOTE : N := 34.

(** A text between double quotes. *)
Definition quoted (s : str) : str := [DQUOTE] ++ s ++ [DQUOTE].

(** [{n}] in an f-string. *)
Definition dec (n : nat) : str := Calendar.decimal (N.of_nat n).

(** The columns A .. H, and the address of a column and a row. *)
Definition cA : positive := 1.
Definition cB : positive := 2.
Definition cC : positive := 3.
Definition cD : positive := 4.
Definition cE : positive := 5.
Definition cF : positive := 6.
Definition cG : positive := 7.
Definition cH : positive := 8.

Definition addr (c : positive) (r : nat) : coord := (Pos.of_nat r, c).

(** ** Metrics *)

Definition lookup_metric (name : string) : str :=
  u "=IFERROR(INDEX(Data_Metrics!$1:$1048576,2,MATCH(" ++ quoted (u name)
  ++ u ",Data_Metrics!$1:$1,0))," ++ quoted [] ++ u ")".

Definition lookup_metric_or (name alt : string) : str :=
  u "=IFERROR(INDEX(Data_Metrics!$1:$1048576,2,MATCH(" ++ quoted (u name)
  ++ u ",Data_Metrics!$1:$1,0)),IFERROR(INDEX(Data_Metrics!$1:$1048576,2,MATCH("
  ++ quoted (u alt) ++ u ",Data_Metrics!$1:$1,0))," ++ quoted [] ++ u "))".

Definition METRICS : list (coord * str) :=
  [ (addr cB 7, lookup_metric "CNT_DPAN_DEBIT");
    (addr cC 7, lookup_metric "CNT_DPAN_CREDIT");
    (addr cD 7, lookup_metric "CNT_DPAN_PP");
    (addr cE 7, u "=SUM(B7:D7)");
    (addr cB 8, lookup_metric "SUM_EXP_DPAN_DEBIT");
    (addr cC 8, lookup_metric "SUM_EXP_DPAN_CREDIT");
    (addr cD 8, lookup_metric_or "SUM_EXP_DPAN_PP" "SUM_EXP_DPAN_POS_PP");
    (addr cE 8, u "=SUM(B8:D8)");
    (addr cB 9, lookup_metric "PERC_DPAN_POS_DEBIT");
    (addr cC 9, lookup_metric "PERC_DPAN_POS_CREDIT");
    (addr cD 9, lookup_metric "PERC_DPAN_POS_PP");
    (addr cE 9, u "=(B7*B9 + C7*C9 + D7*D9) / IF(E7=0,1,E7)");
    (addr cB 10, lookup_metric "PERC_DPAN_REM_DEBIT");
    (addr cC 10, lookup_metric "PERC_DPAN_REM_CREDIT");
    (addr cD 10, lookup_metric "PERC_DPAN_REM_PP");
    (addr cE 10, u "=1 - E9");
    (addr cB 11, lookup_metric "PERC_EXP_DPAN_POS_DEBIT");
    (addr cC 11, lookup_metric "PERC_EXP_DPAN_POS_CREDIT");
    (addr cD 11, lookup_metric "PERC_EXP_DPAN_POS_PP");
    (addr cE 11, u "=(B8*B11 + C8*C11 + D8*D11) / IF(E8=0,1,E8)");
    (addr cB 12, lookup_metric "PERC_EXP_DPAN_REM_DEBIT");
    (addr cC 12, lookup_metric "PERC_EXP_DPAN_REM_CREDIT");
    (addr cD 12, lookup_metric "PERC_EXP_DPAN_REM_PP");
    (addr cE 12, u "=1 - E11");
    (addr cB 14, lookup_metric "CNT_ACTIVE_DPAN_DEBIT");
    (addr cC 14, lookup_metric "CNT_ACTIVE_DPAN_CREDIT");
    (addr cD 14, lookup_metric "CNT_ACTIVE_DPAN_PP");
    (addr cE 14, u "=SUM(B14:D14)") ].

(** ** Declines *)

(** [=IFERROR(INDEX(sheet!$col:$col,off),"")] *)
Definition index_column (sheet col : string) (off : nat) : str :=
  u "=IFERROR(INDEX(" ++ u sheet ++ u "!$" ++ u col ++ u ":$" ++ u col ++ u ","
  ++ dec off ++ u ")," ++ quoted [] ++ u ")".

(** The body of [for i in range(n)]: [r = 8 + i; off = i + 2]. *)
Definition declines_row (i : nat) : list (coord * str) :=
  let r := (8 + i)%nat in
  let off := (i + 2)%nat in
  [ (addr cA r, index_column "Data_Declines" "A" off);
    (addr cB r, index_column "Data_Declines" "B" off);
    (addr cC r, index_column "Data_Declines" "C" off);
    (addr cD r, index_column "Data_Declines" "D" off);
    (addr cF r, index_column "Data_Declines" "E" off);
    (addr cG r, index_column "Data_Declines" "F" off);
    (addr cH r, index_column "Data_Declines" "G" off) ].

Definition DECLINE_LABELS : list str :=
  [ u "Transaction Size";
    u "< 10" ++ [EURO];
    [EURO] ++ u "10 - " ++ [EURO] ++ u "25";
    [EURO] ++ u "25 - " ++ [EURO] ++ u "50";
    [EURO] ++ u "50 - " ++ [EURO] ++ u "100";
    [EURO] ++ u "100 - " ++ [EURO] ++ u "250";
    [EURO] ++ u "250 - " ++ [EURO] ++ u "1000";
    u ">= " ++ [EURO] ++ u "1000";
    u "Total" ].

(** The assignments of the Declines block, in order, for [n] data rows. *)
Definition declines (n : nat) : list (coord * str) :=
  List.flat_map declines_row (seq 0 n)
  ++ imap (fun i text => (addr cA (7 + i), text)) DECLINE_LABELS
  ++ [ (addr cA 17, u "* Leave cell blank if not applicable");
       (addr cB 15, u "=SUM(B8:B14)"); (addr cC 15, u "=SUM(C8:C14)");
       (addr cF 15, u "=SUM(F8:F14)"); (addr cG 15, u "=SUM(G8:G14)") ].

(** ** Usage Frequency *)

Definition usage_row (r : nat) : list (coord * str) :=
  [ (addr cF r, u "=IFERROR(INDEX(Data_Usage!$1:$2,2,MATCH($B" ++ dec r
                ++ u ",Data_Usage!$1:$1,0))," ++ quoted [] ++ u ")");
    (addr cG r, u "=IFERROR(IF($F" ++ dec r ++ u "=0,0,$F" ++ dec r
                ++ u "/$F$19)," ++ quoted [] ++ u ")") ].

(** [for r in range(8, 19)], then the total. *)
Definition USAGE : list (coord * str) :=
  List.flat_map usage_row (seq 8 11) ++ [ (addr cF 19, u "=SUM(F8:F18)") ].

(** ** Merchant Report *)

(** The body of [for i in range(100)]: [r = 7 + i; off = i + 2]. *)
Definition merchant_row (i : nat) : list (coord * str) :=
  let r := (7 + i)%nat in
  let off := (i + 2)%nat in
  [ (addr cA r, index_column "Data_Merchant" "A" off);
    (addr cB r, index_column "Data_Merchant" "B" off);
    (addr cC r, index_column "Data_Merchant" "C" off);
    (addr cD r, index_column "Data_Merchant" "D" off);
    (addr cE r, index_column "Data_Merchant" "E" off) ].

Definition MERCHANT : list (coord * str) :=
  List.flat_map merchant_row (seq 0 100).

(** The Bancontact script looks the columns up by their header. *)
Definition index_header (name : string) (off : nat) : str :=
  u "=IFERROR(INDEX(Data_Merchant!$1:$1048576," ++ dec off ++ u ",MATCH("
  ++ quoted (u name) ++ u ",Data_Merchant!$1:$1,0))," ++ quoted [] ++ u ")".

Definition merchant_row_by_header (i : nat) : list (coord * str) :=
  let r := (7 + i)%nat in
  let off := (i + 2)%nat in
  [ (addr cA r, index_header "RANK" off);
    (addr cB r, index_header "NOM_CMR" off);
    (addr cC r, index_header "PERC" off);
    (addr cD r, index_header "SPENT" off);
    (addr cE r, index_header "CNT" off) ].

Definition MERCHANT_BY_HEADER : list (coord * str) :=
  List.flat_map merchant_row_by_header (seq 0 100).

(** ** Fraud *)

Definition fraud_formula (col : string) (r : nat) : str :=
  u "=IF(OR($A" ++ dec r ++ u "=" ++ quoted [] ++ u ",ISNUMBER(SEARCH("
  ++ quoted (u "Leave cell blank") ++ u ",$A" ++ dec r ++ u "))),"
  ++ quoted [] ++ u ","
  ++ u "IFERROR(INDEX(Data_Fraud!$" ++ u col ++ u ":$" ++ u col ++ u ","
  ++ u "MATCH(SUBSTITUTE($A" ++ dec r ++ u "," ++ quoted (u "Devices") ++ u ","
  ++ quoted (u "DPANs") ++ u "),Data_Fraud!$A:$A,0))," ++ quoted [] ++ u "))".

Definition fraud_row (r : nat) : list (coord * str) :=
  [ (addr cB r, fraud_formula "B" r);
    (addr cC r, fraud_formula "C" r);
    (addr cD r, fraud_formula "D" r);
    (addr cE r, fraud_formula "E" r) ].

(** [for r in range(7, 47)] *)
Definition FRAUD : list (coord * str) :=
  List.flat_map fraud_row (seq 7 40).

(** ** Assigning *)

(** A cell of a merged range other than its top-left one.  openpyxl keeps a
    [MergedCell] there, whose [value] is read-only. *)
Definition is_merged_cell (ws : Worksheet) (p : coord) : bool :=
  existsb (fun mr => in_cell_range p mr &&
                     negb (bool_decide (p = (min_row mr, min_col mr))))
          (merged_cells ws).

(** [ws[addr].value = text]; [None] stands for the [AttributeError] that
    assigning to a [MergedCell] raises. *)
Definition assign (ws : Worksheet) (a : coord * str) : option Worksheet :=
  if is_merged_cell ws a.1 then None
  else Some (set_value a.1 (VStr a.2) ws).

Fixpoint assign_all (l : list (coord * str)) (ws : Worksheet)
  : option Worksheet :=
  match l with
  | [] => Some ws
  | a :: t =>
      match assign ws a with
      | Some ws' => assign_all t ws'
      | None => None
      end
  end.

(** One [if report in wb.sheetnames and data in wb.sheetnames:] block:
    [assignments] gives the statements of its body, and the workbook as the
    calls made on the way leave it. *)
Record block := {
  report : str;
  data : str;
  assignments : Workbook -> Workbook * list (coord * str)
}.

Definition run_block (b : block) (wb : Workbook) : option Workbook :=
  if has_sheet (report b) wb && has_sheet (data b) wb then
    let '(wb, l) := assignments b wb in
    match get_sheet (report b) wb with
    | Some ws =>
        match assign_all l ws with
        | Some ws' => Some (update_sheet (report b) (fun _ => ws') wb)
        | None => None
        end
    | None => Some wb
    end
  else Some wb.

Fixpoint run_blocks (bs : list block) (wb : Workbook) : option Workbook :=
  match bs with
  | [] => Some wb
  | b :: t =>
      match run_block b wb with
      | Some wb' => run_blocks t wb'
      | None => None
      end
  end.

Definition fixed (l : list (coord * str)) (wb : Workbook)
  : Workbook * list (coord * str) := (wb, l).

Definition metrics_block : block :=
  {| report := u "Metrics"; data := u "Data_Metrics"; assignments := fixed METRICS |}.

(** [n = data_nrows(wb, "Data_Declines")] *)
Definition declines_block : block :=
  {| report := u "Declines"; data := u "Data_Declines";
     assignments := fun wb =>
       let '(wb, n) := data_nrows wb (u "Data_Declines") 1 in (wb, declines n) |}.

Definition usage_block : block :=
  {| report := u "Usage Frequency"; data := u "Data_Usage"; assignments := fixed USAGE |}.

Definition merchant_block : block :=
  {| report := u "Merchant Report"; data := u "Data_Merchant";
     assignments := fixed MERCHANT |}.

Definition merchant_by_header_block : block :=
  {| report := u "Merchant Report"; data := u "Data_Merchant";
     assignments := fixed MERCHANT_BY_HEADER |}.

Definition fraud_block : block :=
  {| report := u "Fraud"; data := u "Data_Fraud"; assignments := fixed FRAUD |}.

(** The blocks of [wire_visible_sheets(wb)] of the Belfius script, which are
    also those of [ensure_report_formulas_and_cosmetics(wb)] of the older
    Belfius script, in order. *)
Definition BELFIUS_BLOCKS : list block :=
  [metrics_block; declines_block; usage_block; merchant_block; fraud_block].

(** The blocks of [ensure_report_formulas_and_cosmetics(wb)] of the
    Bancontact script: no Fraud block, and the merchant columns by header. *)
Definition BANCONTACT_BLOCKS : list block :=
  [metrics_block; declines_block; usage_block; merchant_by_header_block].

Definition wire_visible_sheets : Workbook -> option Workbook :=
  run_blocks BELFIUS_BLOCKS.

Definition ensure_report_formulas_and_cosmetics : Workbook -> option Workbook :=
  run_blocks BANCONTACT_BLOCKS.

End Wiring.

(* ===================================================================== *)
(** * Properties of the wiring *)
(* ===================================================================== *)

Module WiringFacts.
Import PyStr PyFloat ToNum Sheet DataSheet Readers Wiring.
Import SheetFacts DataSheetFacts ReadersFacts.

(** ** A list of assignments on one sheet *)

(** The value at [q] after the assignments [l], when it was [d] before. *)
Fixpoint final (l : list (coord * str)) (q : coord) (d : pyval) : pyval :=
  match l with
  | [] => d
  | a :: t => final t q (if decide (a.1 = q) then VStr a.2 else d)
  end.

Lemma final_app l1 l2 q d : final (l1 ++ l2) q d = final l2 q (final l1 q d).
Proof. revert d. induction l1 as [|a l1 IH]; intros d; [reflexivity | apply IH]. Qed.

(** [q] is either left alone or ends with a value that does not depend on
    what it held. *)
Lemma final_cases l q :
  (forall d, final l q d = d) \/ (exists v, forall d, final l q d = v).
Proof.
  induction l as [|a l IH]; [now left|]. cbn [final].
  destruct IH as [IH|[v IH]].
  - destruct (decide (a.1 = q)); [right; eexists; intros d; apply IH | left; intros d; apply IH].
  - right. exists v. intros d. apply IH.
Qed.

Lemma final_twice l q d : final l q (final l q d) = final l q d.
Proof. destruct (final_cases l q) as [H|[v H]]; now rewrite !H. Qed.

Lemma final_untouched l q d :
  (forall a, In a l -> a.1 <> q) -> final l q d = d.
Proof.
  revert d. induction l as [|a l IH]; intros d H; [reflexivity|]. cbn [final].
  destruct (decide (a.1 = q)) as [E|_]; [now destruct (H a (or_introl eq_refl))|].
  apply IH. intros a' Hin. apply H. now right.
Qed.

(** An address that is assigned, always with the same text, ends with that
    text. *)
Lemma final_assigned l q s d :
  In (q, s) l -> (forall a, In a l -> a.1 = q -> a.2 = s) ->
  final l q d = VStr s.
Proof.
  induction l as [|a l IH] using rev_ind; intros Hin Hsame; [destruct Hin|].
  rewrite final_app. cbn [final]. destruct (decide (a.1 = q)) as [E|E].
  - f_equal. apply Hsame; [apply in_or_app; right; now left | exact E].
  - apply IH.
    + apply in_app_or in Hin as [Hin|[->|[]]]; [exact Hin | now destruct E].
    + intros a' Ha'. apply Hsame. apply in_or_app. now left.
Qed.

Lemma merged_cells_set_value p v ws : merged_cells (set_value p v ws) = merged_cells ws.
Proof. reflexivity. Qed.

Lemma is_merged_cell_same a b p :
  merged_cells a = merged_cells b -> is_merged_cell a p = is_merged_cell b p.
Proof. unfold is_merged_cell. now intros ->. Qed.

(** What a run of assignments leaves, when none fails. *)
Lemma assign_all_spec l : forall ws ws',
  assign_all l ws = Some ws' ->
  title ws' = title ws /\ merged_cells ws' = merged_cells ws /\
  sheet_state ws' = sheet_state ws /\
  forall q, cell_value ws' q = final l q (cell_value ws q).
Proof.
  induction l as [|a l IH]; intros ws ws' H.
  - injection H as <-. now repeat split.
  - cbn [assign_all] in H. unfold assign in H.
    destruct (is_merged_cell ws a.1); [discriminate|].
    destruct (IH _ _ H) as (Ht & Hm & Hs & Hv).
    split; [exact Ht|]. split; [exact Hm|]. split; [exact Hs|].
    intros q. rewrite Hv, cell_value_set_value. reflexivity.
Qed.

(** A run of assignments fails exactly when one of its cells is a merged
    cell. *)
Lemma assign_all_none l : forall ws,
  assign_all l ws = None <-> exists a, In a l /\ is_merged_cell ws a.1 = true.
Proof.
  induction l as [|a l IH]; intros ws; cbn [assign_all].
  - split; [discriminate | intros (a & [] & _)].
  - unfold assign. destruct (is_merged_cell ws a.1) eqn:E.
    + split; [intros _; exists a; split; [now left | exact E] | reflexivity].
    + rewrite IH. split.
      * intros (a' & Hin & Hm). exists a'. split; [now right | exact Hm].
      * intros (a' & [<-|Hin] & Hm); [congruence|]. exists a'. split; [exact Hin | exact Hm].
Qed.

Lemma assign_all_same l a b :
  same_sheet a b ->
  match assign_all l a, assign_all l b with
  | Some a', Some b' => same_sheet a' b'
  | None, None => True
  | _, _ => False
  end.
Proof.
  intros (Ht & Hm & Hs & Hv).
  destruct (assign_all l a) as [a'|] eqn:Ea; destruct (assign_all l b) as [b'|] eqn:Eb.
  - destruct (assign_all_spec _ _ _ Ea) as (Ht1 & Hm1 & Hs1 & Hv1).
    destruct (assign_all_spec _ _ _ Eb) as (Ht2 & Hm2 & Hs2 & Hv2).
    split; [congruence|]. split; [congruence|]. split; [congruence|].
    intros q. now rewrite Hv1, Hv2, Hv.
  - apply assign_all_none in Eb as (x & Hin & Hx).
    rewrite <- (is_merged_cell_same a b _ Hm) in Hx.
    assert (assign_all l a = None) by (apply assign_all_none; now exists x). congruence.
  - apply assign_all_none in Ea as (x & Hin & Hx).
    rewrite (is_merged_cell_same a b _ Hm) in Hx.
    assert (assign_all l b = None) by (apply assign_all_none; now exists x). congruence.
  - exact I.
Qed.

(** Running the assignments again on their result changes nothing. *)
Lemma assign_all_again l ws ws' :
  assign_all l ws = Some ws' ->
  exists ws'', assign_all l ws' = Some ws'' /\ same_sheet ws'' ws'.
Proof.
  intros H. destruct (assign_all_spec _ _ _ H) as (Ht & Hm & Hs & Hv).
  destruct (assign_all l ws') as [ws''|] eqn:E.
  - exists ws''. split; [reflexivity|].
    destruct (assign_all_spec _ _ _ E) as (Ht2 & Hm2 & Hs2 & Hv2).
    split; [exact Ht2|]. split; [exact Hm2|]. split; [exact Hs2|].
    intros q. now rewrite Hv2, Hv, final_twice.
  - apply assign_all_none in E as (x & Hin & Hx).
    rewrite (is_merged_cell_same ws' ws _ Hm) in Hx.
    assert (assign_all l ws = None) by (apply assign_all_none; now exists x). congruence.
Qed.

(** ** Blocks on a workbook *)

(** Two looked-up sheets hold the same, or both are missing. *)
Definition same_opt (a b : option Worksheet) : Prop :=
  match a, b with
  | Some x, Some y => same_sheet x y
  | None, None => True
  | _, _ => False
  end.

Definition applicable (b : block) (wb : Workbook) : bool :=
  has_sheet (report b) wb && has_sheet (data b) wb.

(** What the calls made while a block computes its assignments may do: they
    keep the tabs and what every sheet holds, leave the report sheet alone,
    and depend on the data sheet only. *)
Definition respects (b : block) : Prop :=
  (forall wb,
     sheetnames (assignments b wb).1 = sheetnames wb /\
     (forall name, same_opt (get_sheet name (assignments b wb).1) (get_sheet name wb)) /\
     get_sheet (report b) (assignments b wb).1 = get_sheet (report b) wb) /\
  (forall wb1 wb2,
     same_opt (get_sheet (data b) wb1) (get_sheet (data b) wb2) ->
     (assignments b wb1).2 = (assignments b wb2).2).

Definition wired (bs : list block) : Prop :=
  Forall respects bs /\ NoDup (report <$> bs) /\
  forall b b', In b bs -> In b' bs -> data b <> report b'.

Lemma same_opt_refl a : same_opt a a.
Proof. destruct a; [apply same_sheet_refl | exact I]. Qed.

Lemma same_opt_sym a b : same_opt a b -> same_opt b a.
Proof. destruct a, b; simpl; auto using same_sheet_sym. Qed.

Lemma same_opt_trans a b c : same_opt a b -> same_opt b c -> same_opt a c.
Proof. destruct a, b, c; simpl; try tauto. apply same_sheet_trans. Qed.

Lemma has_sheet_names name wb1 wb2 :
  sheetnames wb1 = sheetnames wb2 -> has_sheet name wb1 = has_sheet name wb2.
Proof. unfold has_sheet. now intros ->. Qed.

Lemma applicable_names b wb1 wb2 :
  sheetnames wb1 = sheetnames wb2 -> applicable b wb1 = applicable b wb2.
Proof. intros H. unfold applicable. now rewrite !(has_sheet_names _ wb1 wb2 H). Qed.

Lemma has_sheet_some name wb :
  has_sheet name wb = true -> exists ws, get_sheet name wb = Some ws.
Proof.
  intros H. destruct (get_sheet name wb) as [ws|] eqn:E; [now exists ws|].
  apply get_sheet_none in E. congruence.
Qed.

Lemma run_block_step b wb :
  respects b ->
  match run_block b wb with
  | Some wb' =>
      sheetnames wb' = sheetnames wb /\
      (forall name, name <> report b ->
         same_opt (get_sheet name wb') (get_sheet name wb)) /\
      (if applicable b wb
       then exists ws ws',
              get_sheet (report b) wb = Some ws /\
              assign_all (assignments b wb).2 ws = Some ws' /\
              get_sheet (report b) wb' = Some ws'
       else wb' = wb)
  | None =>
      applicable b wb = true /\
      exists ws, get_sheet (report b) wb = Some ws /\
                 assign_all (assignments b wb).2 ws = None
  end.
Proof.
  intros [Hb _]. unfold run_block. fold (applicable b wb).
  destruct (applicable b wb) eqn:Ea.
  - destruct (Hb wb) as (Hn & Hv & Hr).
    destruct (assignments b wb) as [wb1 l]. cbn [fst snd] in *.
    apply andb_true_iff in Ea as [Ea _].
    destruct (has_sheet_some _ _ Ea) as [ws Hws]. rewrite Hr, Hws.
    destruct (assign_all l ws) as [ws'|] eqn:El.
    + assert (Ht : title ws' = report b).
      { destruct (assign_all_spec _ _ _ El) as (-> & _). now apply get_sheet_title in Hws. }
      split; [now rewrite sheetnames_update|]. split.
      * intros name Hne. rewrite get_sheet_update_other by auto. apply Hv.
      * exists ws, ws'. split; [reflexivity|]. split; [exact El|].
        apply (get_sheet_replace _ ws); [congruence | exact Ht].
    + split; [reflexivity|]. exists ws. split; [reflexivity | exact El].
  - split; [reflexivity|]. split; [intros; apply same_opt_refl | reflexivity].
Qed.

(** A later block finds what it needs as it was. *)
Lemma block_transfer b wb wb1 :
  respects b ->
  sheetnames wb1 = sheetnames wb ->
  same_opt (get_sheet (report b) wb1) (get_sheet (report b) wb) ->
  same_opt (get_sheet (data b) wb1) (get_sheet (data b) wb) ->
  applicable b wb1 = applicable b wb /\
  (assignments b wb1).2 = (assignments b wb).2.
Proof.
  intros [_ Hb] Hn Hr Hd. split; [now apply applicable_names | now apply Hb].
Qed.

Lemma run_blocks_spec bs : wired bs -> forall wb,
  match run_blocks bs wb with
  | Some wb' =>
      sheetnames wb' = sheetnames wb /\
      (forall name, ~ In name (report <$> bs) ->
         same_opt (get_sheet name wb') (get_sheet name wb)) /\
      (forall b, In b bs ->
         if applicable b wb
         then exists ws ws',
                get_sheet (report b) wb = Some ws /\
                assign_all (assignments b wb).2 ws = Some ws' /\
                same_opt (get_sheet (report b) wb') (Some ws')
         else same_opt (get_sheet (report b) wb') (get_sheet (report b) wb))
  | None =>
      exists b, In b bs /\ applicable b wb = true /\
        exists ws, get_sheet (report b) wb = Some ws /\
                   assign_all (assignments b wb).2 ws = None
  end.
Proof.
  induction bs as [|b t IH]; intros Hw wb.
  - cbn [run_blocks]. split; [reflexivity|].
    split; [intros; apply same_opt_refl | intros b []].
  - destruct Hw as (Hres & Hnd & Hdr).
    apply Forall_cons in Hres as [Hb Hres]. rewrite fmap_cons in Hnd.
    apply NoDup_cons in Hnd as [Hnb Hnd].
    assert (Hwt : wired t).
    { split; [exact Hres|]. split; [exact Hnd|].
      intros x y Hx Hy. apply Hdr; now right. }
    assert (Hneq : forall b', In b' t -> report b' <> report b).
    { intros b' Hin E. apply Hnb. rewrite <- E.
      apply list_elem_of_fmap. exists b'. split; [reflexivity | now apply list_elem_of_In]. }
    cbn [run_blocks]. pose proof (run_block_step b wb Hb) as Hstep.
    destruct (run_block b wb) as [wb1|].
    + destruct Hstep as (Hn1 & Ho1 & Hr1).
      assert (Htr : forall b', In b' t ->
                applicable b' wb1 = applicable b' wb /\
                (assignments b' wb1).2 = (assignments b' wb).2 /\
                same_opt (get_sheet (report b') wb1) (get_sheet (report b') wb)).
      { intros b' Hin.
        assert (Hr : same_opt (get_sheet (report b') wb1) (get_sheet (report b') wb))
          by (apply Ho1; now apply Hneq).
        assert (Hd : same_opt (get_sheet (data b') wb1) (get_sheet (data b') wb))
          by (apply Ho1; apply Hdr; [now right | now left]).
        destruct (block_transfer b' wb wb1) as [H1 H2]; auto.
        apply (proj1 (Forall_forall _ _) Hres). now apply list_elem_of_In. }
      specialize (IH Hwt wb1). destruct (run_blocks t wb1) as [wb'|].
      * destruct IH as (Hn & Ho & Hr). split; [congruence|]. split.
        -- intros name Hname. rewrite fmap_cons in Hname.
           eapply same_opt_trans; [apply Ho | apply Ho1].
           ++ intros H. apply Hname. now right.
           ++ intros ->. apply Hname. now left.
        -- intros b' [<-|Hin].
           ++ assert (Hb' : same_opt (get_sheet (report b) wb') (get_sheet (report b) wb1)).
              { apply Ho. intros H. apply Hnb. now apply list_elem_of_In. }
              destruct (applicable b wb).
              ** destruct Hr1 as (ws & ws' & Hg & Ha & Hg1). exists ws, ws'.
                 split; [exact Hg|]. split; [exact Ha|]. now rewrite <- Hg1.
              ** now subst wb1.
           ++ destruct (Htr b' Hin) as (Ha & Hl & Hs). specialize (Hr b' Hin).
              rewrite Ha, Hl in Hr. destruct (applicable b' wb).
              ** destruct Hr as (ws1 & ws1' & Hg1 & Ha1 & Hs1).
                 rewrite Hg1 in Hs. destruct (get_sheet (report b') wb) as [ws|]; [|destruct Hs].
                 pose proof (assign_all_same (assignments b' wb).2 ws1 ws Hs) as Hsame.
                 rewrite Ha1 in Hsame.
                 destruct (assign_all (assignments b' wb).2 ws) as [ws'|] eqn:Ew;
                   [|destruct Hsame].
                 exists ws, ws'. split; [reflexivity|]. split; [exact Ew|].
                 eapply same_opt_trans; [exact Hs1 | exact Hsame].
              ** eapply same_opt_trans; [exact Hr | exact Hs].
      * destruct IH as (b' & Hin & Ha & ws1 & Hg1 & Hf).
        destruct (Htr b' Hin) as (Ha' & Hl & Hs).
        exists b'. split; [now right|]. split; [congruence|].
        rewrite Hg1 in Hs. destruct (get_sheet (report b') wb) as [ws|]; [|destruct Hs].
        exists ws. split; [reflexivity|].
        pose proof (assign_all_same (assignments b' wb).2 ws1 ws Hs) as Hsame.
        rewrite <- Hl, Hf in Hsame. rewrite <- Hl.
        destruct (assign_all (assignments b' wb1).2 ws); [destruct Hsame | reflexivity].
    + destruct Hstep as (Ha & ws & Hg & Hf).
      exists b. split; [now left|]. split; [exact Ha|]. now exists ws.
Qed.

(** ** The blocks of the scripts *)

(** The count of [data_nrows] depends on what the sheet holds only. *)
Lemma data_nrows_same wb1 wb2 name fc :
  same_opt (get_sheet name wb1) (get_sheet name wb2) ->
  (data_nrows wb1 name fc).2 = (data_nrows wb2 name fc).2.
Proof.
  intros H.
  destruct (get_sheet name wb1) as [ws1|] eqn:E1;
    destruct (get_sheet name wb2) as [ws2|] eqn:E2; cbn in H;
    [|destruct H|destruct H|].
  - pose proof (data_nrows_some wb1 name fc ws1 E1) as H1.
    pose proof (data_nrows_some wb2 name fc ws2 E2) as H2. cbv zeta in H1, H2.
    destruct H1 as (Hrun1 & Hexit1 & _). destruct H2 as (Hrun2 & Hexit2 & _).
    set (n1 := (data_nrows wb1 name fc).2) in *.
    set (n2 := (data_nrows wb2 name fc).2) in *.
    assert (Hv : forall q, cell_value ws1 q = cell_value ws2 q) by apply H.
    destruct (Nat.lt_trichotomy n1 n2) as [Hlt|[Heq|Hgt]]; [|exact Heq|]; exfalso.
    + destruct (Hrun2 (Pos.of_nat (n1 + 2)) ltac:(lia)) as [_ Hnb].
      rewrite <- Hv in Hnb.
      destruct (Hexit1 (Pos.of_nat (n1 + 2)) ltac:(lia)) as [Hx|Hx]; [|congruence].
      apply nonblank_not_none, value_within_max in Hnb. simpl in Hnb. lia.
    + destruct (Hrun1 (Pos.of_nat (n2 + 2)) ltac:(lia)) as [_ Hnb].
      rewrite Hv in Hnb.
      destruct (Hexit2 (Pos.of_nat (n2 + 2)) ltac:(lia)) as [Hx|Hx]; [|congruence].
      apply nonblank_not_none, value_within_max in Hnb. simpl in Hnb. lia.
  - unfold data_nrows. now rewrite E1, E2.
Qed.

Lemma respects_fixed r d l :
  respects {| report := r; data := d; assignments := fixed l |}.
Proof.
  split; [|reflexivity]. intros wb. cbn.
  split; [reflexivity|]. split; [intros; apply same_opt_refl | reflexivity].
Qed.

Lemma respects_declines : respects declines_block.
Proof.
  split.
  - intros wb. cbn [declines_block assignments report].
    destruct (data_nrows wb (u "Data_Declines") 1) as [wb1 n] eqn:E.
    cbn [fst snd].
    destruct (get_sheet (u "Data_Declines") wb) as [ws|] eqn:Hg.
    + pose proof (data_nrows_some wb (u "Data_Declines") 1 ws Hg) as H.
      cbv zeta in H. rewrite E in H. cbn [fst snd] in H.
      destruct H as (_ & _ & Hn & Ho & ws' & Hg' & Hs).
      split; [exact Hn|]. split; [|apply Ho; discriminate].
      intros name. destruct (decide (name = u "Data_Declines")) as [->|Hne].
      * now rewrite Hg', Hg.
      * rewrite (Ho name Hne). apply same_opt_refl.
    + unfold data_nrows in E. rewrite Hg in E. injection E as <- <-.
      split; [reflexivity|]. split; [intros; apply same_opt_refl | reflexivity].
  - intros wb1 wb2 H. cbn [declines_block assignments data] in *.
    pose proof (data_nrows_same wb1 wb2 (u "Data_Declines") 1 H) as Hn.
    destruct (data_nrows wb1 (u "Data_Declines") 1) as [wb1' n1].
    destruct (data_nrows wb2 (u "Data_Declines") 1) as [wb2' n2].
    cbn [snd] in *. now subst.
Qed.

Lemma wired_belfius : wired BELFIUS_BLOCKS.
Proof.
  split; [|split].
  - repeat constructor; first [apply respects_fixed | apply respects_declines].
  - apply (bool_decide_eq_true_1 _). vm_compute. reflexivity.
  - intros b b' Hb Hb'. unfold BELFIUS_BLOCKS in *.
    repeat (destruct Hb as [<-|Hb]; [
      repeat (destruct Hb' as [<-|Hb']; [intros E; vm_compute in E; discriminate|]);
      destruct Hb' |]).
    destruct Hb.
Qed.

Lemma wired_bancontact : wired BANCONTACT_BLOCKS.
Proof.
  split; [|split].
  - repeat constructor; first [apply respects_fixed | apply respects_declines].
  - apply (bool_decide_eq_true_1 _). vm_compute. reflexivity.
  - intros b b' Hb Hb'. unfold BANCONTACT_BLOCKS in *.
    repeat (destruct Hb as [<-|Hb]; [
      repeat (destruct Hb' as [<-|Hb']; [intros E; vm_compute in E; discriminate|]);
      destruct Hb' |]).
    destruct Hb.
Qed.

(** ** What the wiring does, and what it leaves *)

Lemma data_not_report bs b :
  wired bs -> In b bs -> ~ In (data b) (report <$> bs).
Proof.
  intros (_ & _ & H) Hb Hin.
  apply list_elem_of_In, list_elem_of_fmap in Hin as (b' & E & Hb').
  apply list_elem_of_In in Hb'. now apply (H b b').
Qed.

Lemma run_blocks_keeps bs wb wb' :
  wired bs -> run_blocks bs wb = Some wb' ->
  sheetnames wb' = sheetnames wb /\
  (forall name, ~ In name (report <$> bs) ->
     same_opt (get_sheet name wb') (get_sheet name wb)) /\
  (forall name ws ws',
     get_sheet name wb = Some ws -> get_sheet name wb' = Some ws' ->
     title ws' = title ws /\ merged_cells ws' = merged_cells ws /\
     sheet_state ws' = sheet_state ws).
Proof.
  intros Hw Hrun. pose proof (run_blocks_spec bs Hw wb) as H. rewrite Hrun in H.
  destruct H as (Hn & Ho & Hr). split; [exact Hn|]. split; [exact Ho|].
  intros name ws ws' Hg Hg'.
  destruct (decide (name ∈ report <$> bs)) as [Hin|Hnin].
  - apply list_elem_of_fmap in Hin as (b & -> & Hb). apply list_elem_of_In in Hb.
    specialize (Hr b Hb). rewrite Hg' in Hr. destruct (applicable b wb).
    + destruct Hr as (ws0 & ws1 & Hg0 & Ha & Hs). rewrite Hg in Hg0. injection Hg0 as <-.
      destruct (assign_all_spec _ _ _ Ha) as (Ht & Hm & Hst & _).
      destruct Hs as (Ht' & Hm' & Hst' & _). repeat split; congruence.
    + rewrite Hg in Hr. destruct Hr as (Ht' & Hm' & Hst' & _). now repeat split.
  - specialize (Ho name). rewrite Hg, Hg' in Ho.
    destruct Ho as (Ht' & Hm' & Hst' & _).
    + intros H. apply Hnin. now apply list_elem_of_In.
    + now repeat split.
Qed.

Lemma run_blocks_values bs wb wb' b :
  wired bs -> run_blocks bs wb = Some wb' -> In b bs ->
  if applicable b wb
  then exists ws ws',
         get_sheet (report b) wb = Some ws /\
         get_sheet (report b) wb' = Some ws' /\
         forall q, cell_value ws' q = final (assignments b wb).2 q (cell_value ws q)
  else same_opt (get_sheet (report b) wb') (get_sheet (report b) wb).
Proof.
  intros Hw Hrun Hb. pose proof (run_blocks_spec bs Hw wb) as H. rewrite Hrun in H.
  destruct H as (_ & _ & Hr). specialize (Hr b Hb). destruct (applicable b wb); [|exact Hr].
  destruct Hr as (ws & ws1 & Hg & Ha & Hs).
  destruct (get_sheet (report b) wb') as [ws'|]; [|destruct Hs].
  exists ws, ws'. split; [exact Hg|]. split; [reflexivity|].
  intros q. destruct Hs as (_ & _ & _ & Hv). rewrite Hv.
  now destruct (assign_all_spec _ _ _ Ha) as (_ & _ & _ & ->).
Qed.


Lemma run_blocks_again bs wb wb' :
  wired bs -> run_blocks bs wb = Some wb' ->
  exists wb'', run_blocks bs wb' = Some wb'' /\
    sheetnames wb'' = sheetnames wb' /\
    forall name, same_opt (get_sheet name wb'') (get_sheet name wb').
Proof.
  intros Hw Hrun. pose proof (run_blocks_spec bs Hw wb) as H1. rewrite Hrun in H1.
  destruct H1 as (Hn & Ho & Hr).
  (* what a block finds in the wired workbook *)
  assert (Hfind : forall b, In b bs ->
    applicable b wb' = applicable b wb /\
    (assignments b wb').2 = (assignments b wb).2).
  { intros b Hb. split; [now apply applicable_names|].
    pose proof (proj1 Hw) as Hres.
    apply (proj1 (Forall_forall _ _) Hres b); [now apply list_elem_of_In|].
    apply Ho. now apply (data_not_report bs b). }
  assert (Hfix : forall b, In b bs -> applicable b wb = true ->
    exists ws2 ws2', get_sheet (report b) wb' = Some ws2 /\
      assign_all (assignments b wb).2 ws2 = Some ws2' /\ same_sheet ws2' ws2).
  { intros b Hb Ha. specialize (Hr b Hb). rewrite Ha in Hr.
    destruct Hr as (ws & ws' & Hg & Hok & Hs).
    destruct (get_sheet (report b) wb') as [ws2|]; [|destruct Hs]. cbn in Hs.
    destruct (assign_all_again _ _ _ Hok) as (ws'' & Hok' & Hs').
    pose proof (assign_all_same (assignments b wb).2 ws2 ws' Hs) as Hsame.
    rewrite Hok' in Hsame.
    destruct (assign_all (assignments b wb).2 ws2) as [ws2'|] eqn:Ew; [|destruct Hsame].
    exists ws2, ws2'. split; [reflexivity|]. split; [exact Ew|].
    eapply same_sheet_trans; [exact Hsame|].
    eapply same_sheet_trans; [exact Hs' | now apply same_sheet_sym]. }
  pose proof (run_blocks_spec bs Hw wb') as H2.
  destruct (run_blocks bs wb') as [wb''|].
  - exists wb''. split; [reflexivity|]. destruct H2 as (Hn2 & Ho2 & Hr2).
    split; [exact Hn2|]. intros name.
    destruct (decide (name ∈ report <$> bs)) as [Hin|Hnin].
    + apply list_elem_of_fmap in Hin as (b & -> & Hb). apply list_elem_of_In in Hb.
      specialize (Hr2 b Hb). destruct (Hfind b Hb) as [Ha Hl]. rewrite Ha, Hl in Hr2.
      destruct (applicable b wb) eqn:Eb; [|exact Hr2].
      destruct Hr2 as (ws2 & ws2' & Hg2 & Hok2 & Hs2).
      destruct (Hfix b Hb Eb) as (ws3 & ws3' & Hg3 & Hok3 & Hs3).
      rewrite Hg2 in Hg3. injection Hg3 as <-. rewrite Hok2 in Hok3. injection Hok3 as <-.
      rewrite Hg2. eapply same_opt_trans; [exact Hs2 | exact Hs3].
    + apply Ho2. intros H. apply Hnin. now apply list_elem_of_In.
  - exfalso. destruct H2 as (b & Hb & Ha & ws2 & Hg2 & Hf).
    destruct (Hfind b Hb) as [Ha' Hl]. rewrite Ha' in Ha. rewrite Hl in Hf.
    destruct (Hfix b Hb Ha) as (ws3 & ws3' & Hg3 & Hok3 & _). congruence.
Qed.

(** The report sheets of the two wirings. *)
Definition BELFIUS_REPORTS : list str :=
  [u "Metrics"; u "Declines"; u "Usage Frequency"; u "Merchant Report"; u "Fraud"].

Definition BANCONTACT_REPORTS : list str :=
  [u "Metrics"; u "Declines"; u "Usage Frequency"; u "Merchant Report"].

(** The tabs are kept, every sheet outside [reports] holds what it held, and
    no sheet changes its title, merged ranges or visibility. *)
Definition leaves_alone (reports : list str) (wb wb' : Workbook) : Prop :=
  sheetnames wb' = sheetnames wb /\
  (forall name, ~ In name reports ->
     same_opt (get_sheet name wb') (get_sheet name wb)) /\
  (forall name ws ws',
     get_sheet name wb = Some ws -> get_sheet name wb' = Some ws' ->
     title ws' = title ws /\ merged_cells ws' = merged_cells ws /\
     sheet_state ws' = sheet_state ws).

(** X23.  The wiring of the report sheets never touches another sheet: the tabs
    and their order are kept, every sheet other than the report sheets, the
    [Data_*] sheets among them, holds what it held, and no sheet changes its
    title, its merged ranges or its visibility. *)
Theorem wiring_keeps_other_sheets wb :
  (forall wb', wire_visible_sheets wb = Some wb' ->
     leaves_alone BELFIUS_REPORTS wb wb') /\
  (forall wb', ensure_report_formulas_and_cosmetics wb = Some wb' ->
     leaves_alone BANCONTACT_REPORTS wb wb').
Proof.
  split; intros wb' H.
  - exact (run_blocks_keeps BELFIUS_BLOCKS wb wb' wired_belfius H).
  - exact (run_blocks_keeps BANCONTACT_BLOCKS wb wb' wired_bancontact H).
Qed.

(** What a block leaves on its report sheet: when the report sheet and the
    data sheet both exist, every cell holds what the assignments of the
    block, taken in order, make of its former value; when one of them is
    missing, the report sheet holds what it held. *)
Definition block_effect (b : block) (wb wb' : Workbook) : Prop :=
  if has_sheet (report b) wb && has_sheet (data b) wb
  then exists ws ws',
         get_sheet (report b) wb = Some ws /\
         get_sheet (report b) wb' = Some ws' /\
         forall q, cell_value ws' q = final (assignments b wb).2 q (cell_value ws q)
  else same_opt (get_sheet (report b) wb') (get_sheet (report b) wb).

(** X24.  Each block of a wiring acts on its own report sheet as if it ran alone
    on the workbook as it was: the blocks before and after it do not change
    what it writes or where. *)
Theorem wiring_blocks_independent wb b :
  (forall wb', wire_visible_sheets wb = Some wb' -> In b BELFIUS_BLOCKS ->
     block_effect b wb wb') /\
  (forall wb', ensure_report_formulas_and_cosmetics wb = Some wb' ->
     In b BANCONTACT_BLOCKS -> block_effect b wb wb').
Proof.
  split; intros wb' H Hb.
  - exact (run_blocks_values BELFIUS_BLOCKS wb wb' b wired_belfius H Hb).
  - exact (run_blocks_values BANCONTACT_BLOCKS wb wb' b wired_bancontact H Hb).
Qed.


(** X26.  Wiring a workbook that is already wired succeeds and changes nothing:
    the tabs are the same and every sheet holds what it held. *)
Theorem wiring_twice wb :
  (forall wb', wire_visible_sheets wb = Some wb' ->
     exists wb'', wire_visible_sheets wb' = Some wb'' /\
       sheetnames wb'' = sheetnames wb' /\
       forall name, same_opt (get_sheet name wb'') (get_sheet name wb')) /\
  (forall wb', ensure_report_formulas_and_cosmetics wb = Some wb' ->
     exists wb'', ensure_report_formulas_and_cosmetics wb' = Some wb'' /\
       sheetnames wb'' = sheetnames wb' /\
       forall name, same_opt (get_sheet name wb'') (get_sheet name wb')).
Proof.
  split; intros wb' H.
  - exact (run_blocks_again BELFIUS_BLOCKS wb wb' wired_belfius H).
  - exact (run_blocks_again BANCONTACT_BLOCKS wb wb' wired_bancontact H).
Qed.

(** ** The Declines sheet *)

Lemma declines_split n :
  declines n = List.flat_map declines_row (seq 0 n) ++ declines 0.
Proof. reflexivity. Qed.

Lemma declines_row_row i a : In a (declines_row i) -> a.1.1 = Pos.of_nat (8 + i).
Proof.
  unfold declines_row. cbv zeta. intros H.
  repeat (destruct H as [<-|H]; [reflexivity|]). destruct H.
Qed.

Lemma declines_row_functional i a a' :
  In a (declines_row i) -> In a' (declines_row i) -> a'.1 = a.1 -> a'.2 = a.2.
Proof.
  unfold declines_row. cbv zeta. intros H H'.
  repeat (destruct H as [<-|H]; [
    repeat (destruct H' as [<-|H']; [
      intros E; first [reflexivity | (injection E as E; discriminate E)] |]);
    destruct H' |]).
  destruct H.
Qed.

Lemma declines_fixed_values a d :
  In a (declines 0) -> final (declines 0) a.1 d = VStr a.2.
Proof.
  intros H. unfold declines in H. cbn in H.
  repeat (destruct H as [<-|H]; [vm_compute; reflexivity|]). destruct H.
Qed.

Lemma declines_layout wb wb' :
  wire_visible_sheets wb = Some wb' \/
  ensure_report_formulas_and_cosmetics wb = Some wb' ->
  has_sheet (u "Declines") wb && has_sheet (u "Data_Declines") wb = true ->
  exists ws',
    get_sheet (u "Declines") wb' = Some ws' /\
    (forall a, In a (declines 0) -> cell_value ws' a.1 = VStr a.2) /\
    (forall i a,
       (i < (data_nrows wb (u "Data_Declines") 1).2)%nat ->
       In a (declines_row i) ->
       (forall a', In a' (declines 0) -> a'.1 <> a.1) ->
       cell_value ws' a.1 = VStr a.2).
Proof.
  intros Hrun Happ.
  assert (H : block_effect declines_block wb wb').
  { destruct Hrun as [Hrun|Hrun].
    - apply (run_blocks_values BELFIUS_BLOCKS wb wb' _ wired_belfius Hrun).
      right. now left.
    - apply (run_blocks_values BANCONTACT_BLOCKS wb wb' _ wired_bancontact Hrun).
      right. now left. }
  unfold block_effect in H. cbn [declines_block report data assignments] in H.
  rewrite Happ in H. destruct H as (ws & ws' & Hg & Hg' & Hv).
  destruct (data_nrows wb (u "Data_Declines") 1) as [wb1 n]. cbn [snd] in *.
  exists ws'. split; [exact Hg'|]. split.
  - intros a Ha. rewrite Hv, declines_split, final_app. now apply declines_fixed_values.
  - intros i a Hi Ha Hfree. rewrite Hv, declines_split, final_app.
    rewrite (final_untouched (declines 0)) by exact Hfree.
    destruct a as [q s]. apply final_assigned.
    + apply in_flat_map. exists i. split; [apply in_seq; lia | exact Ha].
    + intros a' Ha' E. apply in_flat_map in Ha' as (i' & Hi' & Ha').
      assert (i' = i) as ->.
      { apply declines_row_row in Ha, Ha'. rewrite E in Ha'. cbn [fst] in *.
        rewrite Ha in Ha'. lia. }
      exact (declines_row_functional i (q, s) a' Ha Ha' E).
Qed.

(** X27.  On the Declines sheet the labels and the totals win: the cells A7..A15,
    A17, B15, C15, F15 and G15 hold their fixed texts however many data rows
    there are, so that the A formulas of the rows 8..15 are never seen; and
    each other formula cell of a data row holds its [INDEX] formula. *)
Theorem declines_labels_win wb wb' :
  wire_visible_sheets wb = Some wb' \/
  ensure_report_formulas_and_cosmetics wb = Some wb' ->
  has_sheet (u "Declines") wb && has_sheet (u "Data_Declines") wb = true ->
  exists ws',
    get_sheet (u "Declines") wb' = Some ws' /\
    (forall a, In a (declines 0) -> cell_value ws' a.1 = VStr a.2) /\
    (forall i a,
       (i < (data_nrows wb (u "Data_Declines") 1).2)%nat ->
       In a (declines_row i) ->
       (forall a', In a' (declines 0) -> a'.1 <> a.1) ->
       cell_value ws' a.1 = VStr a.2).
Proof. apply declines_layout. Qed.

(** A workbook with an empty Declines sheet and two rows of decline data,
    and its wiring. *)
Definition declines_book : Workbook :=
  [ new_sheet (u "Declines");
    fill_sheet {| columns := [u "Reason"; u "Count"];
                  rows := [[VStr (u "Expired card"); VInt 12];
                           [VStr (u "Do not honor"); VInt 7]] |}
               (new_sheet (u "Data_Declines")) ].

Definition declines_book_wired : Workbook :=
  default [] (wire_visible_sheets declines_book).

Lemma declines_book_wires : wire_visible_sheets declines_book = Some declines_book_wired.
Proof. vm_compute. reflexivity. Qed.

Lemma declines_labels_win_witness :
  exists ws',
    get_sheet (u "Declines") declines_book_wired = Some ws' /\
    (forall a, In a (declines 0) -> cell_value ws' a.1 = VStr a.2) /\
    (forall i a,
       (i < (data_nrows declines_book (u "Data_Declines") 1).2)%nat ->
       In a (declines_row i) ->
       (forall a', In a' (declines 0) -> a'.1 <> a.1) ->
       cell_value ws' a.1 = VStr a.2).
Proof.
  apply (declines_labels_win declines_book declines_book_wired).
  - left. exact declines_book_wires.
  - reflexivity.
Defined.

(** ** [set_val] and merged cells *)

Import SheetMore.

(** Among ranges that do not overlap, a cell lies in one range at most. *)
Lemma range_unique l q a b :
  ranges_disjoint l = true -> In a l -> In b l ->
  in_cell_range q a = true -> in_cell_range q b = true -> a = b.
Proof.
  induction l as [|x l IH]; intros Hd Ha Hb Hqa Hqb; [destruct Ha|].
  cbn [ranges_disjoint] in Hd. apply andb_true_iff in Hd as [Hx Hl].
  rewrite forallb_forall in Hx.
  destruct Ha as [<-|Ha], Hb as [<-|Hb].
  - reflexivity.
  - specialize (Hx b Hb). now rewrite (overlap_of_common q x b Hqa Hqb) in Hx.
  - specialize (Hx a Ha). now rewrite (overlap_of_common q x a Hqb Hqa) in Hx.
  - now apply IH.
Qed.

Lemma anchor_not_merged ws p :
  ranges_disjoint (merged_cells ws) = true ->
  is_merged_cell ws (anchor_coord ws p) = false.
Proof.
  intros Hd. unfold is_merged_cell.
  destruct (existsb _ (merged_cells ws)) eqn:E; [exfalso|reflexivity].
  apply existsb_exists in E as (mr' & Hin' & H).
  apply andb_true_iff in H as [Hr Hne]. apply negb_true_iff, bool_decide_eq_false in Hne.
  unfold anchor_coord in *.
  destruct (List.find (in_cell_range p) (merged_cells ws)) as [mr|] eqn:Ef.
  - apply find_some in Ef as [Hin Hp].
    assert (mr = mr') as ->
      by exact (range_unique _ _ mr mr' Hd Hin Hin' (anchor_in_range p mr Hp) Hr).
    now apply Hne.
  - pose proof (find_none _ _ Ef mr' Hin') as Hf. simpl in Hf. congruence.
Qed.

(** X5.  On a sheet whose merged ranges do not overlap, the anchor of a cell
    is an ordinary cell, so the assignment of [set_val] does not fail; it is
    one assignment, at the anchor of the addressed cell: the value is read
    back there and every other cell keeps its value.  So a value set at a
    cell inside a merged range, other than its top-left corner, is not seen
    at that cell. *)
Theorem set_val_writes_anchor ws addr val :
  ranges_disjoint (merged_cells ws) = true ->
  is_merged_cell ws (anchor_coord ws addr) = false /\
  same_sheet (set_val ws addr val) (set_value (anchor_coord ws addr) val ws) /\
  cell_value (set_val ws addr val) (anchor_coord ws addr) = val /\
  (forall q, q <> anchor_coord ws addr ->
     cell_value (set_val ws addr val) q = cell_value ws q).
Proof.
  intros Hd. split; [now apply anchor_not_merged|].
  assert (Hs : same_sheet (set_val ws addr val) (set_value (anchor_coord ws addr) val ws)).
  { unfold set_val.
    pose proof (anchor_cell_same (cell addr ws) addr) as H1.
    pose proof (anchor_cell_coord (cell addr ws) addr) as H2.
    destruct (_anchor_cell (cell addr ws) addr) as [ws' a]. cbn [fst snd] in *.
    rewrite H2, (anchor_coord_same _ ws addr (merged_cells_cell addr ws)).
    apply same_sheet_set_value.
    exact (same_sheet_trans _ _ _ H1 (same_sheet_cell _ _)). }
  split; [exact Hs|]. destruct Hs as (_ & _ & _ & Hv). split.
  - rewrite Hv, cell_value_set_value. now destruct (decide _).
  - intros q Hq. rewrite Hv, cell_value_set_value.
    destruct (decide (anchor_coord ws addr = q)); [congruence | reflexivity].
Qed.

Lemma set_val_writes_anchor_witness :
  let ws := ReportingMonthFacts.merged_label_sheet in
  let addr := (2, 2)%positive in
  is_merged_cell ws (anchor_coord ws addr) = false /\
  same_sheet (set_val ws addr (VInt 7)) (set_value (anchor_coord ws addr) (VInt 7) ws) /\
  cell_value (set_val ws addr (VInt 7)) (anchor_coord ws addr) = VInt 7 /\
  (forall q, q <> anchor_coord ws addr ->
     cell_value (set_val ws addr (VInt 7)) q = cell_value ws q).
Proof.
  intros ws addr. apply (set_val_writes_anchor ws addr (VInt 7)). reflexivity.
Defined.

End WiringFacts.

(* ===================================================================== *)
(** * Normalising the fraud labels *)
(* ===================================================================== *)

Module Labels.
Import PyStr PyFloat ToNum.

Definition CR : N := 13.
Definition LF : N := 10.

(** [s.split()]: the maximal runs of characters that are not white space. *)
Fixpoint split (s : str) : list str :=
  match s with
  | [] => []
  | c :: t =>
      if isspace c then split t
      else
        match t with
        | [] => [[c]]
        | c' :: _ =>
            if isspace c' then [c] :: split t
            else match split t with
                 | w :: ws => (c :: w) :: ws
                 | [] => [[c]]
                 end
        end
  end.

(** [sep.join(l)] *)
Fixpoint join (sep : str) (l : list str) : str :=
  match l with
  | [] => []
  | [w] => w
  | w :: t => w ++ sep ++ join sep t
  end.

(** [" ".join(s.replace("\xa0"," ").replace("\r"," ").replace("\n"," ").split())] *)
Definition norm_text (s : str) : str :=
  join [SPACE]
    (split (replace LF [SPACE] (replace CR [SPACE] (replace NBSP [SPACE] s)))).

Section Norm.
(** [str(v)] for a value that is not text. *)
Variable py_str : pyval -> str.

(** [norm(s)] of the Fraud block of the values-only pass. *)
Definition norm (v : pyval) : str :=
  match v with
  | VNone => []
  | VStr s => norm_text s
  | v => norm_text (py_str v)
  end.

End Norm.
End Labels.

Module LabelsFacts.
Import PyStr PyFloat ToNum Labels.

(** A word: not empty, and without white space. *)
Definition word (w : str) : Prop :=
  w <> [] /\ forall c, In c w -> isspace c = false.

Lemma split_words s : Forall word (split s).
Proof.
  induction s as [|c t IH]; [constructor|]. cbn [split].
  destruct (isspace c) eqn:Ec; [exact IH|].
  assert (Hc : word [c]).
  { split; [discriminate|]. intros x [<-|[]]. exact Ec. }
  destruct t as [|c' t']; [constructor; [exact Hc | constructor]|].
  destruct (isspace c') eqn:Ec'; [now constructor|].
  destruct (split (c' :: t')) as [|w ws]; [constructor; [exact Hc | constructor]|].
  apply Forall_cons in IH as [[Hw1 Hw2] Hws]. constructor; [|exact Hws].
  split; [discriminate|]. intros x [<-|Hx]; [exact Ec | now apply Hw2].
Qed.

(** [split] sees of a character only whether it is white space, and which
    character it is when it is not. *)
Lemma split_map (f : N -> N) s :
  (forall c, isspace (f c) = isspace c) ->
  (forall c, isspace c = false -> f c = c) ->
  split (List.map f s) = split s.
Proof.
  intros Hs Hf. induction s as [|c t IH]; [reflexivity|].
  cbn [List.map split]. rewrite Hs. destruct (isspace c) eqn:Ec; [exact IH|].
  rewrite (Hf c Ec). destruct t as [|c' t']; [reflexivity|].
  cbn [List.map] in *. rewrite Hs, IH. reflexivity.
Qed.

Lemma replace_by_space x s :
  isspace x = true -> split (replace x [SPACE] s) = split s.
Proof.
  intros Hx. unfold replace.
  replace (List.flat_map (fun c => if (c =? x)%N then [SPACE] else [c]) s)
    with (List.map (fun c => if (c =? x)%N then SPACE else c) s).
  - apply split_map; intros c; destruct (N.eqb_spec c x) as [->|_]; try reflexivity.
    + now rewrite Hx.
    + congruence.
  - induction s as [|c t IH]; [reflexivity|]. cbn. rewrite IH.
    now destruct (c =? x)%N.
Qed.

Lemma split_word_then w r :
  word w -> split (w ++ SPACE :: r) = w :: split r.
Proof.
  intros [Hne Hw]. induction w as [|c w IH]; [contradiction|].
  assert (Ec : isspace c = false) by (apply Hw; now left).
  cbn [app split]. rewrite Ec. destruct w as [|c2 w'].
  - reflexivity.
  - assert (Ec2 : isspace c2 = false) by (apply Hw; right; now left).
    cbn [app] in *. rewrite Ec2, IH; [reflexivity | discriminate |].
    intros x Hx. apply Hw. now right.
Qed.

Lemma split_word w : word w -> split w = [w].
Proof.
  intros [Hne Hw]. induction w as [|c w IH]; [contradiction|].
  assert (Ec : isspace c = false) by (apply Hw; now left).
  cbn [split]. rewrite Ec. destruct w as [|c2 w']; [reflexivity|].
  assert (Ec2 : isspace c2 = false) by (apply Hw; right; now left).
  rewrite Ec2, IH; [reflexivity | discriminate |].
  intros x Hx. apply Hw. now right.
Qed.

Lemma split_join ws : Forall word ws -> split (join [SPACE] ws) = ws.
Proof.
  induction ws as [|w t IH]; [reflexivity|]. intros H.
  apply Forall_cons in H as [Hw Ht]. destruct t as [|w2 t'].
  - now apply split_word.
  - change (join [SPACE] (w :: w2 :: t')) with (w ++ SPACE :: join [SPACE] (w2 :: t')).
    rewrite split_word_then by exact Hw. now rewrite IH.
Qed.

Lemma norm_text_join s : norm_text s = join [SPACE] (split s).
Proof.
  unfold norm_text. now rewrite !replace_by_space.
Qed.

(** X29.  The normalised label is the words of the text joined by single
    blanks: the three replacements change nothing once the text is split, so
    the kind and the amount of white space do not matter; and normalising a
    normalised label gives it back. *)
Theorem norm_text_words s :
  norm_text s = join [SPACE] (split s) /\
  Forall word (split s) /\
  norm_text (norm_text s) = norm_text s.
Proof.
  split; [apply norm_text_join|]. split; [apply split_words|].
  rewrite !norm_text_join. now rewrite split_join by apply split_words.
Qed.

(** X30.  Two texts have the same normalised label exactly when they have
    the same words in the same order: the lookup of a fraud label matches a
    data row whenever the two differ in white space only. *)
Theorem norm_text_same_words s1 s2 :
  norm_text s1 = norm_text s2 <-> split s1 = split s2.
Proof.
  rewrite !norm_text_join. split; [|now intros ->].
  intros H. apply (f_equal split) in H.
  now rewrite !split_join in H by apply split_words.
Qed.

End LabelsFacts.

(* ===================================================================== *)
(** * Assignments that openpyxl refuses *)
(* ===================================================================== *)

(** The definitions of [ReportingMonth] and [DataSheet] give the sheet that a
    call leaves when every assignment is accepted.  Here the same functions
    are given with the exceptions of openpyxl that the scripts do not catch:
    each function returns the sheet (or the workbook) as the call leaves it,
    and the exception that ended the call, if any. *)

Module Cells.
Import PyStr PyFloat ToNum Sheet Wiring.

Inductive error :=
| AttributeError          (* [c.value = v] where [c] is a [MergedCell] *)
| IllegalCharacterError   (* a control character in a text *)
| TitleError.             (* [ValueError]: a title that [create_sheet] rejects *)

Inductive try (A : Type) :=
| Accepted (a : A)
| Rejected (e : error).
Arguments Accepted {A} a.
Arguments Rejected {A} e.

(** [ILLEGAL_CHARACTERS_RE], i.e. [[\000-\010]|[\013-\014]|[\016-\037]]: the
    control characters other than tab, line feed and carriage return. *)
Definition is_illegal (c : N) : bool :=
  in_range 0 8 c || in_range 11 12 c || in_range 14 31 c.

(** [Cell.check_string]: [value = value[:32767]], then the search for a
    control character in what is left. *)
Definition check_string (s : str) : try str :=
  let s := firstn (Z.to_nat 32767) s in
  if existsb is_illegal s then Rejected IllegalCharacterError else Accepted s.

(** [Cell._bind_value] on the values of a frame or a label: a text goes through
    [check_string]; numbers, booleans and [None] are kept as they are. *)
Definition bind_value (v : pyval) : try pyval :=
  match v with
  | VStr s =>
      match check_string s with
      | Accepted s' => Accepted (VStr s')
      | Rejected e => Rejected e
      end
  | _ => Accepted v
  end.

(** [c.value] for the cell at [p] of a sheet as [load_workbook] or
    [merge_cells] builds it: every cell of a merged range but the top-left one
    is a [MergedCell], whose value is [None]. *)
Definition value (ws : Worksheet) (p : coord) : pyval :=
  if is_merged_cell ws p then VNone else cell_value ws p.

(** [c.value = v] for the cell at [p]: a [MergedCell] has no setter, an
    ordinary cell binds the value. *)
Definition assign_value (p : coord) (v : pyval) (ws : Worksheet)
  : Worksheet * option error :=
  if is_merged_cell ws p then (ws, Some AttributeError)
  else
    match bind_value v with
    | Accepted v' => (set_value p v' ws, None)
    | Rejected e => (ws, Some e)
    end.

End Cells.

(** ** The Reporting Month stamp *)

Module Stamp.
Import PyStr PyFloat ToNum Sheet ReportingMonth DataSheet Wiring Cells.

(** How a turn of the scan ends: the loop goes on, the function returns, or
    an exception leaves it. *)
Inductive signal :=
| Next
| Return
| Raise (e : error).

(** The [return] that follows an assignment. *)
Definition then_return (r : Worksheet * option error) : Worksheet * signal :=
  match r with
  | (ws, None) => (ws, Return)
  | (ws, Some e) => (ws, Raise e)
  end.

(** The body of the inner loop of [upsert_reporting_month] at row [r],
    column [c]. *)
Definition visit (month_label : str) (ws : Worksheet) (r c : positive)
  : Worksheet * signal :=
  let ws := cell (r, c) ws in
  match value ws (r, c) with
  | VStr val =>
      if contains NEEDLE (lower val) then
        let '(ws, anchor) := _anchor_cell ws (r, c) in
        let text := strip val in
        if mem COLON text then
          then_return (assign_value anchor (VStr (full_label month_label)) ws)
        else
          let ws := cell (r, (c + 1)%positive) ws in
          let '(ws, target) := _anchor_cell ws (r, (c + 1)%positive) in
          then_return (assign_value target (VStr month_label) ws)
      else (ws, Next)
  | _ => (ws, Next)
  end.

Fixpoint scan_cols (month_label : str) (ws : Worksheet) (r : positive)
  (cs : list positive) : Worksheet * signal :=
  match cs with
  | [] => (ws, Next)
  | c :: cs' =>
      match visit month_label ws r c with
      | (ws', Next) => scan_cols month_label ws' r cs'
      | res => res
      end
  end.

Fixpoint scan_rows (month_label : str) (ws : Worksheet)
  (rs cs : list positive) : Worksheet * signal :=
  match rs with
  | [] => (ws, Next)
  | r :: rs' =>
      match scan_cols month_label ws r cs with
      | (ws', Next) => scan_rows month_label ws' rs' cs
      | res => res
      end
  end.

(** [upsert_reporting_month(ws, month_label)] *)
Definition upsert_reporting_month (ws : Worksheet) (month_label : str)
  : Worksheet * option error :=
  let max_r := Pos.min (ws_max_row ws) 10 in
  let max_c := Pos.min (ws_max_column ws) 30 in
  match scan_rows month_label ws (pos_range max_r) (pos_range max_c) with
  | (ws', Return) => (ws', None)
  | (ws', Raise e) => (ws', Some e)
  | (ws', Next) =>
      let ws' := cell (2, 1)%positive ws' in
      let '(ws', a2) := _anchor_cell ws' (2, 1)%positive in
      assign_value a2 (VStr (full_label month_label)) ws'
  end.

(** The loop of [set_reporting_month_on_workbook(wb)] over [wb.worksheets],
    with [label] the text that [prev_month_label()] returned: the sheets after
    the one whose stamp raised are not reached. *)
Fixpoint stamp_sheets (label : str) (wss : Workbook) : Workbook * option error :=
  match wss with
  | [] => ([], None)
  | ws :: rest =>
      if Main.stamped ws then
        match upsert_reporting_month ws label with
        | (ws', None) =>
            let '(rest', e) := stamp_sheets label rest in (ws' :: rest', e)
        | (ws', Some e) => (ws' :: rest, Some e)
        end
      else
        let '(rest', e) := stamp_sheets label rest in (ws :: rest', e)
  end.

Definition set_reporting_month_on_workbook (label : str) (wb : Workbook)
  : Workbook * option error :=
  stamp_sheets label wb.

End Stamp.

(** ** Refilling a data sheet *)

Module Refill.
Import PyStr PyFloat ToNum Sheet DataSheet Cells.

(** [c.value = v] for a cell that [ws.cell] has just created on a sheet that
    was emptied or is new: [delete_rows] removes every cell object of the
    rows, the [MergedCell]s among them, so the cell is an ordinary one
    whatever the merged ranges of the sheet are. *)
Definition store (p : coord) (v : pyval) (ws : Worksheet) : Worksheet * option error :=
  match bind_value v with
  | Accepted v' => (set_value p v' ws, None)
  | Rejected e => (ws, Some e)
  end.

(** [ws.cell(row=r, column=c, value=v)]: the cell is created; [None] is not
    assigned. *)
Definition cell_with_value (p : coord) (v : pyval) (ws : Worksheet)
  : Worksheet * option error :=
  let ws := cell p ws in
  match v with
  | VNone => (ws, None)
  | _ => store p v ws
  end.

(** [for j, val in enumerate(row, start=c): ws.cell(row=r, column=j, value=val)] *)
Fixpoint write_row (r c : positive) (vals : list pyval) (ws : Worksheet)
  : Worksheet * option error :=
  match vals with
  | [] => (ws, None)
  | v :: t =>
      match cell_with_value (r, c) v ws with
      | (ws', None) => write_row r (c + 1)%positive t ws'
      | res => res
      end
  end.

Fixpoint write_rows (i : positive) (rs : list (list pyval)) (ws : Worksheet)
  : Worksheet * option error :=
  match rs with
  | [] => (ws, None)
  | row :: t =>
      match write_row i 1 row ws with
      | (ws', None) => write_rows (i + 1)%positive t ws'
      | res => res
      end
  end.

(** The two loops and [ws.sheet_state = "hidden"], which is not reached when
    a loop raised. *)
Definition fill_sheet (df : DataFrame) (ws : Worksheet) : Worksheet * option error :=
  match write_row 1 1 (VStr <$> columns df) ws with
  | (ws, None) =>
      match write_rows 2 (rows df) ws with
      | (ws, None) => (with_state Hidden ws, None)
      | res => res
      end
  | res => res
  end.

Section Create.

(** The title that [wb.create_sheet(title=name)] gives the new sheet, from
    the titles the workbook has, or its refusal.  openpyxl decides it: an
    empty name becomes a default title, a name with one of [\ * ? : / [ ]]
    is refused with [ValueError], and a name that equals an existing title up
    to letter case gets a number appended. *)
Variable create_sheet_title : list str -> str -> try str.

(** [write_dataframe_to_sheet(wb, sheet_name, df)] *)
Definition write_dataframe_to_sheet (wb : Workbook) (sheet_name : str)
  (df : DataFrame) : Workbook * option error :=
  match get_sheet sheet_name wb with
  | Some ws =>
      let '(ws', e) := fill_sheet df (clear_sheet ws) in
      (update_sheet sheet_name (fun _ => ws') wb, e)
  | None =>
      match create_sheet_title (sheetnames wb) sheet_name with
      | Accepted t =>
          let '(ws', e) := fill_sheet df (new_sheet t) in
          (wb ++ [ws'], e)
      | Rejected e => (wb, Some e)
      end
  end.

Section Refresh.
Variable Path : Type.
Variable read_csv_robust : Path -> DataFrame.

(** The [Data_*] refresh loop of the [main] functions: it ends with the first
    refill that raises. *)
Fixpoint refresh_data (files : list (string * Path)) (wb : Workbook)
  : Workbook * option error :=
  match files with
  | [] => (wb, None)
  | kp :: rest =>
      match write_dataframe_to_sheet wb (u kp.1) (read_csv_robust kp.2) with
      | (wb', None) => refresh_data rest wb'
      | res => res
      end
  end.

End Refresh.
End Create.

End Refill.

(* ===================================================================== *)
(** * Properties of the Reporting Month stamp, with its failures *)
(* ===================================================================== *)

Module StampFacts.
Import PyStr PyFloat ToNum Sheet ReportingMonth DataSheet Wiring Cells Stamp.
Import SheetFacts SheetMore ReportingMonthFacts WiringFacts.

(** ** Texts and cells *)

(** A text that [check_string] keeps as it is: at most 32767 characters, none
    of them a control character. *)
Definition storable (s : str) : bool :=
  (Z.of_nat (length s) <=? 32767) && forallb (fun c => negb (is_illegal c)) s.

Lemma check_string_storable s : storable s = true -> check_string s = Accepted s.
Proof.
  unfold storable, check_string. intros [Hlen Hc]%andb_true_iff. cbv zeta.
  apply Z.leb_le in Hlen. rewrite firstn_all2 by lia.
  destruct (existsb is_illegal s) eqn:E; [|reflexivity].
  apply existsb_exists in E as (c & Hin & Hi).
  rewrite forallb_forall in Hc. specialize (Hc c Hin). now rewrite Hi in Hc.
Qed.

(** [mr] is the first range, in the order of [ws.merged_cells.ranges], that
    holds [p]. *)
Definition first_range (ws : Worksheet) (p : coord) (mr : CellRange) : Prop :=
  exists earlier later,
    merged_cells ws = earlier ++ mr :: later /\
    in_cell_range p mr = true /\
    forall mr', In mr' earlier -> in_cell_range p mr' = false.

(** [a] is the merge anchor of [p]: the top-left corner (minimum row, minimum
    column) of the first range that holds [p], or [p] when none holds it. *)
Inductive anchor_of (ws : Worksheet) (p : coord) : coord -> Prop :=
| anchor_top_left mr :
    first_range ws p mr -> anchor_of ws p (min_row mr, min_col mr)
| anchor_self :
    (forall mr, In mr (merged_cells ws) -> in_cell_range p mr = false) ->
    anchor_of ws p p.

Lemma anchor_of_coord ws p a : anchor_of ws p a <-> anchor_coord ws p = a.
Proof.
  unfold anchor_coord. split.
  - intros [mr (l1 & l2 & Hm & Hr & Hl1)|Hno].
    + now rewrite Hm, (find_first_at _ l1 mr l2 Hr Hl1).
    + now rewrite (find_all_false _ _ Hno).
  - destruct (List.find (in_cell_range p) (merged_cells ws)) as [mr|] eqn:E; intros <-.
    + apply anchor_top_left. destruct (find_first_split _ _ _ E) as (l1 & l2 & H).
      now exists l1, l2.
    + apply anchor_self. intros mr Hin. exact (find_none _ _ E mr Hin).
Qed.


(** The results of two calls are the same to a reader. *)
Definition same_result {E : Type} (a b : Worksheet * E) : Prop :=
  same_sheet a.1 b.1 /\ a.2 = b.2.

Lemma same_result_refl {E} (a : Worksheet * E) : same_result a a.
Proof. split; [apply same_sheet_refl | reflexivity]. Qed.

Lemma same_result_trans {E} (a b c : Worksheet * E) :
  same_result a b -> same_result b c -> same_result a c.
Proof.
  intros [H1 H2] [H3 H4]. split; [exact (same_sheet_trans _ _ _ H1 H3) | congruence].
Qed.

Lemma value_same a b p : same_sheet a b -> value a p = value b p.
Proof.
  intros (_ & Hm & _ & Hv). unfold value.
  now rewrite (is_merged_cell_same a b p Hm), Hv.
Qed.

Lemma value_outside ws p :
  (ws_max_row ws < p.1 \/ ws_max_column ws < p.2)%positive -> value ws p = VNone.
Proof.
  intros H. unfold value. rewrite (cell_value_outside ws p H).
  now destruct (is_merged_cell ws p).
Qed.

Lemma assign_value_same a b p v :
  same_sheet a b -> same_result (assign_value p v a) (assign_value p v b).
Proof.
  intros H. pose proof H as (_ & Hm & _ & _). unfold assign_value.
  rewrite (is_merged_cell_same a b p Hm).
  destruct (is_merged_cell b p); [now split|].
  destruct (bind_value v); [|now split].
  split; [now apply same_sheet_set_value | reflexivity].
Qed.

Lemma then_return_same r1 r2 :
  same_result r1 r2 -> same_result (then_return r1) (then_return r2).
Proof.
  destruct r1 as [w1 e1], r2 as [w2 e2]. intros [H1 H2]. cbn [fst snd] in *. subst e2.
  destruct e1; split; first [exact H1 | reflexivity].
Qed.

(** ** One visit, one row, all rows *)

(** The text of a label cell. *)
Definition label_of (v : pyval) : option str :=
  match v with
  | VStr val => if contains NEEDLE (lower val) then Some val else None
  | _ => None
  end.

Definition shows_label (ws : Worksheet) (p : coord) : bool :=
  is_label (value ws p).

(** The cell that a label cell [p] with text [val] makes the call write,
    before merge resolution, and the text it gets. *)
Definition aim (p : coord) (val : str) : coord :=
  if mem COLON val then p else (p.1, (p.2 + 1)%positive).

Definition text_for (month_label val : str) : str :=
  if mem COLON val then full_label month_label else month_label.

(** What the call does once it has [p] for its label cell. *)
Definition act (month_label : str) (ws : Worksheet) (p : coord)
  : Worksheet * option error :=
  match label_of (value ws p) with
  | Some val =>
      assign_value (anchor_coord ws (aim p val)) (VStr (text_for month_label val)) ws
  | None => (ws, None)
  end.

Lemma shows_label_same a b p : same_sheet a b -> shows_label a p = shows_label b p.
Proof. intros H. unfold shows_label. now rewrite (value_same a b p H). Qed.

Lemma act_same ml a b p : same_sheet a b -> same_result (act ml a p) (act ml b p).
Proof.
  intros H. unfold act. rewrite (value_same a b p H).
  destruct (label_of (value b p)) as [val|]; [|now split].
  rewrite (anchor_coord_same a b _ (proj1 (proj2 H))). now apply assign_value_same.
Qed.

Lemma visit_outcome ml ws r c :
  if shows_label ws (r, c)
  then same_result (visit ml ws r c) (then_return (act ml ws (r, c)))
  else same_result (visit ml ws r c) (ws, Next).
Proof.
  unfold shows_label, act, visit.
  pose proof (same_sheet_cell (r, c) ws) as H0.
  rewrite (value_same _ _ (r, c) H0).
  destruct (value ws (r, c)) as [| | | |val]; cbn [is_label label_of];
    try (split; [exact H0 | reflexivity]).
  destruct (contains NEEDLE (lower val)); [|split; [exact H0 | reflexivity]].
  pose proof (anchor_cell_coord (cell (r, c) ws) (r, c)) as Ha.
  pose proof (anchor_cell_same (cell (r, c) ws) (r, c)) as Hs.
  destruct (_anchor_cell (cell (r, c) ws) (r, c)) as [ws1 a]. cbn [fst snd] in Ha, Hs.
  assert (H1 : same_sheet ws1 ws) by (eapply same_sheet_trans; eassumption).
  rewrite (mem_strip COLON val eq_refl). unfold aim, text_for.
  destruct (mem COLON val).
  - subst a. rewrite (anchor_coord_same _ ws _ (proj1 (proj2 H0))).
    now apply then_return_same, assign_value_same.
  - pose proof (same_sheet_cell (r, (c + 1)%positive) ws1) as H2.
    pose proof (anchor_cell_coord (cell (r, (c + 1)%positive) ws1) (r, (c + 1)%positive)) as Hb.
    pose proof (anchor_cell_same (cell (r, (c + 1)%positive) ws1) (r, (c + 1)%positive)) as Ht.
    destruct (_anchor_cell (cell (r, (c + 1)%positive) ws1) (r, (c + 1)%positive)) as [ws2 b].
    cbn [fst snd] in Hb, Ht. subst b.
    assert (H3 : same_sheet ws2 ws).
    { eapply same_sheet_trans; [exact Ht|]. eapply same_sheet_trans; eassumption. }
    assert (Hm : merged_cells (cell (r, (c + 1)%positive) ws1) = merged_cells ws).
    { transitivity (merged_cells ws1); [apply H2 | apply H1]. }
    rewrite (anchor_coord_same _ ws _ Hm).
    now apply then_return_same, assign_value_same.
Qed.

(** What a scan does with the first label cell of the cells it visits. *)
Definition on_first (ml : str) (ws : Worksheet) (found : option coord)
  : Worksheet * signal :=
  match found with
  | Some p => then_return (act ml ws p)
  | None => (ws, Next)
  end.

Lemma on_first_same ml a b found :
  same_sheet a b -> same_result (on_first ml a found) (on_first ml b found).
Proof.
  intros H. destruct found as [p|]; [|now split].
  now apply then_return_same, act_same.
Qed.

Lemma then_return_not_next r : (then_return r).2 <> Next.
Proof. destruct r as [w [e|]]; discriminate. Qed.

Lemma scan_cols_outcome ml r cs : forall ws,
  same_result (scan_cols ml ws r cs)
              (on_first ml ws (List.find (shows_label ws) (row_cells r cs))).
Proof.
  induction cs as [|c cs IH]; intros ws; [apply same_result_refl|].
  unfold row_cells. rewrite fmap_cons. fold (row_cells r cs).
  cbn [scan_cols List.find].
  pose proof (visit_outcome ml ws r c) as Hv.
  destruct (shows_label ws (r, c)).
  - cbn [on_first].
    pose proof (then_return_not_next (act ml ws (r, c))) as Hn.
    destruct Hv as [Hs He]. rewrite <- He in Hn.
    destruct (visit ml ws r c) as [ws1 [| |e]]; [now destruct Hn | now split | now split].
  - destruct Hv as [Hs He]. destruct (visit ml ws r c) as [ws1 sg].
    cbn [fst snd] in Hs, He. subst sg.
    eapply same_result_trans; [apply IH|].
    rewrite (find_ext (shows_label ws1) (shows_label ws))
      by (intros; now apply shows_label_same).
    now apply on_first_same.
Qed.

Lemma on_first_not_next ml ws p : (on_first ml ws (Some p)).2 <> Next.
Proof. apply then_return_not_next. Qed.

Lemma scan_rows_outcome ml cs rs : forall ws,
  same_result (scan_rows ml ws rs cs)
              (on_first ml ws (List.find (shows_label ws) (grid rs cs))).
Proof.
  induction rs as [|r rs IH]; intros ws; [apply same_result_refl|].
  change (grid (r :: rs) cs) with (row_cells r cs ++ grid rs cs).
  rewrite find_app. cbn [scan_rows].
  pose proof (scan_cols_outcome ml r cs ws) as Hc.
  destruct (List.find (shows_label ws) (row_cells r cs)) as [p|].
  - pose proof (on_first_not_next ml ws p) as Hn.
    destruct Hc as [Hs He]. rewrite <- He in Hn.
    destruct (scan_cols ml ws r cs) as [ws1 [| |e]]; [now destruct Hn | now split | now split].
  - destruct Hc as [Hs He]. destruct (scan_cols ml ws r cs) as [ws1 sg].
    cbn [fst snd on_first] in Hs, He. subst sg.
    eapply same_result_trans; [apply IH|].
    rewrite (find_ext (shows_label ws1) (shows_label ws))
      by (intros; now apply shows_label_same).
    now apply on_first_same.
Qed.

(** The first label cell of the window. *)
Definition first_shown (ws : Worksheet) : option coord :=
  List.find (shows_label ws) window.

(** The scan, cut at the used range, finds what a scan of the whole window
    finds. *)
Lemma find_shown_window ws :
  List.find (shows_label ws)
    (grid (pos_range (Pos.min (ws_max_row ws) 10))
          (pos_range (Pos.min (ws_max_column ws) 30))) = first_shown ws.
Proof.
  assert (Hout : forall q,
    ~ (q.1 <= Pos.min (ws_max_row ws) 10 /\ q.2 <= Pos.min (ws_max_column ws) 30)%positive ->
    in_window q -> shows_label ws q = false).
  { intros q Hq [H1 H2]. unfold shows_label. rewrite value_outside; [reflexivity | lia]. }
  pose proof (find_grid_least (shows_label ws)
                (Pos.min (ws_max_row ws) 10) (Pos.min (ws_max_column ws) 30)) as H.
  destruct (List.find _ _) as [p|]; symmetry.
  - destruct H as (Hp & HP & Hmin). apply find_grid_unique; [lia | assumption |].
    intros q Hq Hb.
    destruct (decide ((q.1 <= Pos.min (ws_max_row ws) 10 /\
                       q.2 <= Pos.min (ws_max_column ws) 30)%positive)) as [Hin|Hn].
    + now apply Hmin.
    + now apply Hout.
  - apply find_all_false. intros q Hq. apply in_grid in Hq.
    destruct (decide ((q.1 <= Pos.min (ws_max_row ws) 10 /\
                       q.2 <= Pos.min (ws_max_column ws) 30)%positive)) as [Hin|Hn].
    + now apply H.
    + now apply Hout.
Qed.

(** The call is one assignment, which can be refused. *)
Definition stamp_run (ml : str) (ws : Worksheet) : Worksheet * option error :=
  match first_shown ws with
  | Some p => act ml ws p
  | None => assign_value (anchor_coord ws (2, 1)%positive) (VStr (full_label ml)) ws
  end.

Lemma upsert_outcome ws ml :
  same_result (upsert_reporting_month ws ml) (stamp_run ml ws).
Proof.
  unfold upsert_reporting_month, stamp_run. cbv zeta.
  pose proof (scan_rows_outcome ml (pos_range (Pos.min (ws_max_column ws) 30))
                (pos_range (Pos.min (ws_max_row ws) 10)) ws) as H.
  rewrite find_shown_window in H.
  destruct (first_shown ws) as [p|]; cbn [on_first] in H.
  - destruct H as [Hs He].
    destruct (scan_rows ml ws _ _) as [ws1 sg]. cbn [fst snd] in Hs, He. subst sg.
    destruct (act ml ws p) as [w [e|]]; now split.
  - destruct H as [Hs He].
    destruct (scan_rows ml ws _ _) as [ws1 sg]. cbn [fst snd] in Hs, He. subst sg.
    pose proof (same_sheet_cell (2, 1)%positive ws1) as H2.
    pose proof (anchor_cell_coord (cell (2, 1)%positive ws1) (2, 1)%positive) as Ha.
    pose proof (anchor_cell_same (cell (2, 1)%positive ws1) (2, 1)%positive) as Hs2.
    destruct (_anchor_cell (cell (2, 1)%positive ws1) (2, 1)%positive) as [ws2 a].
    cbn [fst snd] in Ha, Hs2. subst a.
    assert (H3 : same_sheet ws2 ws).
    { eapply same_sheet_trans; [exact Hs2|]. eapply same_sheet_trans; eassumption. }
    assert (Hm : merged_cells (cell (2, 1)%positive ws1) = merged_cells ws).
    { transitivity (merged_cells ws1); [apply H2 | apply Hs]. }
    rewrite (anchor_coord_same _ ws _ Hm).
    now apply assign_value_same.
Qed.

(** ** What a call leaves *)

(** The call returned, and [text] stands at [a]; no other cell has changed
    its value, and the merged ranges, the title and the visibility are as
    before. *)
Definition wrote (ws : Worksheet) (res : Worksheet * option error)
  (a : coord) (text : str) : Prop :=
  res.2 = None /\
  cell_value res.1 a = VStr text /\
  (forall q, q <> a -> cell_value res.1 q = cell_value ws q) /\
  merged_cells res.1 = merged_cells ws /\
  title res.1 = title ws /\
  sheet_state res.1 = sheet_state ws.

(** The call raised [e], and no cell has changed its value. *)
Definition failed (ws : Worksheet) (res : Worksheet * option error)
  (e : error) : Prop :=
  res.2 = Some e /\ same_sheet res.1 ws.

(** The outcome of a call whose one assignment is [text] at [a]:
    [AttributeError] when [a] is a [MergedCell]; otherwise the text is cut
    to 32767 characters, and is refused when what is left has a control
    character. *)
Definition outcome_at (ws : Worksheet) (res : Worksheet * option error)
  (a : coord) (text : str) : Prop :=
  if is_merged_cell ws a then failed ws res AttributeError
  else
    match check_string text with
    | Accepted s => wrote ws res a s
    | Rejected e => failed ws res e
    end.

Lemma assign_value_outcome ws res a text :
  same_result res (assign_value a (VStr text) ws) -> outcome_at ws res a text.
Proof.
  unfold assign_value, outcome_at, bind_value.
  destruct (is_merged_cell ws a); [intros [Hs He]; now split|].
  destruct (check_string text) as [s|e]; [|intros [Hs He]; now split].
  intros [(Ht & Hm & Hst & Hv) He]. cbn [fst snd] in *.
  split; [exact He|]. split; [|split; [|now repeat split]].
  - rewrite Hv, cell_value_set_value. now destruct (decide (a = a)).
  - intros q Hq. rewrite Hv, cell_value_set_value.
    destruct (decide (a = q)); [congruence | reflexivity].
Qed.


(** [p] is the first cell of rows 1..10, columns 1..30, row by row, that
    holds a text with the label in it; [val] is that text. *)
Definition first_labelled (ws : Worksheet) (p : coord) (val : str) : Prop :=
  in_window p /\
  value ws p = VStr val /\
  contains (u "reporting month") (lower val) = true /\
  forall q, in_window q -> before q p -> is_label (value ws q) = false.

Lemma first_shown_labelled ws p val :
  first_labelled ws p val ->
  first_shown ws = Some p /\ label_of (value ws p) = Some val.
Proof.
  intros (Hw & Hv & Hc & Hmin). split.
  - apply (find_grid_unique (shows_label ws) 10 30); [exact Hw | | exact Hmin].
    unfold shows_label. rewrite Hv. exact Hc.
  - rewrite Hv. cbn [label_of]. change NEEDLE with (u "reporting month"). now rewrite Hc.
Qed.

Lemma first_shown_none ws :
  (forall q, in_window q -> is_label (value ws q) = false) -> first_shown ws = None.
Proof.
  intros H. apply find_all_false. intros q Hq. apply H. now apply in_grid in Hq.
Qed.


(** The cell a call targets, before merge resolution, and the text it
    assigns: the label cell itself with the full text when the label cell has
    a colon, the cell to its right with the month alone when it has none, and
    A2 with the full text when the window has no label cell. *)
Inductive targets (ws : Worksheet) (ml : str) : coord -> str -> Prop :=
| targets_label_cell p val :
    first_labelled ws p val -> mem COLON val = true ->
    targets ws ml p (u "Reporting Month: " ++ ml)
| targets_right_cell p val :
    first_labelled ws p val -> mem COLON val = false ->
    targets ws ml (p.1, (p.2 + 1)%positive) ml
| targets_default :
    (forall q, in_window q -> is_label (value ws q) = false) ->
    targets ws ml (2, 1)%positive (u "Reporting Month: " ++ ml).

Lemma stamp_run_targets ws ml t text :
  targets ws ml t text ->
  stamp_run ml ws = assign_value (anchor_coord ws t) (VStr text) ws.
Proof.
  unfold stamp_run, act, aim, text_for.
  intros [p val H Hc|p val H Hc|H].
  - destruct (first_shown_labelled ws p val H) as [-> ->]. now rewrite Hc.
  - destruct (first_shown_labelled ws p val H) as [-> ->]. now rewrite Hc.
  - now rewrite (first_shown_none ws H).
Qed.


(** The call is the one assignment that its target determines. *)
Lemma upsert_outcome_at ws ml t text a :
  targets ws ml t text -> anchor_of ws t a ->
  outcome_at ws (upsert_reporting_month ws ml) a text.
Proof.
  intros Ht Ha. apply anchor_of_coord in Ha. subst a.
  apply assign_value_outcome. rewrite <- (stamp_run_targets ws ml t text Ht).
  apply upsert_outcome.
Qed.

Lemma first_shown_before ws p :
  first_shown ws = Some p ->
  forall q, in_window q -> before q p -> is_label (value ws q) = false.
Proof.
  intros E. pose proof (find_grid_least (shows_label ws) 10 30) as H.
  fold window in H. fold (first_shown ws) in H. rewrite E in H. apply H.
Qed.


Lemma failed_same ws res e q : failed ws res e -> cell_value res.1 q = cell_value ws q.
Proof. intros [_ (_ & _ & _ & H)]. apply H. Qed.

Lemma outcome_at_other ws res a text q :
  outcome_at ws res a text -> q <> a -> cell_value res.1 q = cell_value ws q.
Proof.
  unfold outcome_at. intros H Hq.
  destruct (is_merged_cell ws a); [now apply (failed_same ws res AttributeError)|].
  destruct (check_string text) as [s|e]; [|now apply (failed_same ws res e)].
  destruct H as (_ & _ & H & _). now apply H.
Qed.

Lemma value_text ws p val : value ws p = VStr val -> cell_value ws p = VStr val.
Proof. unfold value. now destruct (is_merged_cell ws p). Qed.

(** ** Sample sheets *)

Definition B1_B2 : CellRange := {| min_row := 1; min_col := 2; max_row := 2; max_col := 2 |}.







(** ** C4: the first label in scan order decides *)




(** ** C5: same cell or the cell to the right *)

(** C5, as the code has it.  For the matched cell [(r, c)] with text [val]:
    when [val] has a colon, the one assignment is
    ["Reporting Month: <month>"] at the merge anchor of [(r, c)]; when it has
    none, whatever the column, it is the month alone at the merge anchor of
    [(r, c+1)], and the label cell keeps its text provided that anchor is
    not the label cell itself.  The assignment is refused, and nothing
    changes, when the anchor is a [MergedCell] or the text has a control
    character. *)
Theorem upsert_colon_rule ws ml r c val a :
  (r <= 10 /\ c <= 30)%positive ->
  value ws (r, c) = VStr val ->
  contains (u "reporting month") (lower val) = true ->
  (forall q, (q.1 <= 10 /\ q.2 <= 30)%positive -> before q (r, c) ->
             is_label (value ws q) = false) ->
  (mem COLON val = true -> anchor_of ws (r, c) a ->
     outcome_at ws (upsert_reporting_month ws ml) a (u "Reporting Month: " ++ ml)) /\
  (mem COLON val = false -> anchor_of ws (r, (c + 1)%positive) a ->
     outcome_at ws (upsert_reporting_month ws ml) a ml /\
     (a <> (r, c) ->
      cell_value (upsert_reporting_month ws ml).1 (r, c) = VStr val)).
Proof.
  intros Hw Hv Hc Hmin.
  assert (H : first_labelled ws (r, c) val) by (repeat split; try assumption; apply Hw).
  split; intros E Ha.
  - exact (upsert_outcome_at ws ml _ _ a (targets_label_cell ws ml _ val H E) Ha).
  - pose proof (upsert_outcome_at ws ml _ _ a (targets_right_cell ws ml _ val H E) Ha) as Ho.
    split; [exact Ho|]. intros Hne.
    rewrite (outcome_at_other _ _ _ _ (r, c) Ho (not_eq_sym Hne)). now apply value_text.
Qed.

(** With a colon the label cell A2 gets the full text; without one the month
    goes to B1, the anchor of B2 in B1:B2, and the label stays in A2. *)
Lemma upsert_colon_rule_witness :
  (let res := upsert_reporting_month same_cell_sheet (u "September 2025") in
   res.2 = None /\
   cell_value res.1 (2, 1)%positive = VStr (u "Reporting Month: September 2025") /\
   (forall q, q <> (2, 1)%positive -> cell_value res.1 q = cell_value same_cell_sheet q) /\
   merged_cells res.1 = [] /\ title res.1 = u "Metrics" /\ sheet_state res.1 = Visible) /\
  (let res := upsert_reporting_month upward_merge_sheet (u "September 2025") in
   (res.2 = None /\
    cell_value res.1 (1, 2)%positive = VStr (u "September 2025") /\
    (forall q, q <> (1, 2)%positive -> cell_value res.1 q = cell_value upward_merge_sheet q) /\
    merged_cells res.1 = [B1_B2] /\ title res.1 = u "Metrics" /\
    sheet_state res.1 = Visible) /\
   cell_value res.1 (2, 1)%positive = VStr (u "Reporting Month")).
Proof.
  split.
  - intros res.
    refine (proj1 (upsert_colon_rule same_cell_sheet (u "September 2025") 2 1
                     (u "Reporting Month: August 2025") (2, 1)%positive _ eq_refl eq_refl _)
              eq_refl _).
    + split; lia.
    + apply first_shown_before. vm_compute. reflexivity.
    + apply anchor_self. intros mr [].
  - intros res.
    assert (Hw : (2 <= 10 /\ 1 <= 30)%positive) by (split; lia).
    assert (Hmin : forall q, (q.1 <= 10 /\ q.2 <= 30)%positive ->
              before q (2, 1)%positive -> is_label (value upward_merge_sheet q) = false).
    { apply first_shown_before. vm_compute. reflexivity. }
    assert (Ha : anchor_of upward_merge_sheet (2, 2)%positive (1, 2)%positive).
    { apply (anchor_top_left upward_merge_sheet (2, 2)%positive B1_B2).
      exists [], []. split; [reflexivity|]. split; [reflexivity|]. intros mr' []. }
    destruct (proj2 (upsert_colon_rule upward_merge_sheet (u "September 2025") 2 1
                       (u "Reporting Month") (1, 2)%positive
                       Hw eq_refl eq_refl Hmin) eq_refl Ha) as [Ho Hlabel].
    split; [exact Ho | apply Hlabel; discriminate].
Defined.

(** Counterexample to C5 as the specification words it ("leaving the label
    cell unchanged"): when the label cell is merged with the cell to its
    right, that cell's anchor is the label cell, and the label is overwritten
    by the month. *)
Lemma upsert_overwrites_merged_label :
  value merged_label_sheet (2, 1)%positive = VStr (u "Reporting Month") /\
  first_shown merged_label_sheet = Some (2, 1)%positive /\
  mem COLON (u "Reporting Month") = false /\
  anchor_coord merged_label_sheet (2, 2)%positive = (2, 1)%positive /\
  (upsert_reporting_month merged_label_sheet (u "September 2025")).2 = None /\
  cell_value (upsert_reporting_month merged_label_sheet (u "September 2025")).1
    (2, 1)%positive = VStr (u "September 2025").
Proof. repeat split; vm_compute; reflexivity. Qed.

(** ** C6: the fallback to A2 *)




(** ** C7: one write, at the merge anchor *)




(** ** The stamping pass over the workbook *)

Lemma storable_suffix s t : storable (s ++ t) = true -> storable t = true.
Proof.
  unfold storable. rewrite !andb_true_iff, length_app, forallb_app, andb_true_iff.
  rewrite !Z.leb_le. intros [Hlen [_ Ht]]. split; [lia | exact Ht].
Qed.














(** ** The stamp of [ReportingMonth] *)

(** A sheet as [load_workbook] builds it: a [MergedCell] holds no value. *)
Definition loaded (ws : Worksheet) : Prop :=
  forall p, is_merged_cell ws p = true -> cell_value ws p = VNone.

Lemma value_loaded ws p : loaded ws -> value ws p = cell_value ws p.
Proof.
  intros H. unfold value. destruct (is_merged_cell ws p) eqn:E; [|reflexivity].
  symmetry. now apply H.
Qed.

(** On a loaded sheet whose merged ranges do not overlap, with a text that a
    cell keeps as it is, the call returns and leaves the sheet that
    [ReportingMonth.upsert_reporting_month] gives. *)
Lemma upsert_agrees ws ml :
  loaded ws ->
  ranges_disjoint (merged_cells ws) = true ->
  storable (u "Reporting Month: " ++ ml) = true ->
  same_result (Stamp.upsert_reporting_month ws ml)
              (ReportingMonth.upsert_reporting_month ws ml, None).
Proof.
  intros Hl Hd Hs.
  assert (E : stamp_run ml ws = (stamp ws ml, None)).
  { unfold stamp_run, stamp, target_cell, written_text, first_shown, first_label.
    rewrite (find_ext (shows_label ws) (labelled ws))
      by (intros q _; unfold shows_label, labelled; now rewrite value_loaded).
    destruct (List.find (labelled ws) window) as [p|] eqn:Ef.
    - unfold act, target_at, text_at, aim, text_for. rewrite (value_loaded ws p Hl).
      apply find_some in Ef as [_ Hp]. unfold labelled in Hp.
      destruct (cell_value ws p) as [| | | |val]; try discriminate.
      cbn [is_label] in Hp. cbn [label_of has_colon]. rewrite Hp.
      unfold assign_value, full_label. rewrite (anchor_not_merged ws _ Hd).
      destruct (mem COLON val); cbn [bind_value].
      + now rewrite (check_string_storable _ Hs).
      + now rewrite (check_string_storable _ (storable_suffix _ _ Hs)).
    - unfold assign_value, full_label. rewrite (anchor_not_merged ws _ Hd).
      cbn [bind_value]. now rewrite (check_string_storable _ Hs). }
  eapply same_result_trans; [apply upsert_outcome|]. rewrite E.
  split; [|reflexivity]. apply same_sheet_sym, upsert_spec.
Qed.
End StampFacts.

(* ===================================================================== *)
(** * Properties of the data-sheet refill, with its failures *)
(* ===================================================================== *)

Module RefillFacts.
Import PyStr PyFloat ToNum Sheet DataSheet Readers Cells.
Import SheetFacts DataSheetFacts ReadersFacts FromSheetFacts WorkbookFacts StampFacts.

(** ** Frames that a sheet holds as they are *)








(** ** Titles and other sheets, whatever the frame *)

Lemma title_store p v ws : title (Refill.store p v ws).1 = title ws.
Proof. unfold Refill.store. now destruct (bind_value v). Qed.

Lemma title_cell p ws : title (cell p ws) = title ws.
Proof. unfold cell. now destruct (cells ws !! p). Qed.

Lemma title_cell_with_value_run p v ws :
  title (Refill.cell_with_value p v ws).1 = title ws.
Proof.
  unfold Refill.cell_with_value.
  destruct v; rewrite ?title_store; apply title_cell.
Qed.

Lemma title_write_row_run r vals : forall c ws,
  title (Refill.write_row r c vals ws).1 = title ws.
Proof.
  induction vals as [|v t IH]; intros c ws; [reflexivity|].
  cbn [Refill.write_row]. pose proof (title_cell_with_value_run (r, c) v ws) as H.
  destruct (Refill.cell_with_value (r, c) v ws) as [ws' [e|]]; [exact H|].
  now rewrite IH.
Qed.

Lemma title_write_rows_run rs : forall i ws,
  title (Refill.write_rows i rs ws).1 = title ws.
Proof.
  induction rs as [|row t IH]; intros i ws; [reflexivity|].
  cbn [Refill.write_rows]. pose proof (title_write_row_run i row 1 ws) as H.
  destruct (Refill.write_row i 1 row ws) as [ws' [e|]]; [exact H|].
  now rewrite IH.
Qed.

Lemma title_fill_sheet_run df ws : title (Refill.fill_sheet df ws).1 = title ws.
Proof.
  unfold Refill.fill_sheet.
  pose proof (title_write_row_run 1 (VStr <$> columns df) 1 ws) as H1.
  destruct (Refill.write_row 1 1 (VStr <$> columns df) ws) as [ws1 [e|]]; [exact H1|].
  pose proof (title_write_rows_run (rows df) 2 ws1) as H2.
  destruct (Refill.write_rows 2 (rows df) ws1) as [ws2 [e|]];
    cbn [fst with_state title] in *; congruence.
Qed.


Section Create.
Variable create_sheet_title : list str -> str -> try str.




(** ** C10: the refill replaces the sheet *)


End Create.

(** A visible sheet with the data of an earlier month, in more rows and
    columns than the new frame has. *)
Definition stale_usage : Worksheet :=
  {| title := u "Data_Usage";
     cells := list_to_map
       [((1, 1)%positive, VStr (u "Wallet")); ((1, 2)%positive, VStr (u "Share"));
        ((1, 3)%positive, VStr (u "Old column"));
        ((2, 1)%positive, VStr (u "Debit")); ((2, 2)%positive, VInt 40);
        ((3, 1)%positive, VStr (u "Credit")); ((3, 2)%positive, VInt 50);
        ((4, 1)%positive, VStr (u "Prepaid")); ((4, 2)%positive, VInt 10);
        ((7, 5)%positive, VStr (u "note"))];
     merged_cells := [];
     sheet_state := Visible |}.

Definition usage_frame : DataFrame :=
  {| columns := [u "Wallet"; u "Share"];
     rows := [[VStr (u "Debit"); VNone]; [VStr (u "Credit"); VInt 3]] |}.

(** [create_sheet] on a workbook without a title like the name. *)
Definition free_title (names : list str) (name : str) : try str := Accepted name.


(** The cells of the sheet that the call above leaves. *)
Lemma usage_sheet_refilled :
  let res := Refill.write_dataframe_to_sheet free_title
               [new_sheet (u "Metrics"); stale_usage] (u "Data_Usage") usage_frame in
  exists ws',
    get_sheet (u "Data_Usage") res.1 = Some ws' /\
    sheet_state ws' = Hidden /\
    cell_value ws' (1, 1)%positive = VStr (u "Wallet") /\
    cell_value ws' (1, 2)%positive = VStr (u "Share") /\
    cell_value ws' (1, 3)%positive = VNone /\
    cell_value ws' (2, 1)%positive = VStr (u "Debit") /\
    cell_value ws' (2, 2)%positive = VNone /\
    cell_value ws' (3, 1)%positive = VStr (u "Credit") /\
    cell_value ws' (3, 2)%positive = VInt 3 /\
    cell_value ws' (4, 1)%positive = VNone /\
    cell_value ws' (4, 2)%positive = VNone /\
    cell_value ws' (7, 5)%positive = VNone.
Proof.
  intros res. eexists. split; [vm_compute; reflexivity|].
  repeat split; vm_compute; reflexivity.
Qed.





(** ** Reading a refilled sheet *)

Section Refills.
Variable create_sheet_title : list str -> str -> try str.



(** ** The other sheets *)

(** X13.  A refill, whether it returns or raises, leaves every sheet with
    another title as it was and keeps the tabs in order: the names are
    unchanged when the sheet existed; when it did not, the new sheet goes to
    the end under the title that [create_sheet] chose, and nothing changes
    when [create_sheet] refuses the name. *)
Theorem write_dataframe_keeps_others wb name df :
  let res := Refill.write_dataframe_to_sheet create_sheet_title wb name df in
  (has_sheet name wb = true ->
     sheetnames res.1 = sheetnames wb /\
     forall other, other <> name -> get_sheet other res.1 = get_sheet other wb) /\
  (has_sheet name wb = false ->
     forall t, create_sheet_title (sheetnames wb) name = Accepted t ->
       sheetnames res.1 = sheetnames wb ++ [t] /\
       forall other, other <> t -> get_sheet other res.1 = get_sheet other wb) /\
  (has_sheet name wb = false ->
     forall e, create_sheet_title (sheetnames wb) name = Rejected e ->
       res = (wb, Some e)).
Proof.
  cbv zeta. unfold Refill.write_dataframe_to_sheet.
  destruct (get_sheet name wb) as [ws|] eqn:Hg.
  - assert (Hh : has_sheet name wb = true).
    { destruct (has_sheet name wb) eqn:E; [reflexivity|].
      apply get_sheet_none in E. congruence. }
    rewrite Hh. split; [|split; discriminate]. intros _.
    pose proof (title_fill_sheet_run df (clear_sheet ws)) as Ht.
    destruct (Refill.fill_sheet df (clear_sheet ws)) as [ws' e]. cbn [fst] in *.
    rewrite title_clear_sheet, (get_sheet_title _ _ _ Hg) in Ht.
    split; [apply sheetnames_update; intros; exact Ht|].
    intros other Hne. apply get_sheet_update_other; [intros; exact Ht | exact Hne].
  - pose proof (proj1 (get_sheet_none name wb) Hg) as Hh. rewrite Hh.
    split; [discriminate|]. split.
    + intros _ t ->. pose proof (title_fill_sheet_run df (new_sheet t)) as Ht.
      destruct (Refill.fill_sheet df (new_sheet t)) as [ws' e]. cbn [fst] in *.
      split.
      * unfold sheetnames. now rewrite fmap_app, fmap_cons, Ht.
      * intros other Hne. apply get_sheet_app_other. rewrite Ht. cbn. congruence.
    + now intros _ e ->.
Qed.


(** ** The refresh loop *)

Section Refresh.
Variable Path : Type.
Variable read_csv_robust : Path -> DataFrame.





End Refresh.
End Refills.

(** ** Sample runs *)









End RefillFacts.
